(** * tmate startup driver (tmux.c): shallow embedding and verified properties

    The file embeds [src/tmux.c] of tmate: shell resolution ([getshell],
    [checkshell], [areshell]), socket path derivation ([make_label]), the
    deferred command-line options ([tmate_load_cli_options]) and [main].

    The translation unit only compiles with [TMATE] defined ([main] uses
    [tmate_foreground] and [api_key], both declared under [#ifdef TMATE]),
    so every [#ifdef TMATE] block is part of the embedded program.

    Conventions.
    - C strings are [string]; a [char *] that may be [NULL] is
      [option string].
    - [int] flag words are [Z] with [Z.lor] / [Z.land].
    - The process environment, the file system seen by [lstat] and the
      option trees are finite maps ([gmap]).
    - Effects (environment, file system, [errno], the two output streams,
      the program's globals, [exit]) are threaded through the monad [M].
    - What lives outside [tmux.c] is a parameter: the constants of
      [tmux.h] and the system headers ([tmux_h]) and the answers of libc
      and the kernel ([libc]). *)

From Stdlib Require Import ZArith Ascii String DecimalString Lia.
From stdpp Require Import base option gmap strings.

Local Open Scope string_scope.
Local Open Scope Z_scope.

#[local] Arguments String.append !s1 s2 : simpl nomatch.
#[local] Arguments Ascii.eqb : simpl never.

(** ** C string functions used by tmux.c *)

Module CString.

(** [*s == '\0'] *)
Definition is_empty (s : string) : bool :=
  match s with
  | "" => true
  | String _ _ => false
  end.

(** [*s == c] for a character [c] other than NUL *)
Definition starts_with (c : ascii) (s : string) : bool :=
  match s with
  | "" => false
  | String a _ => Ascii.eqb a c
  end.

(** [strchr(set, c) != NULL] for [c] other than NUL *)
Fixpoint mem (c : ascii) (set : string) : bool :=
  match set with
  | "" => false
  | String a set' => Ascii.eqb a c || mem c set'
  end.

(** [strrchr(s, c)]: the suffix of [s] that starts at the last [c] *)
Fixpoint strrchr (s : string) (c : ascii) : option string :=
  match s with
  | "" => None
  | String a s' =>
      match strrchr s' c with
      | Some r => Some r
      | None => if Ascii.eqb a c then Some s else None
      end
  end.

(** [p + 1] for a pointer [p] to a non-empty string *)
Definition next (p : string) : string :=
  match p with
  | "" => ""
  | String _ p' => p'
  end.

(** [strcmp(a, b) == 0] *)
Definition streq (a b : string) : bool := String.eqb a b.

(** [strcspn(s, reject)] *)
Fixpoint strcspn (s reject : string) : nat :=
  match s with
  | "" => O
  | String a s' => if mem a reject then O else S (strcspn s' reject)
  end.

(** [s[n] = '\0'] for [n <= strlen(s)], and the copy made by
    [strlcpy(dst, s, n + 1)] *)
Fixpoint truncate (n : nat) (s : string) : string :=
  match n, s with
  | O, _ => ""
  | S _, "" => ""
  | S n', String a s' => String a (truncate n' s')
  end.

(** [strncmp(hay, needle, strlen(needle)) == 0] *)
Fixpoint hasprefix (needle hay : string) : bool :=
  match needle, hay with
  | "", _ => true
  | String _ _, "" => false
  | String a n', String b h' => Ascii.eqb a b && hasprefix n' h'
  end.

(** [strstr(hay, needle)]: the suffix of [hay] at the first occurrence *)
Fixpoint strstr (hay needle : string) : option string :=
  if hasprefix needle hay then Some hay
  else match hay with
       | "" => None
       | String _ hay' => strstr hay' needle
       end.

(** [tolower] on the ASCII range *)
Definition tolower (c : ascii) : ascii :=
  let n := N_of_ascii c in
  if ((65 <=? n) && (n <=? 90))%N then ascii_of_N (n + 32) else c.

Fixpoint lower (s : string) : string :=
  match s with
  | "" => ""
  | String a s' => String (tolower a) (lower s')
  end.

(** [strcasecmp(a, b) == 0] *)
Definition strcaseeq (a b : string) : bool := String.eqb (lower a) (lower b).

(** [strncasecmp(hay, needle, strlen(needle)) == 0] *)
Fixpoint caseprefix (needle hay : string) : bool :=
  match needle, hay with
  | "", _ => true
  | String _ _, "" => false
  | String a n', String b h' =>
      Ascii.eqb (tolower a) (tolower b) && caseprefix n' h'
  end.

(** [strcasestr(hay, needle)] *)
Fixpoint strcasestr (hay needle : string) : option string :=
  if caseprefix needle hay then Some hay
  else match hay with
       | "" => None
       | String _ hay' => strcasestr hay' needle
       end.

(** [%u] of an unsigned value *)
Definition fmt_u (n : Z) : string :=
  NilZero.string_of_uint (N.to_uint (Z.to_N n)).

Definition nl : string := String "010" "".

End CString.

(** ** Constants of the headers *)

(** <sys/stat.h> and <errno.h>, with their Linux values. *)
Definition S_IRWXU : Z := 0x1c0.
Definition S_IRWXG : Z := 0x38.
Definition S_IRWXO : Z := 0x7.
Definition S_IFMT : Z := 0xf000.
Definition S_IFDIR : Z := 0x4000.
Definition S_ISDIR (m : Z) : bool := Z.land m S_IFMT =? S_IFDIR.
(** <fcntl.h>, with its Linux value. *)
Definition O_NONBLOCK : Z := 0x800.
Definition ENOENT : Z := 2.
Definition EACCES : Z := 13.
Definition EEXIST : Z := 17.
Definition ENOTDIR : Z := 20.

Inductive optval :=
| OptString (s : string)
| OptNumber (n : Z).

(** The constants [tmux.c] takes from [tmux.h], [tmate.h], [paths.h],
    [limits.h] and the build: they are not part of [tmux.c] and stay
    parameters. The three option tables are given by the trees that
    [options_table_populate_tree] builds from them. *)
Record tmux_h := {
  CLIENT_LOGIN : Z;
  CLIENT_CONTROL : Z;
  CLIENT_CONTROLCONTROL : Z;
  CLIENT_UTF8 : Z;
  CLIENT_256COLOURS : Z;
  MODEKEY_EMACS : Z;
  MODEKEY_VI : Z;
  DEFER_ERRORS_CFG : Z;
  _PATH_BSHELL : string;
  _PATH_TMP : string;
  PATH_MAX : nat;
  VERSION : string;
  OPTIONS_TABLE_SERVER : gmap string optval;
  OPTIONS_TABLE_SESSION : gmap string optval;
  OPTIONS_TABLE_WINDOW : gmap string optval
}.

Record stat := { st_mode : Z; st_uid : Z }.

Record passwd := { pw_shell : option string; pw_dir : option string }.

(** What libc and the kernel answer. Calls that read the environment or
    the file system receive the current one. *)
Record libc := {
  __progname : string;
  getuid : Z;
  (** owner and permission mask the kernel gives to a new directory *)
  fsuid : Z;
  umask : Z;
  (** [setlocale(LC_CTYPE, name) != NULL] *)
  setlocale_ctype : gmap string string -> string -> bool;
  (** [nl_langinfo(CODESET)] *)
  nl_langinfo_codeset : gmap string string -> string;
  (** [access(path, X_OK) == 0] *)
  access_x_ok : gmap string stat -> string -> bool;
  getpwuid : Z -> option passwd;
  (** errno of a [mkdir] the kernel refuses on a path that does not exist *)
  mkdir_refused : gmap string stat -> string -> option Z;
  realpath : gmap string stat -> string -> option string;
  (** the six characters [mktemp] picks for a template, if it finds any *)
  mktemp_pick : gmap string stat -> string -> option string;
  getcwd : option string;
  strerror : Z -> string;
  ssh_version : string
}.

(** ** Process state *)

(** One call [run_headless_command(argc, argv, flags, NULL)]. *)
Record headless_command := {
  hc_argc : Z;
  hc_argv : list string;
  hc_flags : Z
}.

(** The state [tmux.c] reads and writes: the environment ([getenv],
    [unsetenv]), the file system ([mkdir], [lstat]), [errno], what was
    written to the two streams, the file-scope variables of [tmux.c], and
    the effects of the calls into the rest of tmux ([log_add_level],
    [set_cfg_file], [run_headless_command]). *)
Record state := {
  env : gmap string string;
  fs : gmap string stat;
  errno : Z;
  stdout : list string;
  stderr : list string;
  tmate_foreground : Z;
  log_level : nat;
  cfg_file : option string;
  api_key : option string;
  session_name : option string;
  session_name_ro : option string;
  authorized_keys : option string;
  headless : list headless_command;
  global_environ : option (gmap string string);
  global_options : option (gmap string optval);
  global_s_options : option (gmap string optval);
  global_w_options : option (gmap string optval);
  socket_path : option string
}.

Definition with_env (v : gmap string string) (s : state) : state :=
  {| env := v; fs := fs s; errno := errno s; stdout := stdout s;
     stderr := stderr s; tmate_foreground := tmate_foreground s;
     log_level := log_level s; cfg_file := cfg_file s;
     api_key := api_key s; session_name := session_name s;
     session_name_ro := session_name_ro s;
     authorized_keys := authorized_keys s; headless := headless s;
     global_environ := global_environ s;
     global_options := global_options s;
     global_s_options := global_s_options s;
     global_w_options := global_w_options s;
     socket_path := socket_path s |}.

Definition with_fs (v : gmap string stat) (s : state) : state :=
  {| env := env s; fs := v; errno := errno s; stdout := stdout s;
     stderr := stderr s; tmate_foreground := tmate_foreground s;
     log_level := log_level s; cfg_file := cfg_file s;
     api_key := api_key s; session_name := session_name s;
     session_name_ro := session_name_ro s;
     authorized_keys := authorized_keys s; headless := headless s;
     global_environ := global_environ s;
     global_options := global_options s;
     global_s_options := global_s_options s;
     global_w_options := global_w_options s;
     socket_path := socket_path s |}.

Definition with_errno (v : Z) (s : state) : state :=
  {| env := env s; fs := fs s; errno := v; stdout := stdout s;
     stderr := stderr s; tmate_foreground := tmate_foreground s;
     log_level := log_level s; cfg_file := cfg_file s;
     api_key := api_key s; session_name := session_name s;
     session_name_ro := session_name_ro s;
     authorized_keys := authorized_keys s; headless := headless s;
     global_environ := global_environ s;
     global_options := global_options s;
     global_s_options := global_s_options s;
     global_w_options := global_w_options s;
     socket_path := socket_path s |}.

Definition with_stdout (v : list string) (s : state) : state :=
  {| env := env s; fs := fs s; errno := errno s; stdout := v;
     stderr := stderr s; tmate_foreground := tmate_foreground s;
     log_level := log_level s; cfg_file := cfg_file s;
     api_key := api_key s; session_name := session_name s;
     session_name_ro := session_name_ro s;
     authorized_keys := authorized_keys s; headless := headless s;
     global_environ := global_environ s;
     global_options := global_options s;
     global_s_options := global_s_options s;
     global_w_options := global_w_options s;
     socket_path := socket_path s |}.

Definition with_stderr (v : list string) (s : state) : state :=
  {| env := env s; fs := fs s; errno := errno s; stdout := stdout s;
     stderr := v; tmate_foreground := tmate_foreground s;
     log_level := log_level s; cfg_file := cfg_file s;
     api_key := api_key s; session_name := session_name s;
     session_name_ro := session_name_ro s;
     authorized_keys := authorized_keys s; headless := headless s;
     global_environ := global_environ s;
     global_options := global_options s;
     global_s_options := global_s_options s;
     global_w_options := global_w_options s;
     socket_path := socket_path s |}.

Definition with_tmate_foreground (v : Z) (s : state) : state :=
  {| env := env s; fs := fs s; errno := errno s; stdout := stdout s;
     stderr := stderr s; tmate_foreground := v;
     log_level := log_level s; cfg_file := cfg_file s;
     api_key := api_key s; session_name := session_name s;
     session_name_ro := session_name_ro s;
     authorized_keys := authorized_keys s; headless := headless s;
     global_environ := global_environ s;
     global_options := global_options s;
     global_s_options := global_s_options s;
     global_w_options := global_w_options s;
     socket_path := socket_path s |}.

Definition with_log_level (v : nat) (s : state) : state :=
  {| env := env s; fs := fs s; errno := errno s; stdout := stdout s;
     stderr := stderr s; tmate_foreground := tmate_foreground s;
     log_level := v; cfg_file := cfg_file s; api_key := api_key s;
     session_name := session_name s;
     session_name_ro := session_name_ro s;
     authorized_keys := authorized_keys s; headless := headless s;
     global_environ := global_environ s;
     global_options := global_options s;
     global_s_options := global_s_options s;
     global_w_options := global_w_options s;
     socket_path := socket_path s |}.

Definition with_cfg_file (v : option string) (s : state) : state :=
  {| env := env s; fs := fs s; errno := errno s; stdout := stdout s;
     stderr := stderr s; tmate_foreground := tmate_foreground s;
     log_level := log_level s; cfg_file := v; api_key := api_key s;
     session_name := session_name s;
     session_name_ro := session_name_ro s;
     authorized_keys := authorized_keys s; headless := headless s;
     global_environ := global_environ s;
     global_options := global_options s;
     global_s_options := global_s_options s;
     global_w_options := global_w_options s;
     socket_path := socket_path s |}.

Definition with_api_key (v : option string) (s : state) : state :=
  {| env := env s; fs := fs s; errno := errno s; stdout := stdout s;
     stderr := stderr s; tmate_foreground := tmate_foreground s;
     log_level := log_level s; cfg_file := cfg_file s; api_key := v;
     session_name := session_name s;
     session_name_ro := session_name_ro s;
     authorized_keys := authorized_keys s; headless := headless s;
     global_environ := global_environ s;
     global_options := global_options s;
     global_s_options := global_s_options s;
     global_w_options := global_w_options s;
     socket_path := socket_path s |}.

Definition with_session_name (v : option string) (s : state) : state :=
  {| env := env s; fs := fs s; errno := errno s; stdout := stdout s;
     stderr := stderr s; tmate_foreground := tmate_foreground s;
     log_level := log_level s; cfg_file := cfg_file s;
     api_key := api_key s; session_name := v;
     session_name_ro := session_name_ro s;
     authorized_keys := authorized_keys s; headless := headless s;
     global_environ := global_environ s;
     global_options := global_options s;
     global_s_options := global_s_options s;
     global_w_options := global_w_options s;
     socket_path := socket_path s |}.

Definition with_session_name_ro (v : option string) (s : state) : state :=
  {| env := env s; fs := fs s; errno := errno s; stdout := stdout s;
     stderr := stderr s; tmate_foreground := tmate_foreground s;
     log_level := log_level s; cfg_file := cfg_file s;
     api_key := api_key s; session_name := session_name s;
     session_name_ro := v; authorized_keys := authorized_keys s;
     headless := headless s; global_environ := global_environ s;
     global_options := global_options s;
     global_s_options := global_s_options s;
     global_w_options := global_w_options s;
     socket_path := socket_path s |}.

Definition with_authorized_keys (v : option string) (s : state) : state :=
  {| env := env s; fs := fs s; errno := errno s; stdout := stdout s;
     stderr := stderr s; tmate_foreground := tmate_foreground s;
     log_level := log_level s; cfg_file := cfg_file s;
     api_key := api_key s; session_name := session_name s;
     session_name_ro := session_name_ro s; authorized_keys := v;
     headless := headless s; global_environ := global_environ s;
     global_options := global_options s;
     global_s_options := global_s_options s;
     global_w_options := global_w_options s;
     socket_path := socket_path s |}.

Definition with_headless (v : list headless_command) (s : state) : state :=
  {| env := env s; fs := fs s; errno := errno s; stdout := stdout s;
     stderr := stderr s; tmate_foreground := tmate_foreground s;
     log_level := log_level s; cfg_file := cfg_file s;
     api_key := api_key s; session_name := session_name s;
     session_name_ro := session_name_ro s;
     authorized_keys := authorized_keys s; headless := v;
     global_environ := global_environ s;
     global_options := global_options s;
     global_s_options := global_s_options s;
     global_w_options := global_w_options s;
     socket_path := socket_path s |}.

Definition with_global_environ (v : option (gmap string string)) (s : state) : state :=
  {| env := env s; fs := fs s; errno := errno s; stdout := stdout s;
     stderr := stderr s; tmate_foreground := tmate_foreground s;
     log_level := log_level s; cfg_file := cfg_file s;
     api_key := api_key s; session_name := session_name s;
     session_name_ro := session_name_ro s;
     authorized_keys := authorized_keys s; headless := headless s;
     global_environ := v; global_options := global_options s;
     global_s_options := global_s_options s;
     global_w_options := global_w_options s;
     socket_path := socket_path s |}.

Definition with_global_options (v : option (gmap string optval)) (s : state) : state :=
  {| env := env s; fs := fs s; errno := errno s; stdout := stdout s;
     stderr := stderr s; tmate_foreground := tmate_foreground s;
     log_level := log_level s; cfg_file := cfg_file s;
     api_key := api_key s; session_name := session_name s;
     session_name_ro := session_name_ro s;
     authorized_keys := authorized_keys s; headless := headless s;
     global_environ := global_environ s; global_options := v;
     global_s_options := global_s_options s;
     global_w_options := global_w_options s;
     socket_path := socket_path s |}.

Definition with_global_s_options (v : option (gmap string optval)) (s : state) : state :=
  {| env := env s; fs := fs s; errno := errno s; stdout := stdout s;
     stderr := stderr s; tmate_foreground := tmate_foreground s;
     log_level := log_level s; cfg_file := cfg_file s;
     api_key := api_key s; session_name := session_name s;
     session_name_ro := session_name_ro s;
     authorized_keys := authorized_keys s; headless := headless s;
     global_environ := global_environ s;
     global_options := global_options s; global_s_options := v;
     global_w_options := global_w_options s;
     socket_path := socket_path s |}.

Definition with_global_w_options (v : option (gmap string optval)) (s : state) : state :=
  {| env := env s; fs := fs s; errno := errno s; stdout := stdout s;
     stderr := stderr s; tmate_foreground := tmate_foreground s;
     log_level := log_level s; cfg_file := cfg_file s;
     api_key := api_key s; session_name := session_name s;
     session_name_ro := session_name_ro s;
     authorized_keys := authorized_keys s; headless := headless s;
     global_environ := global_environ s;
     global_options := global_options s;
     global_s_options := global_s_options s; global_w_options := v;
     socket_path := socket_path s |}.

Definition with_socket_path (v : option string) (s : state) : state :=
  {| env := env s; fs := fs s; errno := errno s; stdout := stdout s;
     stderr := stderr s; tmate_foreground := tmate_foreground s;
     log_level := log_level s; cfg_file := cfg_file s;
     api_key := api_key s; session_name := session_name s;
     session_name_ro := session_name_ro s;
     authorized_keys := authorized_keys s; headless := headless s;
     global_environ := global_environ s;
     global_options := global_options s;
     global_s_options := global_s_options s;
     global_w_options := global_w_options s; socket_path := v |}.

(** ** The monad of tmux.c: state, and [exit] *)

Inductive outcome (A : Type) : Type :=
| Ret (a : A) (s : state)
| Exit (code : Z) (s : state).

Arguments Ret {A} a s.
Arguments Exit {A} code s.

Definition M (A : Type) : Type := state -> outcome A.

Definition ret {A : Type} (a : A) : M A := fun s => Ret a s.

Definition bind {A B : Type} (m : M A) (k : A -> M B) : M B :=
  fun s =>
    match m s with
    | Ret a s' => k a s'
    | Exit code s' => Exit code s'
    end.

Definition exit {A : Type} (code : Z) : M A := fun s => Exit code s.

Definition gets {A : Type} (f : state -> A) : M A := fun s => Ret (f s) s.

Definition modify (f : state -> state) : M unit := fun s => Ret tt (f s).

#[global] Instance M_ret : MRet M := @ret.

#[global] Instance M_bind : MBind M := fun A B k m => bind m k.

(** [p == NULL || *p == '\0'] *)
Definition null_or_empty (p : option string) : bool :=
  match p with
  | None => true
  | Some s => CString.is_empty s
  end.

(** [%s] of a [char *] *)
Definition fmt_s (p : option string) : string :=
  match p with
  | None => "(null)"
  | Some s => s
  end.

(** [p != NULL] *)
Definition not_null {A : Type} (p : option A) : bool :=
  match p with
  | None => false
  | Some _ => true
  end.

(** [x & mask] used as a condition *)
Definition test_mask (x mask : Z) : bool := negb (Z.land x mask =? 0).

(** One call of [getopt] at line 268 that returns an option: the value
    returned, [optarg], and what the call itself wrote to standard error.
    [opterr] is never cleared and the option string does not start with a
    colon, so [getopt] writes a diagnostic of its own (unknown option, or
    missing argument) exactly when it returns ['?']; [diagnostic] is that
    line, and is not looked at for any other result. *)
Record getopt_result := {
  opt : ascii;
  optarg : string;
  diagnostic : string
}.

(** The local variables of [main] that the option loop assigns. *)
Record locals := {
  v_path : option string;
  v_label : option string;
  v_shellcmd : option string;
  v_flags : Z
}.

Definition set_v_path (p : option string) (l : locals) : locals :=
  {| v_path := p; v_label := v_label l; v_shellcmd := v_shellcmd l;
     v_flags := v_flags l |}.

Definition set_v_label (p : option string) (l : locals) : locals :=
  {| v_path := v_path l; v_label := p; v_shellcmd := v_shellcmd l;
     v_flags := v_flags l |}.

Definition set_v_shellcmd (p : option string) (l : locals) : locals :=
  {| v_path := v_path l; v_label := v_label l; v_shellcmd := p;
     v_flags := v_flags l |}.

Definition set_v_flags (f : Z) (l : locals) : locals :=
  {| v_path := v_path l; v_label := v_label l; v_shellcmd := v_shellcmd l;
     v_flags := f |}.

(** The call [client_main(event_init(), argc, argv, flags, shellcmd)]
    that ends [main]. *)
Record client_main_call := {
  cm_argv : list string;
  cm_flags : Z;
  cm_shellcmd : option string
}.

(** ** tmux.c *)

Section Tmux.

Variable H : tmux_h.
Variable L : libc.

(** *** libc and the rest of tmux, as [tmux.c] calls them *)

Definition getenv (name : string) : M (option string) :=
  gets (fun s => env s !! name).

Definition unsetenv (name : string) : M unit :=
  modify (fun s => with_env (delete name (env s)) s).

Definition fprintf_stderr (text : string) : M unit :=
  modify (fun s => with_stderr (stderr s ++ [text])%list s).

Definition printf (text : string) : M unit :=
  modify (fun s => with_stdout (stdout s ++ [text])%list s).

(** [errx(code, msg)] *)
Definition errx {A : Type} (code : Z) (msg : string) : M A :=
  fprintf_stderr (__progname L +:+ ": " +:+ msg +:+ CString.nl) ;;
  exit code.

(** [access(path, X_OK) == 0] *)
Definition access_X_OK (path : string) : M bool :=
  gets (fun s => access_x_ok L (fs s) path).

(** [mkdir(path, mode)]: 0, or -1 with [errno] set. *)
Definition mkdir (path : string) (mode : Z) : M Z :=
  fun s =>
    match fs s !! path with
    | Some _ => Ret (-1) (with_errno EEXIST s)
    | None =>
        match mkdir_refused L (fs s) path with
        | Some e => Ret (-1) (with_errno e s)
        | None =>
            let sb := {| st_mode := Z.lor S_IFDIR
                                      (Z.land mode (Z.lnot (umask L)));
                         st_uid := fsuid L |} in
            Ret 0 (with_fs (<[path := sb]> (fs s)) s)
        end
    end.

(** [lstat(path, &sb)]: the entry, or [NULL] for -1 with [errno] set. *)
Definition lstat (path : string) : M (option stat) :=
  fun s =>
    match fs s !! path with
    | Some sb => Ret (Some sb) s
    | None => Ret None (with_errno ENOENT s)
    end.

(** [mktemp(template)]: the template with its last six characters
    replaced, or the empty string when no name was found. *)
Definition mktemp (template : string) : M string :=
  gets (fun s =>
    match mktemp_pick L (fs s) template with
    | Some six =>
        if (String.length six =? 6)%nat
        then CString.truncate (String.length template - 6) template +:+ six
        else ""
    | None => ""
    end).

Definition log_add_level : M unit :=
  modify (fun s => with_log_level (S (log_level s)) s).

Definition set_cfg_file (path : string) : M unit :=
  modify (fun s => with_cfg_file (Some path) s).

Definition run_headless_command (argc : Z) (argv : list string)
    (flags : Z) : M unit :=
  modify (fun s =>
    with_headless
      (headless s ++ [{| hc_argc := argc; hc_argv := argv;
                         hc_flags := flags |}])%list s).

(** *** usage (lines 58-76) *)

Definition usage_text : string :=
  "Usage: " +:+ __progname L +:+ " [options] [tmux-command [flags]]" +:+ CString.nl +:+
  CString.nl +:+
  "Basic options:" +:+ CString.nl +:+
  " -n <name>    specify the session token instead of getting a random one" +:+ CString.nl +:+
  " -r <name>    same, but for the read-only token" +:+ CString.nl +:+
  " -k <key>     specify an api-key, necessary for using named sessions on tmate.io" +:+ CString.nl +:+
  " -F           set the foreground mode, useful for setting remote access" +:+ CString.nl +:+
  " -f <path>    set the config file path" +:+ CString.nl +:+
  " -S <path>    set the socket path, useful to issue commands to a running tmate instance" +:+ CString.nl +:+
  " -a <path>    limit access to ssh public keys listed in provided file" +:+ CString.nl +:+
  " -v           set verbosity (can be repeated)" +:+ CString.nl +:+
  " -V           print version" +:+ CString.nl.

Definition usage {A : Type} : M A :=
  fprintf_stderr usage_text ;;
  exit 1.

(** *** areshell (lines 107-122) *)

Definition areshell (shell : string) : bool :=
  let ptr :=
    match CString.strrchr shell "/" with
    | Some p => CString.next p
    | None => shell
    end in
  let progname := __progname L in
  let progname :=
    if CString.starts_with "-" progname then CString.next progname
    else progname in
  if CString.streq ptr progname then true else false.

(** *** checkshell (lines 95-105) *)

Definition checkshell (shell : option string) : M bool :=
  match shell with
  | None => ret false
  | Some sh =>
      if CString.is_empty sh || negb (CString.starts_with "/" sh)
      then ret false
      else if areshell sh then ret false
      else
        ok ← access_X_OK sh;
        if negb ok then ret false else ret true
  end.

(** *** getshell (lines 78-93) *)

Definition getshell : M (option string) :=
  shell ← getenv "SHELL";
  ok ← checkshell shell;
  if (ok : bool) then ret shell
  else
    match getpwuid L (getuid L) with
    | Some pw =>
        ok ← checkshell (pw_shell pw);
        if (ok : bool) then ret (pw_shell pw) else ret (Some (_PATH_BSHELL H))
    | None => ret (Some (_PATH_BSHELL H))
    end.

(** *** make_label (lines 124-178) *)

(** The directory name built by the two [xasprintf] calls of lines
    140-143. *)
Definition label_base (tmpdir : option string) : string :=
  if negb (null_or_empty tmpdir)
  then fmt_s tmpdir +:+ "/tmate-" +:+ CString.fmt_u (getuid L)
  else _PATH_TMP H +:+ "/tmate-" +:+ CString.fmt_u (getuid L).

(** [resolved] after lines 164-165. *)
Definition label_resolved (base : string) : M string :=
  gets (fun s =>
    match realpath L (fs s) base with
    | Some r => r
    | None => CString.truncate (PATH_MAX H - 1) base
    end).

Definition make_label (label : option string) : M (option string) :=
  let do_random_label := negb (not_null label) in
  let label := match label with None => "default" | Some l => l end in
  let uid := getuid L in
  s ← getenv "TMUX_TMPDIR";
  let base := label_base s in
  r ← mkdir base S_IRWXU;
  e ← gets errno;
  if negb (r =? 0) && negb (e =? EEXIST) then ret None
  else
    sb ← lstat base;
    match sb with
    | None => ret None
    | Some sb =>
        if negb (S_ISDIR (st_mode sb))
        then modify (with_errno ENOTDIR) ;; ret None
        else if negb (st_uid sb =? uid)
                || negb (Z.land (st_mode sb) S_IRWXO =? 0)
        then modify (with_errno EACCES) ;; ret None
        else
          let label := if do_random_label then "XXXXXX" else label in
          resolved ← label_resolved base;
          let path := resolved +:+ "/" +:+ label in
          path ← (if do_random_label then mktemp path else ret path);
          ret (Some path)
    end.

(** *** setblocking (lines 180-192) *)

(** The open files of the process. A descriptor number refers to an open
    file description, and [dup], [fork] and inheritance make several
    numbers refer to one description; the status flags that
    [fcntl(fd, F_GETFL)] reports belong to the description, not to the
    number. [F_SETFL] fails on some descriptions (one opened with
    [O_PATH], for instance): [setfl_refused] lists them. *)
Record files := {
  descriptors : gmap Z Z;
  status_flags : gmap Z Z;
  setfl_refused : gset Z
}.

Definition with_status_flags (m : gmap Z Z) (f : files) : files :=
  {| descriptors := descriptors f; status_flags := m;
     setfl_refused := setfl_refused f |}.

(** [fcntl(fd, F_GETFL)]: -1 on a descriptor that is not open. *)
Definition fcntl_getfl (f : files) (fd : Z) : Z :=
  match descriptors f !! fd with
  | Some d =>
      match status_flags f !! d with
      | Some mode => mode
      | None => -1
      end
  | None => -1
  end.

(** [fcntl(fd, F_SETFL, mode)]: the result, 0 or -1, and the open files
    after the call. [setblocking] passes the word that [F_GETFL] returned
    with one status bit changed, so on success the status flags of the
    description become that word. *)
Definition fcntl_setfl (f : files) (fd mode : Z) : Z * files :=
  match descriptors f !! fd with
  | Some d =>
      if bool_decide (d ∈ setfl_refused f) then (-1, f)
      else (0, with_status_flags (<[d := mode]> (status_flags f)) f)
  | None => (-1, f)
  end.

(** Line 190 does not look at the result of [F_SETFL]. *)
Definition setblocking (fd state : Z) (f : files) : files :=
  let mode := fcntl_getfl f fd in
  if negb (mode =? -1)
  then
    let mode :=
      if state =? 0 then Z.lor mode O_NONBLOCK
      else Z.land mode (Z.lnot O_NONBLOCK) in
    snd (fcntl_setfl f fd mode)
  else f.

(** *** tmate_load_cli_options (lines 215-236) *)

(** The macro [SET_OPT(name, val)], with [val] given by its getter and
    setter. *)
Definition SET_OPT (name : string) (val : state -> option string)
    (set_val : option string -> state -> state) : M unit :=
  v ← gets val;
  match v with
  | Some value =>
      run_headless_command 3 ["set-option"; name; value]
        (DEFER_ERRORS_CFG H) ;;
      modify (set_val None)
  | None => ret tt
  end.

Definition tmate_load_cli_options : M unit :=
  SET_OPT "tmate-api-key" api_key with_api_key ;;
  SET_OPT "tmate-session-name" session_name with_session_name ;;
  SET_OPT "tmate-session-name-ro" session_name_ro with_session_name_ro ;;
  SET_OPT "tmate-authorized-keys" authorized_keys with_authorized_keys.

(** *** main (lines 238-417) *)

(** Lines 245-252: the locale must be UTF-8. *)
Definition main_locale : M unit :=
  e ← gets env;
  if negb (setlocale_ctype L e "en_US.UTF-8")
     && negb (setlocale_ctype L e "C.UTF-8")
  then
    if negb (setlocale_ctype L e "")
    then errx 1 "invalid LC_ALL, LC_CTYPE or LANG"
    else
      let s := nl_langinfo_codeset L e in
      if negb (CString.strcaseeq s "UTF-8")
         && negb (CString.strcaseeq s "UTF8")
      then errx 1 ("need UTF-8 locale (LC_CTYPE) but have " +:+ s)
      else ret tt
  else ret tt.

(** Lines 257-265: the flags before the option loop. *)
Definition main_initial_flags (argv0 : string) : Z :=
  let flags :=
    if CString.starts_with "-" argv0 then CLIENT_LOGIN H else 0 in
  Z.lor flags (Z.lor (CLIENT_256COLOURS H) (CLIENT_UTF8 H)).

(** Lines 269-330: the [switch] on one result of [getopt]. *)
Definition main_switch (o : getopt_result) (l : locals) : M locals :=
  match opt o with
  | "2"%char => ret (set_v_flags (Z.lor (v_flags l) (CLIENT_256COLOURS H)) l)
  | "c"%char => ret (set_v_shellcmd (Some (optarg o)) l)
  | "C"%char =>
      if test_mask (v_flags l) (CLIENT_CONTROL H)
      then ret (set_v_flags (Z.lor (v_flags l) (CLIENT_CONTROLCONTROL H)) l)
      else ret (set_v_flags (Z.lor (v_flags l) (CLIENT_CONTROL H)) l)
  | "V"%char =>
      printf (__progname L +:+ " " +:+ VERSION H +:+ CString.nl);;
      printf ("libssh " +:+ ssh_version L +:+ CString.nl);;
      exit 0
  | "f"%char => set_cfg_file (optarg o);; ret l
  | "l"%char => ret (set_v_flags (Z.lor (v_flags l) (CLIENT_LOGIN H)) l)
  | "L"%char => ret (set_v_label (Some (optarg o)) l)
  | "q"%char => ret l
  | "S"%char => ret (set_v_path (Some (optarg o)) l)
  | "u"%char => ret (set_v_flags (Z.lor (v_flags l) (CLIENT_UTF8 H)) l)
  | "v"%char => log_add_level;; ret l
  | "F"%char =>
      modify (with_tmate_foreground 1);;
      log_add_level;;
      unsetenv "TMUX";;
      ret l
  | "k"%char => modify (with_api_key (Some (optarg o)));; ret l
  | "n"%char => modify (with_session_name (Some (optarg o)));; ret l
  | "r"%char => modify (with_session_name_ro (Some (optarg o)));; ret l
  | "a"%char => modify (with_authorized_keys (Some (optarg o)));; ret l
  | _ => usage
  end.

(** Line 268: what the call of [getopt] that returns [o] has written to
    standard error by the time it returns. *)
Definition getopt_stderr (o : getopt_result) : M unit :=
  if Ascii.eqb (opt o) "?" then fprintf_stderr (diagnostic o) else ret tt.

(** Line 268: the loop, over the calls of [getopt] that return before the
    one that returns -1. *)
Fixpoint main_getopt_loop (opts : list getopt_result) (l : locals)
    : M locals :=
  match opts with
  | [] => ret l
  | o :: opts' =>
      getopt_stderr o;;
      l' ← main_switch o l;
      main_getopt_loop opts' l'
  end.

(** Lines 351-364: the UTF-8 flag from the environment. *)
Definition main_utf8 (flags : Z) : M Z :=
  tmux ← getenv "TMUX";
  if not_null tmux then ret (Z.lor flags (CLIENT_UTF8 H))
  else
    s ← getenv "LC_ALL";
    s ← (if null_or_empty s then getenv "LC_CTYPE" else ret s);
    s ← (if null_or_empty s then getenv "LANG" else ret s);
    let s := if null_or_empty s then "" else fmt_s s in
    if not_null (CString.strcasestr s "UTF-8")
       || not_null (CString.strcasestr s "UTF8")
    then ret (Z.lor flags (CLIENT_UTF8 H))
    else ret flags.

(** Lines 368-382: the environment copy and the three option trees. *)
Definition main_options : M unit :=
  modify (fun s => with_global_environ (Some (env s)) s);;
  match getcwd L with
  | Some tmp =>
      modify (fun s =>
        with_global_environ (<["PWD" := tmp]> <$> global_environ s) s)
  | None => ret tt
  end;;
  modify (with_global_options (Some (OPTIONS_TABLE_SERVER H)));;
  modify (with_global_s_options (Some (OPTIONS_TABLE_SESSION H)));;
  shell ← getshell;
  modify (fun s =>
    with_global_s_options
      (<["default-shell" := OptString (fmt_s shell)]> <$> global_s_options s)
      s);;
  modify (with_global_w_options (Some (OPTIONS_TABLE_WINDOW H))).

(** Lines 384-394: VISUAL and EDITOR select the key tables. *)
Definition main_keys : M unit :=
  visual ← getenv "VISUAL";
  s ← (if not_null visual then ret visual else getenv "EDITOR");
  match s with
  | Some s =>
      let s :=
        match CString.strrchr s "/" with
        | Some p => CString.next p
        | None => s
        end in
      let keys :=
        if not_null (CString.strstr s "vi") then MODEKEY_VI H
        else MODEKEY_EMACS H in
      modify (fun st =>
        with_global_s_options
          (<["status-keys" := OptNumber keys]> <$> global_s_options st) st);;
      modify (fun st =>
        with_global_w_options
          (<["mode-keys" := OptNumber keys]> <$> global_w_options st) st)
  | None => ret tt
  end.

(** Lines 401-411: the socket path. *)
Definition main_socket (path label : option string) : M string :=
  path ←
    (if negb (not_null path) && negb (not_null label)
     then
       s ← getenv "TMUX";
       match s with
       | Some s =>
           if negb (CString.is_empty s) && negb (CString.starts_with "," s)
           then ret (Some (CString.truncate (CString.strcspn s ",") s))
           else ret path
       | None => ret path
       end
     else ret path);
  match path with
  | Some p => ret p
  | None =>
      made ← make_label label;
      match made with
      | Some p => ret p
      | None =>
          e ← gets errno;
          fprintf_stderr
            ("can't create socket: " +:+ strerror L e +:+ CString.nl);;
          exit 1
      end
  end.

(** Lines 245-394 of [main(argc, argv)], given [argv[0]], the results
    of the successive [getopt] calls and the arguments left from [optind]
    on: everything before the socket path. The value returned holds the
    local variables, [flags] as line 363 leaves it. [tmate_catch_sigsegv],
    [setlocale(LC_TIME)], [tzset] and [hooks_create] touch nothing of the
    state kept here. *)
Definition main_startup (argv0 : string) (opts : list getopt_result)
    (args : list string) : M locals :=
  main_locale;;
  let flags := main_initial_flags argv0 in
  l ← main_getopt_loop opts
        {| v_path := None; v_label := None; v_shellcmd := None;
           v_flags := flags |};
  (if not_null (v_shellcmd l) && negb (length args =? 0)%nat
   then usage else ret tt);;
  flags ← main_utf8 (v_flags l);
  main_options;;
  main_keys;;
  ret (set_v_flags flags l).

(** [main]. The value returned is the call of [client_main] that ends
    it. *)
Definition main (argv0 : string) (opts : list getopt_result)
    (args : list string) : M client_main_call :=
  l ← main_startup argv0 opts args;
  path ← main_socket (v_path l) (v_label l);
  modify (with_socket_path (Some path));;
  ret {| cm_argv := args; cm_flags := v_flags l;
         cm_shellcmd := v_shellcmd l |}.

End Tmux.

(** ** A concrete platform, for running the model *)

(** The values of tmux 2.x and glibc. *)
Definition linux_h : tmux_h :=
  {| CLIENT_LOGIN := 0x2;
     CLIENT_CONTROL := 0x2000;
     CLIENT_CONTROLCONTROL := 0x4000;
     CLIENT_UTF8 := 0x10000;
     CLIENT_256COLOURS := 0x20000;
     MODEKEY_EMACS := 0;
     MODEKEY_VI := 1;
     DEFER_ERRORS_CFG := 1;
     _PATH_BSHELL := "/bin/sh";
     _PATH_TMP := "/tmp";
     PATH_MAX := 4096;
     VERSION := "2.4.0";
     OPTIONS_TABLE_SERVER := ∅;
     OPTIONS_TABLE_SESSION :=
       <["status-keys" := OptNumber 0]>
         (<["default-shell" := OptString "/bin/sh"]> ∅);
     OPTIONS_TABLE_WINDOW := <["mode-keys" := OptNumber 0]> ∅ |}.

(** User 1000 on a machine where every path is executable, [realpath]
    fails, [mkdir] is never refused and [mktemp] picks the same six
    characters every time. *)
Definition demo_libc : libc :=
  {| __progname := "tmate";
     getuid := 1000;
     fsuid := 1000;
     umask := 0x12;
     setlocale_ctype := fun _ _ => true;
     nl_langinfo_codeset := fun _ => "UTF-8";
     access_x_ok := fun _ _ => true;
     getpwuid := fun _ =>
       Some {| pw_shell := Some "/bin/bash"; pw_dir := Some "/home/u" |};
     mkdir_refused := fun _ _ => None;
     realpath := fun _ _ => None;
     mktemp_pick := fun _ _ => Some "a1B2c3";
     getcwd := Some "/home/u";
     strerror := fun e => "errno " +:+ CString.fmt_u e;
     ssh_version := "0.9.0" |}.

(** The state at the entry of [main]. *)
Definition initial_state (e : gmap string string) (f : gmap string stat)
    : state :=
  {| env := e; fs := f; errno := 0; stdout := []; stderr := [];
     tmate_foreground := 0; log_level := O; cfg_file := None;
     api_key := None; session_name := None; session_name_ro := None;
     authorized_keys := None; headless := [];
     global_environ := None; global_options := None;
     global_s_options := None; global_w_options := None;
     socket_path := None |}.

(** A runtime directory of user 1000 that its group may read, write and
    search: mode 0770. *)
Definition group_dir_fs : gmap string stat :=
  <["/tmp/tmate-1000" := {| st_mode := Z.lor S_IFDIR 0x1f8;
                            st_uid := 1000 |}]> ∅.

(** The same directory owned by root, mode 0700. *)
Definition foreign_dir_fs : gmap string stat :=
  <["/tmp/tmate-1000" := {| st_mode := Z.lor S_IFDIR S_IRWXU;
                            st_uid := 0 |}]> ∅.

(** An environment inherited from a running session. *)
Definition inherited_env : gmap string string :=
  <["TMUX" := "/tmp/tmate-1000/work,4242,0"]> (<["LANG" := "C"]> ∅).

(** An environment with an editor and a locale. *)
Definition vim_env : gmap string string :=
  <["VISUAL" := "/usr/bin/vim"]>
    (<["LANG" := "en_US.utf8"]> (<["SHELL" := "/bin/zsh"]> ∅)).

Definition getopt (c : ascii) (arg : string) : getopt_result :=
  {| opt := c; optarg := arg; diagnostic := "" |}.


(** ** Vocabulary of the specification *)

(** The flag word [flags] contains every bit of [f]. *)
Definition has_flag (flags f : Z) : Prop := Z.land flags f = f.

(** [s] contains [needle] as a substring. *)
Definition contains (s needle : string) : Prop :=
  exists pre post, s = pre +:+ needle +:+ post.

(** [s] contains [needle] as a substring, letter case ignored. *)
Definition contains_nocase (s needle : string) : Prop :=
  exists pre mid post,
    s = pre +:+ mid +:+ post /\ CString.lower mid = CString.lower needle.

(** [b] is the last path component of [s]: what follows the last slash,
    or all of [s] when it has none. *)
Definition last_component (s b : string) : Prop :=
  CString.mem "/" b = false /\
  (s = b \/ exists dir, s = dir +:+ "/" +:+ b).

(** [p] is the part of [v] before its first comma (all of [v] when it
    has none). *)
Definition before_first_comma (v p : string) : Prop :=
  CString.mem "," p = false /\
  (v = p \/ exists rest, v = p +:+ "," +:+ rest).

(** The program name with one leading dash removed. *)
Definition strip_dash (name : string) : string :=
  match name with
  | String "-" rest => rest
  | _ => name
  end.

(** The first value of the list that is set and not empty, or the empty
    string. *)
Fixpoint first_nonempty (vals : list (option string)) : string :=
  match vals with
  | [] => ""
  | Some (String a v) :: _ => String a v
  | _ :: vals' => first_nonempty vals'
  end.

(** The argument of the last occurrence of option [c]. *)
Fixpoint last_optarg (c : ascii) (opts : list getopt_result)
    : option string :=
  match opts with
  | [] => None
  | o :: opts' =>
      match last_optarg c opts' with
      | Some a => Some a
      | None => if Ascii.eqb (opt o) c then Some (optarg o) else None
      end
  end.

(** The commands [tmate_load_cli_options] is expected to issue for the
    four captured values, in the order of the specification. *)
Definition set_option_command (H : tmux_h) (name : string)
    (val : option string) : list headless_command :=
  match val with
  | Some v => [{| hc_argc := 3; hc_argv := ["set-option"; name; v];
                  hc_flags := DEFER_ERRORS_CFG H |}]
  | None => []
  end.

Definition deferred_commands (H : tmux_h) (k n r a : option string)
    : list headless_command :=
  (set_option_command H "tmate-api-key" k
   ++ set_option_command H "tmate-session-name" n
   ++ set_option_command H "tmate-session-name-ro" r
   ++ set_option_command H "tmate-authorized-keys" a)%list.

(** The per-user runtime directory that [make_label] uses in state
    [s]. *)
Definition runtime_dir (H : tmux_h) (L : libc) (s : state) : string :=
  label_base H L (env s !! "TMUX_TMPDIR").

(** [TMUX] is set, not empty and does not begin with a comma. *)
Definition tmux_usable (s : state) : bool :=
  match env s !! "TMUX" with
  | Some v => negb (CString.is_empty v) && negb (CString.starts_with "," v)
  | None => false
  end.

(** The canonical name of a directory, with the fallback of the
    specification: the name itself when [realpath] fails. *)
Definition canonical (L : libc) (f : gmap string stat) (dir : string)
    : string :=
  match realpath L f dir with
  | Some r => r
  | None => dir
  end.

(** [resolved] of lines 164-165: the canonical name, or the copy that
    [strlcpy] makes into a buffer of [PATH_MAX] bytes. *)
Definition resolved_dir (H : tmux_h) (L : libc) (f : gmap string stat)
    (dir : string) : string :=
  match realpath L f dir with
  | Some r => r
  | None => CString.truncate (PATH_MAX H - 1) dir
  end.

(** What [lstat] reports for a directory that [mkdir(dir, S_IRWXU)] has
    just created. *)
Definition created_dir (L : libc) : stat :=
  {| st_mode := Z.lor S_IFDIR (Z.land S_IRWXU (Z.lnot (umask L)));
     st_uid := fsuid L |}.

(** The line that [main] prints when [make_label] fails with [e]. *)
Definition cant_create_socket (L : libc) (e : Z) : string :=
  "can't create socket: " +:+ strerror L e +:+ CString.nl.

(** Read and write permission for the group and for others. *)
Definition group_other_rw : Z := 0x36.

(** The runtime-directory check as the specification words it: an
    existing directory that another user owns, or that the group or
    others may read or write, makes [make_label] fail with [EACCES]. *)
Definition runtime_dir_check_as_stated : Prop :=
  forall (H : tmux_h) (L : libc) (label : option string) (s : state)
         (sb : stat),
    fs s !! runtime_dir H L s = Some sb ->
    S_ISDIR (st_mode sb) = true ->
    st_uid sb <> getuid L \/ Z.land (st_mode sb) group_other_rw <> 0 ->
    exists s', make_label H L label s = Ret None s' /\ errno s' = EACCES.

(** The label-derived path as the specification words it: the canonical
    runtime directory, a slash, and the label, which is "default" when
    none was given. *)
Definition label_path_as_stated : Prop :=
  forall (H : tmux_h) (L : libc) (label : option string) (s s' : state)
         (p : string),
    make_label H L label s = Ret (Some p) s' ->
    p = canonical L (fs s') (runtime_dir H L s) +:+ "/"
        +:+ match label with Some l => l | None => "default" end.

(** What the option loop leaves alone: everything but the captured
    options, the verbosity, the configuration file, the foreground flag
    and, with [-F], the variable [TMUX]. *)
Definition loop_frame (s s' : state) : Prop :=
  fs s' = fs s /\ errno s' = errno s /\ stderr s' = stderr s
  /\ global_environ s' = global_environ s
  /\ global_options s' = global_options s
  /\ global_s_options s' = global_s_options s
  /\ global_w_options s' = global_w_options s
  /\ socket_path s' = socket_path s
  /\ headless s' = headless s
  /\ (forall k, k <> "TMUX" -> env s' !! k = env s !! k)
  /\ (forall v, env s' !! "TMUX" = Some v -> env s !! "TMUX" = Some v).

(** The options without [-2] and [-u]. *)
Definition without_2u (opts : list getopt_result) : list getopt_result :=
  List.filter
    (fun o => negb (Ascii.eqb (opt o) "2" || Ascii.eqb (opt o) "u")) opts.

(** The value that lines 385-387 inspect. *)
Definition inspected_editor (e : gmap string string) : option string :=
  match e !! "VISUAL" with
  | Some v => Some v
  | None => e !! "EDITOR"
  end.

(** An option of a tree that may not exist yet. *)
Definition tree_lookup (t : option (gmap string optval)) (name : string)
    : option optval :=
  match t with
  | Some m => m !! name
  | None => None
  end.

(** The answers of [checkshell] and [getshell] as functions of the
    environment and the file system they read. *)
Definition checkshell_value (L : libc) (f : gmap string stat)
    (shell : option string) : bool :=
  match shell with
  | None => false
  | Some sh =>
      negb (CString.is_empty sh || negb (CString.starts_with "/" sh))
      && negb (areshell L sh) && access_x_ok L f sh
  end.

Definition getshell_value (H : tmux_h) (L : libc) (e : gmap string string)
    (f : gmap string stat) : option string :=
  if checkshell_value L f (e !! "SHELL") then e !! "SHELL"
  else
    match getpwuid L (getuid L) with
    | Some pw =>
        if checkshell_value L f (pw_shell pw) then pw_shell pw
        else Some (_PATH_BSHELL H)
    | None => Some (_PATH_BSHELL H)
    end.

(** How many times option [c] occurs. *)
Fixpoint count_opt (c : ascii) (opts : list getopt_result) : nat :=
  match opts with
  | [] => O
  | o :: opts' =>
      ((if Ascii.eqb (opt o) c then 1 else 0) + count_opt c opts')%nat
  end.

(** The option letters that have a [case] which goes on with the loop. *)
Definition continuing_options : string := "2cCflLqSuvFknra".

(** The environment after the option loop. *)
Definition env_after (opts : list getopt_result) (e : gmap string string)
    : gmap string string :=
  if (0 <? count_opt "F" opts)%nat then delete "TMUX" e else e.

(** The two lines that [-V] prints. *)
Definition version_lines (H : tmux_h) (L : libc) : list string :=
  [__progname L +:+ " " +:+ VERSION H +:+ CString.nl;
   "libssh " +:+ ssh_version L +:+ CString.nl].

(** The locale of lines 245-252 is acceptable. *)
Definition locale_ok (L : libc) (e : gmap string string) : bool :=
  setlocale_ctype L e "en_US.UTF-8"
  || setlocale_ctype L e "C.UTF-8"
  || (setlocale_ctype L e ""
      && (CString.strcaseeq (nl_langinfo_codeset L e) "UTF-8"
          || CString.strcaseeq (nl_langinfo_codeset L e) "UTF8")).

(** Descriptors 0 to 2 of one terminal, opened read-write and sharing one
    open file description; a socket that is already non-blocking; and a
    directory opened with [O_PATH], on which [F_SETFL] fails. *)
Definition demo_fds : files :=
  {| descriptors :=
       <[0 := 100]> (<[1 := 100]> (<[2 := 100]> (<[5 := 101]>
         (<[6 := 102]> ∅))));
     status_flags :=
       <[100 := 0x2]> (<[101 := 0x802]> (<[102 := 0x200000]> ∅));
     setfl_refused := {[ 102 ]} |}.


(** A platform with a Latin-1 locale only. *)
Definition latin1_libc : libc :=
  {| __progname := "tmate";
     getuid := 1000;
     fsuid := 1000;
     umask := 0x12;
     setlocale_ctype := fun _ name => String.eqb name "";
     nl_langinfo_codeset := fun _ => "ISO-8859-1";
     access_x_ok := fun _ _ => true;
     getpwuid := fun _ => None;
     mkdir_refused := fun _ _ => Some 30;
     realpath := fun _ _ => None;
     mktemp_pick := fun _ _ => None;
     getcwd := None;
     strerror := fun e => "errno " +:+ CString.fmt_u e;
     ssh_version := "0.9.0" |}.

(** A platform where [mkdir] is refused with [EROFS] (30) and nothing is
    executable. *)
Definition readonly_libc : libc :=
  {| __progname := "tmate";
     getuid := 1000;
     fsuid := 1000;
     umask := 0x12;
     setlocale_ctype := fun _ _ => true;
     nl_langinfo_codeset := fun _ => "UTF-8";
     access_x_ok := fun _ _ => false;
     getpwuid := fun _ => None;
     mkdir_refused := fun _ _ => Some 30;
     realpath := fun _ _ => None;
     mktemp_pick := fun _ _ => None;
     getcwd := None;
     strerror := fun e => "errno " +:+ CString.fmt_u e;
     ssh_version := "0.9.0" |}.

(** A regular file where the runtime directory should be. *)
Definition file_in_the_way_fs : gmap string stat :=
  <["/tmp/tmate-1000" := {| st_mode := Z.lor 0x8000 0x1a4;
                            st_uid := 1000 |}]> ∅.

(** Two states that differ at most in the file system and in [errno]. *)
Definition same_but_fs_errno (s s' : state) : Prop :=
  env s' = env s /\ stdout s' = stdout s /\ stderr s' = stderr s
  /\ tmate_foreground s' = tmate_foreground s /\ log_level s' = log_level s
  /\ cfg_file s' = cfg_file s /\ api_key s' = api_key s
  /\ session_name s' = session_name s
  /\ session_name_ro s' = session_name_ro s
  /\ authorized_keys s' = authorized_keys s /\ headless s' = headless s
  /\ global_environ s' = global_environ s
  /\ global_options s' = global_options s
  /\ global_s_options s' = global_s_options s
  /\ global_w_options s' = global_w_options s
  /\ socket_path s' = socket_path s.

(** Two states that differ at most in the environment copy and in the
    three option trees. *)
Definition same_but_trees (s s' : state) : Prop :=
  env s' = env s /\ fs s' = fs s /\ errno s' = errno s
  /\ stdout s' = stdout s /\ stderr s' = stderr s
  /\ tmate_foreground s' = tmate_foreground s /\ log_level s' = log_level s
  /\ cfg_file s' = cfg_file s /\ api_key s' = api_key s
  /\ session_name s' = session_name s
  /\ session_name_ro s' = session_name_ro s
  /\ authorized_keys s' = authorized_keys s /\ headless s' = headless s
  /\ socket_path s' = socket_path s.

(** The environment copy of lines 368-372. *)
Definition environ_copy (L : libc) (e : gmap string string)
    : gmap string string :=
  match getcwd L with
  | Some tmp => <["PWD" := tmp]> e
  | None => e
  end.

(** The local variables of [main] before the option loop. *)
Definition initial_locals (H : tmux_h) (argv0 : string) : locals :=
  {| v_path := None; v_label := None; v_shellcmd := None;
     v_flags := main_initial_flags H argv0 |}.

(** The final state and the returned value of a run. *)
Definition final_state {A : Type} (o : outcome A) : state :=
  match o with
  | Ret _ s => s
  | Exit _ s => s
  end.


(** ** C strings: the functions meet their contracts *)

Section CStringFacts.

Import CString.

Lemma append_nil_r (s : string) : s +:+ "" = s.
Proof. induction s as [|a s IH]; simpl; [reflexivity | now f_equal]. Qed.

Lemma append_assoc (a b c : string) : (a +:+ b) +:+ c = a +:+ (b +:+ c).
Proof. induction a as [|x a IH]; simpl; [reflexivity | now f_equal]. Qed.

Lemma mem_append (c : ascii) (a b : string) :
  mem c (a +:+ b) = mem c a || mem c b.
Proof.
  induction a as [|x a IH]; simpl; [reflexivity |].
  rewrite IH. now rewrite orb_assoc.
Qed.

Lemma strrchr_absent (s : string) (c : ascii) :
  mem c s = false -> strrchr s c = None.
Proof.
  induction s as [|a s IH]; simpl; [reflexivity |].
  intros Hm. apply orb_false_iff in Hm as [Ha Hs].
  rewrite (IH Hs), Ha. reflexivity.
Qed.

Lemma strrchr_last (pre rest : string) (c : ascii) :
  mem c rest = false ->
  strrchr (pre +:+ String c rest) c = Some (String c rest).
Proof.
  intros Hm. induction pre as [|a pre IH]; simpl.
  - rewrite (strrchr_absent _ _ Hm), Ascii.eqb_refl. reflexivity.
  - simpl in IH. rewrite IH. reflexivity.
Qed.

(** The expression of [areshell] and of [main] for the text after the
    last slash computes the last path component. *)
Lemma strrchr_last_component (s b : string) :
  last_component s b ->
  match strrchr s "/" with
  | Some p => next p
  | None => s
  end = b.
Proof.
  intros [Hb [-> | [dir ->]]].
  - now rewrite (strrchr_absent _ _ Hb).
  - change ("/" +:+ b) with (String "/" b).
    now rewrite (strrchr_last dir b "/" Hb).
Qed.

Lemma last_component_exists (s : string) :
  last_component s
    (match strrchr s "/" with
     | Some p => next p
     | None => s
     end).
Proof.
  induction s as [|a s IH].
  - simpl. split; [reflexivity | now left].
  - simpl. destruct (strrchr s "/") as [r|] eqn:Hr.
    + destruct IH as [Hm [Heq | [dir Heq]]].
      * split; [exact Hm |]. right. exists (String a ""). simpl.
        (* s = next r and r is a suffix of s that starts with a slash *)
        exfalso. clear a. rewrite <- Heq in Hm.
        assert (Hin : mem "/" s = true).
        { clear Heq Hm. revert r Hr.
          induction s as [|x s IHs]; simpl; intros r Hr; [discriminate |].
          destruct (strrchr s "/") as [r'|] eqn:Hr'.
          - rewrite (IHs r' eq_refl). apply orb_true_r.
          - destruct (Ascii.eqb x "/"); [reflexivity | discriminate]. }
        congruence.
      * split; [exact Hm |]. right. exists (String a dir).
        simpl. f_equal. exact Heq.
    + destruct (Ascii.eqb a "/") eqn:Ha.
      * apply Ascii.eqb_eq in Ha as ->. simpl.
        destruct IH as [Hm _]. split; [exact Hm |].
        right. exists "". reflexivity.
      * destruct IH as [Hm _]. split.
        -- simpl. now rewrite Ha, Hm.
        -- now left.
Qed.

Lemma hasprefix_spec (n h : string) :
  hasprefix n h = true <-> exists post, h = n +:+ post.
Proof.
  revert h. induction n as [|a n IH]; intros h; simpl.
  - split; [intros _; now exists h | reflexivity].
  - destruct h as [|b h].
    + split; [discriminate | intros [post Hp]; discriminate].
    + rewrite andb_true_iff, Ascii.eqb_eq, IH. split.
      * intros [-> [post ->]]. now exists post.
      * intros [post Hp]. injection Hp as -> ->. split; [reflexivity | now exists post].
Qed.

Lemma strstr_spec (s n : string) :
  not_null (strstr s n) = true <-> contains s n.
Proof.
  induction s as [|a s IH].
  - simpl. destruct (hasprefix n "") eqn:Hp.
    + split; [intros _ | reflexivity].
      apply hasprefix_spec in Hp as [post Hp]. now exists "", post.
    + split; [discriminate |].
      intros [pre [post Hs]]. destruct pre; [| discriminate].
      simpl in Hs. assert (hasprefix n "" = true) as Hc
        by (apply hasprefix_spec; now exists post).
      congruence.
  - simpl. destruct (hasprefix n (String a s)) eqn:Hp.
    + split; [intros _ | reflexivity].
      apply hasprefix_spec in Hp as [post Hp]. now exists "", post.
    + rewrite IH. split.
      * intros [pre [post ->]]. now exists (String a pre), post.
      * intros [pre [post Hs]]. destruct pre as [|x pre].
        -- simpl in Hs.
           assert (hasprefix n (String a s) = true) as Hc
             by (apply hasprefix_spec; now exists post).
           congruence.
        -- simpl in Hs. exists pre, post. congruence.
Qed.

Lemma caseprefix_spec (n h : string) :
  caseprefix n h = true <->
  exists mid post, h = mid +:+ post /\ lower mid = lower n.
Proof.
  revert h. induction n as [|a n IH]; intros h; simpl.
  - split; [intros _; now exists "", h | reflexivity].
  - destruct h as [|b h].
    + split; [discriminate |].
      intros (mid & post & Hh & Hl). destruct mid; discriminate.
    + rewrite andb_true_iff, Ascii.eqb_eq, IH. split.
      * intros [Hab (mid & post & -> & Hl)].
        exists (String b mid), post. simpl. split; [reflexivity | congruence].
      * intros (mid & post & Hh & Hl). destruct mid as [|x mid]; [discriminate |].
        simpl in Hh, Hl. injection Hh as -> ->. injection Hl as Hx Hl.
        split; [congruence | now exists mid, post].
Qed.

Lemma strcasestr_spec (s n : string) :
  not_null (strcasestr s n) = true <-> contains_nocase s n.
Proof.
  induction s as [|a s IH].
  - simpl. destruct (caseprefix n "") eqn:Hp.
    + split; [intros _ | reflexivity].
      apply caseprefix_spec in Hp as (mid & post & Hh & Hl).
      now exists "", mid, post.
    + split; [discriminate |].
      intros (pre & mid & post & Hs & Hl). destruct pre; [| discriminate].
      simpl in Hs. assert (caseprefix n "" = true) as Hc
        by (apply caseprefix_spec; now exists mid, post).
      congruence.
  - simpl. destruct (caseprefix n (String a s)) eqn:Hp.
    + split; [intros _ | reflexivity].
      apply caseprefix_spec in Hp as (mid & post & Hh & Hl).
      now exists "", mid, post.
    + rewrite IH. split.
      * intros (pre & mid & post & -> & Hl). now exists (String a pre), mid, post.
      * intros (pre & mid & post & Hs & Hl). destruct pre as [|x pre].
        -- simpl in Hs.
           assert (caseprefix n (String a s) = true) as Hc
             by (apply caseprefix_spec; now exists mid, post).
           congruence.
        -- simpl in Hs. exists pre, mid, post. split; congruence.
Qed.

Lemma truncate_strcspn_comma (v : string) :
  before_first_comma v (truncate (strcspn v ",") v).
Proof.
  induction v as [|a v IH].
  - split; [reflexivity | now left].
  - simpl. rewrite orb_false_r. destruct (Ascii.eqb "," a) eqn:Ha.
    + apply Ascii.eqb_eq in Ha as <-. simpl.
      split; [reflexivity |]. right. now exists v.
    + simpl. destruct IH as [Hm Hv]. split.
      * simpl. rewrite Ascii.eqb_sym, Ha. exact Hm.
      * destruct Hv as [Hv | [rest Hv]].
        -- left. congruence.
        -- right. exists rest. simpl. f_equal. exact Hv.
Qed.

Lemma strcspn_before_first_comma (v p : string) :
  before_first_comma v p -> truncate (strcspn v ",") v = p.
Proof.
  intros [Hm [-> | [rest ->]]].
  - induction p as [|a p IH]; simpl in *; [reflexivity |].
    apply orb_false_iff in Hm as [Ha Hp].
    rewrite orb_false_r, Ascii.eqb_sym, Ha. simpl. f_equal. auto.
  - induction p as [|a p IH]; simpl in *.
    + reflexivity.
    + apply orb_false_iff in Hm as [Ha Hp].
      rewrite orb_false_r, Ascii.eqb_sym, Ha. simpl. f_equal. auto.
Qed.

Lemma truncate_all (n : nat) (s : string) :
  (String.length s <= n)%nat -> truncate n s = s.
Proof.
  revert n. induction s as [|a s IH]; intros n Hn.
  - destruct n; reflexivity.
  - destruct n as [|n]; simpl in *; [lia |].
    rewrite IH; [reflexivity | lia].
Qed.

End CStringFacts.

(** ** Flag words *)

Lemma has_flag_lor_r (x f : Z) : has_flag (Z.lor x f) f.
Proof.
  unfold has_flag. apply Z.bits_inj. intros n.
  rewrite Z.land_spec, Z.lor_spec.
  destruct (Z.testbit x n), (Z.testbit f n); reflexivity.
Qed.

Lemma has_flag_bits (x f : Z) :
  has_flag x f -> forall n, Z.testbit f n = true -> Z.testbit x n = true.
Proof.
  unfold has_flag. intros Hx n Hf.
  rewrite <- Hx, Z.land_spec in Hf. now apply andb_true_iff in Hf.
Qed.

Lemma has_flag_lor_l (x g f : Z) : has_flag x f -> has_flag (Z.lor x g) f.
Proof.
  intros Hx. unfold has_flag. apply Z.bits_inj. intros n.
  rewrite Z.land_spec, Z.lor_spec.
  destruct (Z.testbit f n) eqn:Hf; [| apply andb_false_r].
  now rewrite (has_flag_bits x f Hx n Hf).
Qed.

Lemma has_flag_lor_idem (x f : Z) : has_flag x f -> Z.lor x f = x.
Proof.
  intros Hx. apply Z.bits_inj. intros n. rewrite Z.lor_spec.
  destruct (Z.testbit f n) eqn:Hf; [| apply orb_false_r].
  now rewrite (has_flag_bits x f Hx n Hf).
Qed.

(** ** Properties of tmux.c *)

#[local] Arguments checkshell : simpl never.
#[local] Arguments getshell : simpl never.
#[local] Arguments make_label : simpl never.

Ltac run :=
  unfold mbind, M_bind, mret, M_ret, bind, ret, gets, modify, exit;
  simpl.

(** Normalises a state built with the setters. *)
Ltac state_simpl :=
  cbn beta iota delta
      [with_env with_fs with_errno with_stdout with_stderr
       with_tmate_foreground with_log_level with_cfg_file with_api_key
       with_session_name with_session_name_ro with_authorized_keys
       with_headless with_global_environ with_global_options
       with_global_s_options with_global_w_options with_socket_path env
       fs errno stdout stderr tmate_foreground log_level cfg_file
       api_key session_name session_name_ro authorized_keys headless
       global_environ global_options global_s_options global_w_options
       socket_path].

Section Properties.

Variable H : tmux_h.
Variable L : libc.

Import CString.

(** *** Shell resolution *)

Lemma areshell_strip_dash (sh b : string) :
  last_component sh b ->
  areshell L sh = true <-> b = strip_dash (__progname L).
Proof.
  intros Hb. unfold areshell. rewrite (strrchr_last_component sh b Hb).
  assert ((if starts_with "-" (__progname L) then next (__progname L)
           else __progname L) = strip_dash (__progname L)) as ->.
  { unfold strip_dash, starts_with, next.
    destruct (__progname L) as [|c p]; [reflexivity |].
    destruct (Ascii.eqb c "-") eqn:Hc.
    - apply Ascii.eqb_eq in Hc as ->. reflexivity.
    - destruct c as [[] [] [] [] [] [] [] []]; try reflexivity.
      discriminate Hc. }
  unfold streq. destruct (String.eqb b (strip_dash (__progname L))) eqn:He.
  - apply String.eqb_eq in He. tauto.
  - apply String.eqb_neq in He. split; [discriminate | tauto].
Qed.

Lemma checkshell_pure (shell : option string) (s : state) :
  exists b, checkshell L shell s = Ret b s.
Proof.
  unfold checkshell. destruct shell as [sh|]; [| now exists false].
  destruct (is_empty sh || negb (starts_with "/" sh)); [now exists false |].
  destruct (areshell L sh); [now exists false |].
  unfold access_X_OK. run.
  destruct (access_x_ok L (fs s) sh); [now exists true | now exists false].
Qed.

(** C5. [checkshell] rejects a null pointer, the empty string, a path
    that does not begin with a slash, a path whose last component is the
    program's name without its leading dash (whether or not [__progname]
    carries that dash), and a path that [access(X_OK)] refuses; it
    accepts every path that begins with a slash, is executable and whose
    last component is not that name. *)
Theorem checkshell_rejects_and_accepts (s : state) :
  checkshell L None s = Ret false s
  /\ checkshell L (Some "") s = Ret false s
  /\ (forall sh, starts_with "/" sh = false ->
        checkshell L (Some sh) s = Ret false s)
  /\ (forall sh b, last_component sh b -> b = strip_dash (__progname L) ->
        checkshell L (Some sh) s = Ret false s)
  /\ (forall sh name, last_component sh name ->
        __progname L = String "-" name \/
        (__progname L = name /\ starts_with "-" name = false) ->
        checkshell L (Some sh) s = Ret false s)
  /\ (forall sh, access_x_ok L (fs s) sh = false ->
        checkshell L (Some sh) s = Ret false s)
  /\ (forall sh b, starts_with "/" sh = true -> last_component sh b ->
        b <> strip_dash (__progname L) ->
        access_x_ok L (fs s) sh = true ->
        checkshell L (Some sh) s = Ret true s).
Proof.
  assert (Hself : forall sh b, last_component sh b ->
            b = strip_dash (__progname L) ->
            checkshell L (Some sh) s = Ret false s).
  { intros sh b Hb Hn. unfold checkshell.
    destruct (is_empty sh || negb (starts_with "/" sh)); [reflexivity |].
    apply (areshell_strip_dash sh b Hb) in Hn. now rewrite Hn. }
  repeat split.
  - intros sh Hs. unfold checkshell. rewrite Hs.
    now rewrite orb_true_r.
  - exact Hself.
  - intros sh name Hb [Hp | [Hp Hd]]; apply (Hself sh name Hb); rewrite Hp.
    + reflexivity.
    + destruct name as [|c n]; [reflexivity |]. simpl in *.
      destruct c as [[] [] [] [] [] [] [] []]; try reflexivity.
      discriminate Hd.
  - intros sh Ha. unfold checkshell.
    destruct (is_empty sh || negb (starts_with "/" sh)); [reflexivity |].
    destruct (areshell L sh); [reflexivity |].
    unfold access_X_OK. run. now rewrite Ha.
  - intros sh b Hs Hb Hn Ha. unfold checkshell.
    assert (is_empty sh = false) as -> by (destruct sh; [discriminate | reflexivity]).
    rewrite Hs. simpl.
    destruct (areshell L sh) eqn:Hare.
    + apply (areshell_strip_dash sh b Hb) in Hare. contradiction.
    + unfold access_X_OK. run. now rewrite Ha.
Qed.

Lemma checkshell_run (shell : option string) (s : state) :
  checkshell L shell s = Ret (checkshell_value L (fs s) shell) s.
Proof.
  unfold checkshell, checkshell_value. destruct shell as [sh|]; [| reflexivity].
  destruct (is_empty sh || negb (starts_with "/" sh)); [reflexivity |].
  destruct (areshell L sh); [reflexivity |].
  unfold access_X_OK. run. now destruct (access_x_ok L (fs s) sh).
Qed.

Lemma getshell_run (s : state) :
  getshell H L s = Ret (getshell_value H L (env s) (fs s)) s.
Proof.
  unfold getshell, getshell_value, getenv. run. rewrite checkshell_run.
  destruct (checkshell_value L (fs s) (env s !! "SHELL")); [reflexivity |].
  destruct (getpwuid L (getuid L)) as [pw|]; [| reflexivity].
  rewrite checkshell_run.
  now destruct (checkshell_value L (fs s) (pw_shell pw)).
Qed.

Lemma getshell_pure (s : state) :
  exists r, getshell H L s = Ret (Some r) s.
Proof.
  unfold getshell, getenv. run.
  destruct (checkshell_pure (env s !! "SHELL") s) as [b Hb]. rewrite Hb.
  destruct b.
  - destruct (env s !! "SHELL") as [sh|] eqn:He; [now exists sh |].
    discriminate Hb.
  - destruct (getpwuid L (getuid L)) as [pw|]; [| now eexists].
    destruct (checkshell_pure (pw_shell pw) s) as [b' Hb']. rewrite Hb'.
    destruct b'; [| now eexists].
    destruct (pw_shell pw) as [sh|]; [now exists sh | discriminate Hb'].
Qed.

(** C6. [getshell] returns [SHELL] when it passes [checkshell]; else the
    login shell of the user database when there is an entry and it passes
    [checkshell]; else [_PATH_BSHELL]. It returns in the state it was
    called in. *)
Theorem getshell_precedence (s : state) :
  (forall sh, env s !! "SHELL" = Some sh ->
     checkshell L (Some sh) s = Ret true s ->
     getshell H L s = Ret (Some sh) s)
  /\ (forall pw sh, checkshell L (env s !! "SHELL") s = Ret false s ->
        getpwuid L (getuid L) = Some pw -> pw_shell pw = Some sh ->
        checkshell L (Some sh) s = Ret true s ->
        getshell H L s = Ret (Some sh) s)
  /\ (checkshell L (env s !! "SHELL") s = Ret false s ->
      (getpwuid L (getuid L) = None \/
       exists pw, getpwuid L (getuid L) = Some pw /\
                  checkshell L (pw_shell pw) s = Ret false s) ->
      getshell H L s = Ret (Some (_PATH_BSHELL H)) s)
  /\ (exists r, getshell H L s = Ret (Some r) s).
Proof.
  repeat split.
  - intros sh He Hc. unfold getshell, getenv. run. rewrite He, Hc. reflexivity.
  - intros pw sh Hc Hpw Hsh Hc'. unfold getshell, getenv. run.
    rewrite Hc, Hpw, Hsh, Hc'. reflexivity.
  - intros Hc [Hpw | [pw [Hpw Hc']]]; unfold getshell, getenv; run;
      rewrite Hc, Hpw; [reflexivity |]. now rewrite Hc'.
  - apply getshell_pure.
Qed.

(** *** Deferred options *)

Lemma SET_OPT_run (name : string) (val : state -> option string)
    (set_val : option string -> state -> state) (s : state) :
  SET_OPT H name val set_val s =
  match val s with
  | Some v =>
      Ret tt (set_val None
                (with_headless
                   (headless s ++ set_option_command H name (Some v))%list s))
  | None => Ret tt s
  end.
Proof. unfold SET_OPT, run_headless_command. run. now destruct (val s). Qed.

(** What one [SET_OPT] leaves alone. *)
Ltac set_opt_step :=
  rewrite SET_OPT_run;
  match goal with
  | |- context [match ?v ?s with _ => _ end] =>
      destruct (v s) eqn:Hv; eexists; (split; [reflexivity |]); state_simpl;
      cbn [set_option_command]; rewrite ?List.app_nil_r; repeat split;
      auto
  end.

Lemma SET_OPT_api_key (s : state) :
  exists s1,
    SET_OPT H "tmate-api-key" api_key with_api_key s = Ret tt s1
    /\ headless s1 =
         (headless s ++ set_option_command H "tmate-api-key" (api_key s))%list
    /\ api_key s1 = None /\ session_name s1 = session_name s
    /\ session_name_ro s1 = session_name_ro s
    /\ authorized_keys s1 = authorized_keys s
    /\ env s1 = env s /\ fs s1 = fs s
    /\ stdout s1 = stdout s /\ stderr s1 = stderr s.
Proof. set_opt_step. Qed.

Lemma SET_OPT_session_name (s : state) :
  exists s1,
    SET_OPT H "tmate-session-name" session_name with_session_name s
      = Ret tt s1
    /\ headless s1 =
         (headless s ++
          set_option_command H "tmate-session-name" (session_name s))%list
    /\ api_key s1 = api_key s /\ session_name s1 = None
    /\ session_name_ro s1 = session_name_ro s
    /\ authorized_keys s1 = authorized_keys s
    /\ env s1 = env s /\ fs s1 = fs s
    /\ stdout s1 = stdout s /\ stderr s1 = stderr s.
Proof. set_opt_step. Qed.

Lemma SET_OPT_session_name_ro (s : state) :
  exists s1,
    SET_OPT H "tmate-session-name-ro" session_name_ro with_session_name_ro s
      = Ret tt s1
    /\ headless s1 =
         (headless s ++
          set_option_command H "tmate-session-name-ro" (session_name_ro s))%list
    /\ api_key s1 = api_key s /\ session_name s1 = session_name s
    /\ session_name_ro s1 = None
    /\ authorized_keys s1 = authorized_keys s
    /\ env s1 = env s /\ fs s1 = fs s
    /\ stdout s1 = stdout s /\ stderr s1 = stderr s.
Proof. set_opt_step. Qed.

Lemma SET_OPT_authorized_keys (s : state) :
  exists s1,
    SET_OPT H "tmate-authorized-keys" authorized_keys with_authorized_keys s
      = Ret tt s1
    /\ headless s1 =
         (headless s ++
          set_option_command H "tmate-authorized-keys" (authorized_keys s))%list
    /\ api_key s1 = api_key s /\ session_name s1 = session_name s
    /\ session_name_ro s1 = session_name_ro s
    /\ authorized_keys s1 = None
    /\ env s1 = env s /\ fs s1 = fs s
    /\ stdout s1 = stdout s /\ stderr s1 = stderr s.
Proof. set_opt_step. Qed.

Lemma tmate_load_cli_options_empty (s : state) :
  api_key s = None -> session_name s = None ->
  session_name_ro s = None -> authorized_keys s = None ->
  tmate_load_cli_options H s = Ret tt s.
Proof.
  intros Hk Hn Hr Ha. unfold tmate_load_cli_options. run.
  rewrite SET_OPT_run, Hk. cbv beta iota.
  rewrite SET_OPT_run, Hn. cbv beta iota.
  rewrite SET_OPT_run, Hr. cbv beta iota.
  now rewrite SET_OPT_run, Ha.
Qed.

(** C4. [tmate_load_cli_options] issues one [set-option] command for
    each of the four values that the option loop captured, in the order
    api key, session name, read-only session name, authorized keys; it
    clears each value it hands over, and a second call issues nothing. *)
Theorem tmate_load_cli_options_drains (s : state) :
  (forall v d l,
     main_switch H L {| opt := "k"; optarg := v; diagnostic := d |} l s
       = Ret l (with_api_key (Some v) s)
     /\ main_switch H L {| opt := "n"; optarg := v; diagnostic := d |} l s
       = Ret l (with_session_name (Some v) s)
     /\ main_switch H L {| opt := "r"; optarg := v; diagnostic := d |} l s
       = Ret l (with_session_name_ro (Some v) s)
     /\ main_switch H L {| opt := "a"; optarg := v; diagnostic := d |} l s
       = Ret l (with_authorized_keys (Some v) s))
  /\ exists s1,
       tmate_load_cli_options H s = Ret tt s1
       /\ headless s1 =
            (headless s ++
             deferred_commands H (api_key s) (session_name s)
               (session_name_ro s) (authorized_keys s))%list
       /\ api_key s1 = None /\ session_name s1 = None
       /\ session_name_ro s1 = None /\ authorized_keys s1 = None
       /\ env s1 = env s /\ fs s1 = fs s
       /\ stdout s1 = stdout s /\ stderr s1 = stderr s
       /\ tmate_load_cli_options H s1 = Ret tt s1
       /\ headless (final_state (tmate_load_cli_options H s1)) = headless s1.
Proof.
  split; [intros v d l; repeat split |].
  destruct (SET_OPT_api_key s)
    as (s1 & E1 & Hh1 & Hk1 & Hn1 & Hr1 & Ha1 & He1 & Hf1 & Ho1 & Hs1).
  destruct (SET_OPT_session_name s1)
    as (s2 & E2 & Hh2 & Hk2 & Hn2 & Hr2 & Ha2 & He2 & Hf2 & Ho2 & Hs2).
  destruct (SET_OPT_session_name_ro s2)
    as (s3 & E3 & Hh3 & Hk3 & Hn3 & Hr3 & Ha3 & He3 & Hf3 & Ho3 & Hs3).
  destruct (SET_OPT_authorized_keys s3)
    as (s4 & E4 & Hh4 & Hk4 & Hn4 & Hr4 & Ha4 & He4 & Hf4 & Ho4 & Hs4).
  assert (Hempty : tmate_load_cli_options H s4 = Ret tt s4)
    by (apply tmate_load_cli_options_empty; congruence).
  exists s4. split; [| split; [| repeat split; try congruence]].
  - unfold tmate_load_cli_options. run. now rewrite E1, E2, E3, E4.
  - rewrite Hh4, Hh3, Hh2, Hh1, Ha3, Ha2, Ha1, Hr2, Hr1, Hn1.
    unfold deferred_commands. now rewrite <- !List.app_assoc.
  - now rewrite Hempty.
Qed.

(** *** The UTF-8 flag *)

Lemma main_utf8_locale (flags : Z) (s : state) :
  env s !! "TMUX" = None ->
  main_utf8 H flags s =
  Ret (let loc := first_nonempty
                    [env s !! "LC_ALL"; env s !! "LC_CTYPE"; env s !! "LANG"] in
       if not_null (strcasestr loc "UTF-8") || not_null (strcasestr loc "UTF8")
       then Z.lor flags (CLIENT_UTF8 H) else flags) s.
Proof.
  intros Ht. unfold main_utf8, getenv. run. rewrite Ht. simpl.
  destruct (env s !! "LC_ALL") as [[|a1 v1]|]; simpl;
    destruct (env s !! "LC_CTYPE") as [[|a2 v2]|]; simpl;
    destruct (env s !! "LANG") as [[|a3 v3]|];
    simpl; try reflexivity;
    match goal with
    | |- context [if ?c then _ else _] => destruct c; reflexivity
    end.
Qed.

(** C7. With [TMUX] set, the step of lines 351-364 sets the UTF-8 flag.
    Without it, the step sets the flag when the first non-empty value
    among [LC_ALL], [LC_CTYPE] and [LANG] contains "UTF-8" or "UTF8" in
    any letter case, and leaves the flag word as it is otherwise. The
    step only adds to the flag word: every flag that was set before it,
    by [-u], [-2] or otherwise, is still set after it; and the step
    leaves the state alone. *)
Theorem main_utf8_flag (flags : Z) (s : state) :
  (forall v, env s !! "TMUX" = Some v ->
     main_utf8 H flags s = Ret (Z.lor flags (CLIENT_UTF8 H)) s)
  /\ (env s !! "TMUX" = None ->
      forall loc,
        loc = first_nonempty
                [env s !! "LC_ALL"; env s !! "LC_CTYPE"; env s !! "LANG"] ->
        (contains_nocase loc "UTF-8" \/ contains_nocase loc "UTF8" ->
         main_utf8 H flags s = Ret (Z.lor flags (CLIENT_UTF8 H)) s)
        /\ (~ (contains_nocase loc "UTF-8" \/ contains_nocase loc "UTF8") ->
            main_utf8 H flags s = Ret flags s))
  /\ has_flag (Z.lor flags (CLIENT_UTF8 H)) (CLIENT_UTF8 H)
  /\ (exists flags', main_utf8 H flags s = Ret flags' s
        /\ forall f, has_flag flags f -> has_flag flags' f).
Proof.
  split; [| split; [| split]].
  - intros v Ht. unfold main_utf8, getenv. run. now rewrite Ht.
  - intros Ht loc ->. rewrite (main_utf8_locale flags s Ht). cbv zeta.
    rewrite <- !strcasestr_spec.
    set (loc := first_nonempty _).
    destruct (not_null (strcasestr loc "UTF-8"));
      destruct (not_null (strcasestr loc "UTF8")); simpl; split;
      try reflexivity; try (intros [?|?]; discriminate); intros Hn;
      exfalso; apply Hn; auto.
  - apply has_flag_lor_r.
  - destruct (env s !! "TMUX") as [v|] eqn:Ht.
    + exists (Z.lor flags (CLIENT_UTF8 H)). split.
      * unfold main_utf8, getenv. run. now rewrite Ht.
      * intros f. apply has_flag_lor_l.
    + rewrite (main_utf8_locale flags s Ht). cbv zeta.
      match goal with
      | |- context [if ?c then _ else _] => destruct c
      end; eexists; (split; [reflexivity |]); intros f Hf;
        [now apply has_flag_lor_l | exact Hf].
Qed.

(** *** The socket directory *)

Lemma length_append (a b : string) :
  String.length (a +:+ b) = (String.length a + String.length b)%nat.
Proof. induction a as [|x a IH]; simpl; [reflexivity | now rewrite IH]. Qed.

Lemma truncate_append (a b : string) :
  truncate (String.length a) (a +:+ b) = a.
Proof. induction a as [|x a IH]; simpl; [reflexivity | now rewrite IH]. Qed.

Lemma mktemp_template (r : string) :
  truncate (String.length (r +:+ "/" +:+ "XXXXXX") - 6)
    (r +:+ "/" +:+ "XXXXXX") = r +:+ "/".
Proof.
  rewrite <- append_assoc.
  replace (String.length ((r +:+ "/") +:+ "XXXXXX") - 6)%nat
    with (String.length (r +:+ "/")).
  - apply truncate_append.
  - rewrite !length_append. simpl. lia.
Qed.

Lemma created_dir_mode (x : Z) :
  S_ISDIR (Z.lor S_IFDIR (Z.land S_IRWXU x)) = true
  /\ Z.land (Z.lor S_IFDIR (Z.land S_IRWXU x)) S_IRWXO = 0.
Proof.
  unfold S_ISDIR. rewrite !Z.land_lor_distr_l.
  rewrite !(Z.land_comm S_IRWXU x), <- !Z.land_assoc.
  change (Z.land S_IRWXU S_IFMT) with 0.
  change (Z.land S_IRWXU S_IRWXO) with 0.
  rewrite Z.land_0_r. split; reflexivity.
Qed.

Lemma make_label_existing (label : option string) (s : state) (sb : stat) :
  fs s !! runtime_dir H L s = Some sb ->
  make_label H L label s =
  let base := runtime_dir H L s in
  let s1 := with_errno EEXIST s in
  if negb (S_ISDIR (st_mode sb)) then Ret None (with_errno ENOTDIR s1)
  else if negb (st_uid sb =? getuid L)
          || negb (Z.land (st_mode sb) S_IRWXO =? 0)
  then Ret None (with_errno EACCES s1)
  else
    let resolved := resolved_dir H L (fs s) base in
    match label with
    | Some l => Ret (Some (resolved +:+ "/" +:+ l)) s1
    | None =>
        Ret (Some
               match mktemp_pick L (fs s) (resolved +:+ "/" +:+ "XXXXXX") with
               | Some six =>
                   if (String.length six =? 6)%nat
                   then (resolved +:+ "/") +:+ six
                   else ""
               | None => ""
               end) s1
    end.
Proof.
  unfold runtime_dir, resolved_dir. intros Hfs.
  unfold make_label, getenv, mkdir, lstat, label_resolved, mktemp. run.
  rewrite Hfs. state_simpl. rewrite Z.eqb_refl. simpl. state_simpl.
  rewrite Hfs. cbv zeta.
  destruct (S_ISDIR (st_mode sb)); simpl; [| reflexivity].
  destruct (negb (st_uid sb =? getuid L)
            || negb (Z.land (st_mode sb) S_IRWXO =? 0)); simpl;
    [reflexivity |].
  destruct label; [reflexivity |]. simpl.
  now rewrite mktemp_template.
Qed.

Lemma make_label_refused (label : option string) (s : state) (e : Z) :
  fs s !! runtime_dir H L s = None ->
  mkdir_refused L (fs s) (runtime_dir H L s) = Some e ->
  exists s', make_label H L label s = Ret None s' /\ fs s' = fs s.
Proof.
  unfold runtime_dir. intros Hfs Hre.
  unfold make_label, getenv, mkdir, lstat. run.
  rewrite Hfs, Hre. state_simpl.
  destruct (e =? EEXIST); simpl; [| now eexists].
  state_simpl. rewrite Hfs. now eexists.
Qed.

Lemma make_label_created (label : option string) (s : state) :
  fs s !! runtime_dir H L s = None ->
  mkdir_refused L (fs s) (runtime_dir H L s) = None ->
  make_label H L label s =
  let base := runtime_dir H L s in
  let f1 := <[base := created_dir L]> (fs s) in
  let s1 := with_fs f1 s in
  if negb (fsuid L =? getuid L) then Ret None (with_errno EACCES s1)
  else
    let resolved := resolved_dir H L f1 base in
    match label with
    | Some l => Ret (Some (resolved +:+ "/" +:+ l)) s1
    | None =>
        Ret (Some
               match mktemp_pick L f1 (resolved +:+ "/" +:+ "XXXXXX") with
               | Some six =>
                   if (String.length six =? 6)%nat
                   then (resolved +:+ "/") +:+ six
                   else ""
               | None => ""
               end) s1
    end.
Proof.
  unfold runtime_dir, resolved_dir, created_dir. intros Hfs Hre.
  unfold make_label, getenv, mkdir, lstat, label_resolved, mktemp. run.
  rewrite Hfs, Hre. state_simpl. simpl. state_simpl.
  rewrite lookup_insert_eq. cbv zeta. simpl.
  destruct (created_dir_mode (Z.lnot (umask L))) as [-> ->]. simpl.
  destruct (negb (fsuid L =? getuid L)); simpl; [reflexivity |].
  destruct label; [reflexivity |]. simpl.
  now rewrite mktemp_template.
Qed.

(** *** The option loop *)

Lemma loop_frame_refl (s : state) : loop_frame s s.
Proof. unfold loop_frame. repeat split; auto. Qed.

Lemma loop_frame_trans (s1 s2 s3 : state) :
  loop_frame s1 s2 -> loop_frame s2 s3 -> loop_frame s1 s3.
Proof.
  unfold loop_frame.
  intros (A1 & A2 & A3 & A4 & A5 & A6 & A7 & A8 & A9 & A10 & A11)
         (B1 & B2 & B3 & B4 & B5 & B6 & B7 & B8 & B9 & B10 & B11).
  repeat split; try congruence.
  - intros k Hk. rewrite (B10 k Hk). auto.
  - auto.
Qed.

(** One turn of the loop: what it does to the local variables and what
    it leaves alone. *)
Lemma main_switch_ret (o : getopt_result) (l l' : locals) (s s' : state) :
  main_switch H L o l s = Ret l' s' ->
  loop_frame s s'
  /\ v_path l' = (if Ascii.eqb (opt o) "S" then Some (optarg o) else v_path l)
  /\ v_label l' = (if Ascii.eqb (opt o) "L" then Some (optarg o) else v_label l)
  /\ v_shellcmd l' =
       (if Ascii.eqb (opt o) "c" then Some (optarg o) else v_shellcmd l)
  /\ (forall f, has_flag (v_flags l) f -> has_flag (v_flags l') f).
Proof.
  unfold main_switch, usage, fprintf_stderr, printf, set_cfg_file,
    log_add_level, unsetenv.
  destruct o as [c a d]. cbn [opt optarg].
  destruct c as [[] [] [] [] [] [] [] []]; run;
    try discriminate;
    try (destruct (test_mask (v_flags l) (CLIENT_CONTROL H)));
    intros [= <- <-]; unfold loop_frame; state_simpl; cbn [v_path v_label v_shellcmd v_flags set_v_flags set_v_path set_v_label set_v_shellcmd];
    repeat split; auto using has_flag_lor_l;
    try (intros k Hk; now rewrite lookup_delete_ne);
    try (intros v; rewrite lookup_delete_eq; discriminate).
Qed.

(** [getopt] prints nothing unless it returns ['?']. *)
Lemma getopt_stderr_run (o : getopt_result) (s : state) :
  getopt_stderr o s =
  Ret tt (if Ascii.eqb (opt o) "?"
          then with_stderr (stderr s ++ [diagnostic o])%list s else s).
Proof.
  unfold getopt_stderr, fprintf_stderr.
  now destruct (Ascii.eqb (opt o) "?").
Qed.

Lemma main_getopt_loop_cons (o : getopt_result) (opts : list getopt_result)
    (l : locals) (s : state) :
  opt o <> "?"%char ->
  main_getopt_loop H L (o :: opts) l s =
  match main_switch H L o l s with
  | Ret l' s' => main_getopt_loop H L opts l' s'
  | Exit code s' => Exit code s'
  end.
Proof.
  intros Ho. apply Ascii.eqb_neq in Ho. cbn [main_getopt_loop].
  unfold mbind, M_bind, bind. now rewrite getopt_stderr_run, Ho.
Qed.

(** An option that [getopt] rejects ends the loop: [getopt] has printed
    its diagnostic, and [usage] follows. *)
Lemma main_getopt_loop_rejected (o : getopt_result)
    (opts : list getopt_result) (l : locals) (s : state) :
  opt o = "?"%char ->
  main_getopt_loop H L (o :: opts) l s =
  Exit 1 (with_stderr (stderr s ++ [diagnostic o; usage_text L])%list s).
Proof.
  intros Ho. cbn [main_getopt_loop].
  unfold mbind, M_bind, bind. rewrite getopt_stderr_run.
  unfold main_switch. rewrite Ho. cbn [Ascii.eqb].
  unfold usage, fprintf_stderr. run. state_simpl.
  now rewrite <- List.app_assoc.
Qed.

Lemma main_getopt_loop_cons_ret (o : getopt_result)
    (opts : list getopt_result) (l l' : locals) (s s' : state) :
  main_getopt_loop H L (o :: opts) l s = Ret l' s' ->
  opt o <> "?"%char
  /\ exists l1 s1, main_switch H L o l s = Ret l1 s1
       /\ main_getopt_loop H L opts l1 s1 = Ret l' s'.
Proof.
  destruct (Ascii.eqb (opt o) "?") eqn:Ho.
  - apply Ascii.eqb_eq in Ho.
    now rewrite (main_getopt_loop_rejected o opts l s Ho).
  - apply Ascii.eqb_neq in Ho. rewrite (main_getopt_loop_cons o opts l s Ho).
    destruct (main_switch H L o l s) as [l1 s1|] eqn:E; [| discriminate].
    intros Hl. split; [exact Ho |]. now exists l1, s1.
Qed.

Lemma main_getopt_loop_ret (opts : list getopt_result) (l l' : locals)
    (s s' : state) :
  main_getopt_loop H L opts l s = Ret l' s' ->
  loop_frame s s'
  /\ v_path l' = match last_optarg "S" opts with
                 | Some p => Some p
                 | None => v_path l
                 end
  /\ v_label l' = match last_optarg "L" opts with
                  | Some p => Some p
                  | None => v_label l
                  end
  /\ v_shellcmd l' = match last_optarg "c" opts with
                     | Some p => Some p
                     | None => v_shellcmd l
                     end
  /\ (forall f, has_flag (v_flags l) f -> has_flag (v_flags l') f).
Proof.
  revert l s. induction opts as [|o opts IH]; intros l s.
  - simpl. run. intros [= <- <-]. split; [apply loop_frame_refl | auto].
  - simpl last_optarg. intros Hl.
    apply main_getopt_loop_cons_ret in Hl as (_ & l1 & s1 & E & Hl).
    apply main_switch_ret in E as (F1 & P1 & L1 & C1 & G1).
    apply IH in Hl as (F2 & P2 & L2 & C2 & G2).
    split; [exact (loop_frame_trans _ _ _ F1 F2) |].
    rewrite P2, L2, C2, P1, L1, C1.
    repeat split; auto;
      match goal with
      | |- context [last_optarg ?c opts] => destruct (last_optarg c opts)
      end; try reflexivity;
      match goal with
      | |- context [Ascii.eqb ?a ?b] => destruct (Ascii.eqb a b)
      end; reflexivity.
Qed.

(** *** The steps of main around the loop *)

Lemma main_locale_cases (s : state) :
  main_locale L s = Ret tt s \/ exists s', main_locale L s = Exit 1 s'.
Proof.
  unfold main_locale, errx, fprintf_stderr. run.
  destruct (negb (setlocale_ctype L (env s) "en_US.UTF-8")
            && negb (setlocale_ctype L (env s) "C.UTF-8")); [| now left].
  destruct (negb (setlocale_ctype L (env s) "")); [right; now eexists |].
  destruct (negb (strcaseeq (nl_langinfo_codeset L (env s)) "UTF-8")
            && negb (strcaseeq (nl_langinfo_codeset L (env s)) "UTF8"));
    [right; now eexists | now left].
Qed.

Lemma main_utf8_ret (flags : Z) (s : state) :
  exists flags', main_utf8 H flags s = Ret flags' s
    /\ (forall f, has_flag flags f -> has_flag flags' f)
    /\ (has_flag flags (CLIENT_UTF8 H) -> flags' = flags).
Proof.
  destruct (env s !! "TMUX") as [v|] eqn:Ht.
  - exists (Z.lor flags (CLIENT_UTF8 H)). split; [| split].
    + unfold main_utf8, getenv. run. now rewrite Ht.
    + intros f. apply has_flag_lor_l.
    + apply has_flag_lor_idem.
  - rewrite (main_utf8_locale flags s Ht). cbv zeta.
    match goal with
    | |- context [if ?c then _ else _] => destruct c
    end; eexists; (split; [reflexivity |]); split; auto.
    + intros f. apply has_flag_lor_l.
    + apply has_flag_lor_idem.
Qed.

(** Lines 368-382 fill the three trees from the tables and touch nothing
    else but the environment copy. *)
Lemma main_options_ret (s : state) :
  exists s',
    main_options H L s = Ret tt s'
    /\ global_options s' = Some (OPTIONS_TABLE_SERVER H)
    /\ global_s_options s' =
         Some (<["default-shell" :=
                   OptString (fmt_s (getshell_value H L (env s) (fs s)))]>
                 (OPTIONS_TABLE_SESSION H))
    /\ global_w_options s' = Some (OPTIONS_TABLE_WINDOW H)
    /\ env s' = env s /\ fs s' = fs s /\ errno s' = errno s
    /\ stderr s' = stderr s /\ socket_path s' = socket_path s.
Proof.
  unfold main_options. run.
  destruct (getcwd L); rewrite getshell_run; state_simpl;
    eexists; (split; [reflexivity |]); state_simpl; repeat split.
Qed.

(** Lines 384-394, as a state transformer. *)
Lemma main_keys_run (s : state) :
  main_keys H s =
  Ret tt
    match inspected_editor (env s) with
    | Some v =>
        let b := match strrchr v "/" with
                 | Some p => next p
                 | None => v
                 end in
        let keys := if not_null (strstr b "vi") then MODEKEY_VI H
                    else MODEKEY_EMACS H in
        with_global_w_options
          (<["mode-keys" := OptNumber keys]> <$> global_w_options s)
          (with_global_s_options
             (<["status-keys" := OptNumber keys]> <$> global_s_options s) s)
    | None => s
    end.
Proof.
  unfold main_keys, inspected_editor, getenv. run.
  destruct (env s !! "VISUAL") as [v|]; simpl.
  - reflexivity.
  - destruct (env s !! "EDITOR") as [v|]; reflexivity.
Qed.

Lemma main_keys_frame (s s' : state) :
  main_keys H s = Ret tt s' ->
  env s' = env s /\ fs s' = fs s /\ errno s' = errno s
  /\ stderr s' = stderr s /\ socket_path s' = socket_path s.
Proof.
  rewrite main_keys_run. intros [= <-].
  destruct (inspected_editor (env s)); repeat split.
Qed.

(** Lines 401-411: the three ways to a socket path. *)
Lemma main_socket_path (p : string) (label : option string) (s : state) :
  main_socket H L (Some p) label s = Ret p s.
Proof. reflexivity. Qed.

Lemma main_socket_tmux (v : string) (s : state) :
  env s !! "TMUX" = Some v -> is_empty v = false ->
  starts_with "," v = false ->
  main_socket H L None None s = Ret (truncate (strcspn v ",") v) s.
Proof.
  intros Ht He Hc. unfold main_socket, getenv. run.
  now rewrite Ht, He, Hc.
Qed.

Lemma main_socket_label (label : option string) (s : state) :
  label <> None \/ tmux_usable s = false ->
  main_socket H L None label s =
  match make_label H L label s with
  | Ret (Some p) s' => Ret p s'
  | Ret None s' =>
      Exit 1 (with_stderr
                (stderr s' ++ [cant_create_socket L (errno s')])%list s')
  | Exit code s' => Exit code s'
  end.
Proof.
  intros Hl. unfold main_socket, getenv, fprintf_stderr, tmux_usable in *. run.
  assert (Hgo : forall (m : outcome (option string)),
            m = Ret None s ->
            match m with
            | Ret a s' =>
                match a with
                | Some p => fun s0 => Ret p s0
                | None => fun s0 =>
                    match make_label H L label s0 with
                    | Ret a0 s'0 =>
                        match a0 with
                        | Some p => fun s1 => Ret p s1
                        | None => fun s1 =>
                            Exit 1
                              (with_stderr
                                 (stderr s1 ++
                                  ["can't create socket: "
                                   +:+ strerror L (errno s1) +:+ nl])%list s1)
                        end s'0
                    | Exit code s'0 => Exit code s'0
                    end
                end s'
            | Exit code s' => Exit code s'
            end =
            match make_label H L label s with
            | Ret (Some p) s' => Ret p s'
            | Ret None s' =>
                Exit 1 (with_stderr
                          (stderr s' ++ [cant_create_socket L (errno s')])%list s')
            | Exit code s' => Exit code s'
            end).
  { intros m ->. destruct (make_label H L label s) as [[p|] s'|]; reflexivity. }
  apply Hgo. destruct label as [lb|].
  - reflexivity.
  - destruct Hl as [Hl | Hl]; [congruence |]. simpl.
    destruct (env s !! "TMUX") as [v|]; [| reflexivity].
    now rewrite Hl.
Qed.

#[local] Arguments main_locale : simpl never.
#[local] Arguments main_getopt_loop : simpl never.
#[local] Arguments main_utf8 : simpl never.
#[local] Arguments main_options : simpl never.
#[local] Arguments main_keys : simpl never.
#[local] Arguments main_socket : simpl never.
#[local] Arguments main_startup : simpl never.
#[local] Arguments usage : simpl never.
#[local] Arguments usage_text : simpl never.

Lemma usage_run (A : Type) (s : state) :
  @usage L A s = Exit 1 (with_stderr (stderr s ++ [usage_text L])%list s).
Proof. reflexivity. Qed.

(** The local variables before the option loop. *)
Lemma main_startup_usage (argv0 : string) (opts : list getopt_result)
    (args : list string) (s s1 : state) (l1 : locals) :
  main_locale L s = Ret tt s ->
  main_getopt_loop H L opts
    {| v_path := None; v_label := None; v_shellcmd := None;
       v_flags := main_initial_flags H argv0 |} s = Ret l1 s1 ->
  not_null (v_shellcmd l1) && negb (length args =? 0)%nat = true ->
  main_startup H L argv0 opts args s =
  Exit 1 (with_stderr (stderr s1 ++ [usage_text L])%list s1).
Proof.
  intros Hloc Hloop Hc. unfold main_startup. run.
  rewrite Hloc, Hloop, Hc. now rewrite usage_run.
Qed.

Lemma main_startup_inv (argv0 : string) (opts : list getopt_result)
    (args : list string) (s s3 : state) (l : locals) :
  main_startup H L argv0 opts args s = Ret l s3 ->
  exists l1 s1 s2,
    main_locale L s = Ret tt s
    /\ main_getopt_loop H L opts
         {| v_path := None; v_label := None; v_shellcmd := None;
            v_flags := main_initial_flags H argv0 |} s = Ret l1 s1
    /\ not_null (v_shellcmd l1) && negb (length args =? 0)%nat = false
    /\ main_utf8 H (v_flags l1) s1 = Ret (v_flags l) s1
    /\ l = set_v_flags (v_flags l) l1
    /\ main_options H L s1 = Ret tt s2
    /\ main_keys H s2 = Ret tt s3.
Proof.
  unfold main_startup. run.
  destruct (main_locale_cases s) as [E | [s' E]]; rewrite E; [| discriminate].
  destruct (main_getopt_loop H L opts _ s) as [l1 s1|] eqn:Hloop;
    [| discriminate].
  destruct (not_null (v_shellcmd l1) && negb (length args =? 0)%nat) eqn:Hc.
  { rewrite usage_run. discriminate. }
  destruct (main_utf8_ret (v_flags l1) s1) as (flags' & E1 & _). rewrite E1.
  destruct (main_options_ret s1) as (s2 & E2 & _). rewrite E2.
  destruct (main_keys H s2) as [[] s3'|] eqn:E3; [| discriminate].
  intros [= <- <-]. exists l1, s1, s2. repeat split; auto.
Qed.

(** What reaches line 401: the option arguments and the state. *)
Lemma main_startup_ret (argv0 : string) (opts : list getopt_result)
    (args : list string) (s s3 : state) (l : locals) :
  main_startup H L argv0 opts args s = Ret l s3 ->
  v_path l = last_optarg "S" opts
  /\ v_label l = last_optarg "L" opts
  /\ v_shellcmd l = last_optarg "c" opts
  /\ has_flag (v_flags l) (CLIENT_256COLOURS H)
  /\ has_flag (v_flags l) (CLIENT_UTF8 H)
  /\ fs s3 = fs s /\ errno s3 = errno s /\ stderr s3 = stderr s
  /\ socket_path s3 = socket_path s
  /\ (forall k, k <> "TMUX" -> env s3 !! k = env s !! k)
  /\ (forall v, env s3 !! "TMUX" = Some v -> env s !! "TMUX" = Some v).
Proof.
  intros Hs. apply main_startup_inv in Hs
    as (l1 & s1 & s2 & Hloc & Hloop & Hc & Hu & Hl & Ho & Hk).
  apply main_getopt_loop_ret in Hloop as (F & P & Lb & C & G).
  destruct F as (F1 & F2 & F3 & F4 & F5 & F6 & F7 & F8 & F9 & F10 & F11).
  destruct (main_options_ret s1)
    as (s2' & E2 & _ & _ & _ & Oe & Of & Oer & Ose & Osp).
  rewrite Ho in E2. injection E2 as <-.
  apply main_keys_frame in Hk as (Ke & Kf & Ker & Kse & Ksp).
  destruct (main_utf8_ret (v_flags l1) s1) as (flags' & E1 & Hmono & _).
  rewrite Hu in E1. injection E1 as <-.
  rewrite Hl. cbn [v_path v_label v_shellcmd v_flags set_v_flags].
  rewrite P, Lb, C. cbn [v_path v_label v_shellcmd].
  rewrite Ke, Kf, Ker, Kse, Ksp, Oe, Of, Oer, Ose, Osp.
  repeat split; auto.
  - now destruct (last_optarg "S" opts).
  - now destruct (last_optarg "L" opts).
  - now destruct (last_optarg "c" opts).
  - apply Hmono, G. cbn [v_flags]. unfold main_initial_flags.
    rewrite Z.lor_assoc. apply has_flag_lor_l, has_flag_lor_r.
  - apply Hmono, G. cbn [v_flags]. unfold main_initial_flags.
    rewrite Z.lor_assoc. apply has_flag_lor_r.
Qed.

Lemma main_getopt_loop_without_2u (opts : list getopt_result) (l : locals)
    (s : state) :
  has_flag (v_flags l) (CLIENT_256COLOURS H) ->
  has_flag (v_flags l) (CLIENT_UTF8 H) ->
  main_getopt_loop H L (without_2u opts) l s = main_getopt_loop H L opts l s.
Proof.
  revert l s. induction opts as [|o opts IH]; intros l s H2 Hu; [reflexivity |].
  unfold without_2u. cbn [List.filter]. fold (without_2u opts).
  destruct (Ascii.eqb (opt o) "2") eqn:E2.
  { apply Ascii.eqb_eq in E2. destruct o as [c a d]. cbn [opt] in E2. subst c.
    cbn [orb negb].
    rewrite (IH l s H2 Hu), main_getopt_loop_cons by (cbn; discriminate).
    unfold main_switch. cbn [opt]. run.
    rewrite (has_flag_lor_idem _ _ H2). now destruct l. }
  destruct (Ascii.eqb (opt o) "u") eqn:Eu.
  { apply Ascii.eqb_eq in Eu. destruct o as [c a d]. cbn [opt] in Eu. subst c.
    cbn [orb negb].
    rewrite (IH l s H2 Hu), main_getopt_loop_cons by (cbn; discriminate).
    unfold main_switch. cbn [opt]. run.
    rewrite (has_flag_lor_idem _ _ Hu). now destruct l. }
  cbn [orb negb].
  destruct (Ascii.eqb (opt o) "?") eqn:Eq.
  { apply Ascii.eqb_eq in Eq.
    now rewrite !main_getopt_loop_rejected by exact Eq. }
  apply Ascii.eqb_neq in Eq. rewrite !main_getopt_loop_cons by exact Eq.
  destruct (main_switch H L o l s) as [l1 s1|] eqn:E; [| reflexivity].
  apply main_switch_ret in E as (_ & _ & _ & _ & G). apply IH; auto.
Qed.

(** *** The claims about main *)

(** C1. The socket path that [main] hands over. With [-S], it is the
    argument of (the last) [-S], unchanged. Without [-S] and without
    [-L], when [TMUX] is set at that point of [main], is not empty and
    does not begin with a comma, it is the part of the value of [TMUX]
    before its first comma, the whole value when it has none. In every
    other case it is the path that [make_label] derives from the label,
    and [main] exits with status 1 when [make_label] fails. [TMUX] at
    that point is the inherited one, unless [-F] unset it. *)
Theorem socket_path_precedence (argv0 : string) (opts : list getopt_result)
    (args : list string) (s s2 : state) (l : locals) :
  main_startup H L argv0 opts args s = Ret l s2 ->
  let call := {| cm_argv := args; cm_flags := v_flags l;
                 cm_shellcmd := v_shellcmd l |} in
  (forall p, last_optarg "S" opts = Some p ->
     main H L argv0 opts args s = Ret call (with_socket_path (Some p) s2))
  /\ (last_optarg "S" opts = None -> last_optarg "L" opts = None ->
      forall v, env s2 !! "TMUX" = Some v -> v <> "" ->
        starts_with "," v = false ->
        exists p,
          before_first_comma v p
          /\ (mem "," v = false -> p = v)
          /\ main H L argv0 opts args s =
               Ret call (with_socket_path (Some p) s2))
  /\ (last_optarg "S" opts = None ->
      last_optarg "L" opts <> None \/ tmux_usable s2 = false ->
      main H L argv0 opts args s =
      match make_label H L (last_optarg "L" opts) s2 with
      | Ret (Some p) s3 => Ret call (with_socket_path (Some p) s3)
      | Ret None s3 =>
          Exit 1 (with_stderr
                    (stderr s3 ++ [cant_create_socket L (errno s3)])%list s3)
      | Exit code s3 => Exit code s3
      end)
  /\ (forall v, env s2 !! "TMUX" = Some v -> env s !! "TMUX" = Some v).
Proof.
  intros Hs call.
  destruct (main_startup_ret _ _ _ _ _ _ Hs)
    as (P & Lb & _ & _ & _ & _ & _ & _ & _ & _ & Ht).
  split; [| split; [| split]].
  - intros p HS. unfold main. run. rewrite Hs, P, HS.
    now rewrite main_socket_path.
  - intros HS HL v Hv Hne Hc. exists (truncate (strcspn v ",") v).
    split; [apply truncate_strcspn_comma |].
    split.
    + intros Hm. apply strcspn_before_first_comma. split; [exact Hm | now left].
    + unfold main. run. rewrite Hs, P, Lb, HS, HL.
      rewrite (main_socket_tmux v s2 Hv); auto.
      destruct v; [congruence | reflexivity].
  - intros HS Hor. unfold main. run. rewrite Hs, P, Lb, HS.
    rewrite main_socket_label by exact Hor.
    now destruct (make_label H L (last_optarg "L" opts) s2) as [[p|] s3|].
  - exact Ht.
Qed.

(** C9. When the option loop has run to its end, a [-c] command was
    given and an argument is left after the options, [main] prints the
    usage text to standard error and exits with status 1; no option tree,
    no environment copy and no socket path has been made by then, and
    the file system is untouched. *)
Theorem usage_on_command_with_arguments (argv0 : string)
    (opts : list getopt_result) (args : list string) (s s1 : state)
    (l1 : locals) (cmd : string) :
  main_locale L s = Ret tt s ->
  main_getopt_loop H L opts
    {| v_path := None; v_label := None; v_shellcmd := None;
       v_flags := main_initial_flags H argv0 |} s = Ret l1 s1 ->
  last_optarg "c" opts = Some cmd ->
  args <> [] ->
  main H L argv0 opts args s =
    Exit 1 (with_stderr (stderr s1 ++ [usage_text L])%list s1)
  /\ stderr s1 = stderr s
  /\ global_environ s1 = global_environ s
  /\ global_options s1 = global_options s
  /\ global_s_options s1 = global_s_options s
  /\ global_w_options s1 = global_w_options s
  /\ socket_path s1 = socket_path s
  /\ fs s1 = fs s.
Proof.
  intros Hloc Hloop Hc Hargs.
  destruct (main_getopt_loop_ret _ _ _ _ _ Hloop) as (F & _ & _ & C & _).
  destruct F as (F1 & F2 & F3 & F4 & F5 & F6 & F7 & F8 & F9 & F10 & F11).
  split; [| repeat split; assumption].
  unfold main. run.
  rewrite (main_startup_usage argv0 opts args s s1 l1 Hloc Hloop);
    [reflexivity |].
  rewrite C, Hc. destruct args; [congruence | reflexivity].
Qed.

(** C10. Every call of [client_main] receives the 256-colour flag and
    the UTF-8 flag, whatever the options and the environment: the flags
    are set before the option loop, so taking [-2] and [-u] out of the
    command line changes nothing of what [main] does, and the locale test
    of lines 351-364 returns the flag word it was given. *)
Theorem client_flags_256_utf8 (argv0 : string) (opts : list getopt_result)
    (args : list string) (s : state) :
  (forall call s', main H L argv0 opts args s = Ret call s' ->
     has_flag (cm_flags call) (CLIENT_256COLOURS H)
     /\ has_flag (cm_flags call) (CLIENT_UTF8 H))
  /\ main H L argv0 (without_2u opts) args s = main H L argv0 opts args s
  /\ (forall l1 s1,
        main_getopt_loop H L opts
          {| v_path := None; v_label := None; v_shellcmd := None;
             v_flags := main_initial_flags H argv0 |} s = Ret l1 s1 ->
        main_utf8 H (v_flags l1) s1 = Ret (v_flags l1) s1).
Proof.
  assert (H0 : has_flag (main_initial_flags H argv0) (CLIENT_256COLOURS H)
               /\ has_flag (main_initial_flags H argv0) (CLIENT_UTF8 H)).
  { unfold main_initial_flags. rewrite Z.lor_assoc. split.
    - apply has_flag_lor_l, has_flag_lor_r.
    - apply has_flag_lor_r. }
  destruct H0 as [H2 Hu].
  split; [| split].
  - intros call s' Hm. unfold main in Hm. revert Hm. run.
    destruct (main_startup H L argv0 opts args s) as [l s2|] eqn:Hs;
      [| discriminate].
    destruct (main_socket H L (v_path l) (v_label l) s2) as [p s3|];
      [| discriminate].
    intros [= <- <-]. cbn [cm_flags].
    destruct (main_startup_ret _ _ _ _ _ _ Hs) as (_ & _ & _ & A & B & _).
    now split.
  - unfold main, main_startup. run.
    destruct (main_locale L s) as [[] s'|]; [| reflexivity].
    now rewrite main_getopt_loop_without_2u.
  - intros l1 s1 Hloop.
    destruct (main_getopt_loop_ret _ _ _ _ _ Hloop) as (_ & _ & _ & _ & G).
    destruct (main_utf8_ret (v_flags l1) s1) as (flags' & E & _ & Hsame).
    rewrite E. f_equal. apply Hsame, G. exact Hu.
Qed.

(** C8. When [VISUAL] is set, or else [EDITOR] is, the value inspected
    is that of [VISUAL], else that of [EDITOR]; if what follows its last
    slash contains "vi", [status-keys] of the session options and
    [mode-keys] of the window options are both the vi key table, and both
    are the emacs key table if it does not. When neither variable is set
    both options keep the value of the option tables. *)
Theorem editor_selects_keys (argv0 : string) (opts : list getopt_result)
    (args : list string) (s s2 : state) (l : locals) :
  main_startup H L argv0 opts args s = Ret l s2 ->
  (forall v b, inspected_editor (env s) = Some v -> last_component v b ->
     (contains b "vi" ->
      tree_lookup (global_s_options s2) "status-keys"
        = Some (OptNumber (MODEKEY_VI H))
      /\ tree_lookup (global_w_options s2) "mode-keys"
        = Some (OptNumber (MODEKEY_VI H)))
     /\ (~ contains b "vi" ->
         tree_lookup (global_s_options s2) "status-keys"
           = Some (OptNumber (MODEKEY_EMACS H))
         /\ tree_lookup (global_w_options s2) "mode-keys"
           = Some (OptNumber (MODEKEY_EMACS H))))
  /\ (inspected_editor (env s) = None ->
      tree_lookup (global_s_options s2) "status-keys"
        = OPTIONS_TABLE_SESSION H !! "status-keys"
      /\ tree_lookup (global_w_options s2) "mode-keys"
        = OPTIONS_TABLE_WINDOW H !! "mode-keys"
      /\ global_w_options s2 = Some (OPTIONS_TABLE_WINDOW H)).
Proof.
  intros Hs. apply main_startup_inv in Hs
    as (l1 & s1 & s2' & Hloc & Hloop & Hc & Hu & Hl & Ho & Hk).
  apply main_getopt_loop_ret in Hloop as (F & _).
  destruct F as (_ & _ & _ & _ & _ & _ & _ & _ & _ & F10 & _).
  destruct (main_options_ret s1) as (s2'' & E2 & _ & Gs & Gw & Oe & _).
  rewrite Ho in E2. injection E2 as <-.
  rewrite main_keys_run in Hk. injection Hk as Hk.
  assert (Hi : inspected_editor (env s2') = inspected_editor (env s)).
  { unfold inspected_editor. rewrite Oe.
    now rewrite (F10 "VISUAL"), (F10 "EDITOR") by discriminate. }
  rewrite Hi in Hk. split.
  - intros v b Hv Hb. rewrite Hv in Hk. cbv zeta in Hk.
    rewrite (strrchr_last_component v b Hb) in Hk.
    rewrite Gs, Gw in Hk.
    split; intros Hvi.
    + apply strstr_spec in Hvi. rewrite Hvi in Hk. subst s2.
      state_simpl. cbn [tree_lookup fmap option_fmap option_map].
      now rewrite !lookup_insert_eq.
    + assert (not_null (strstr b "vi") = false) as Hn
        by (destruct (not_null (strstr b "vi")) eqn:E;
            [apply strstr_spec in E; contradiction | reflexivity]).
      rewrite Hn in Hk. subst s2.
      state_simpl. cbn [tree_lookup fmap option_fmap option_map].
      now rewrite !lookup_insert_eq.
  - intros Hn. rewrite Hn in Hk. subst s2. rewrite Gs, Gw.
    cbn [tree_lookup]. now rewrite lookup_insert_ne.
Qed.

(** C2, as the code has it. When the runtime directory exists and is a
    directory, [make_label] fails with [EACCES], leaving the file system
    as it was, whenever the directory belongs to another user or any
    permission bit for others is set; [main] then prints
    "can't create socket: " with the text of that error and exits with
    status 1, no socket path made. A directory of the user with no
    permission bit for others is accepted whatever its bits for the
    group. *)
Theorem runtime_dir_check (label : option string) (s : state) (sb : stat) :
  fs s !! runtime_dir H L s = Some sb ->
  S_ISDIR (st_mode sb) = true ->
  (st_uid sb <> getuid L \/ Z.land (st_mode sb) S_IRWXO <> 0 ->
   (exists s', make_label H L label s = Ret None s'
               /\ errno s' = EACCES /\ fs s' = fs s /\ stderr s' = stderr s)
   /\ (forall argv0 opts args s0 l,
         main_startup H L argv0 opts args s0 = Ret l s ->
         v_path l = None -> v_label l = label ->
         label <> None \/ tmux_usable s = false ->
         exists s',
           main H L argv0 opts args s0 = Exit 1 s'
           /\ stderr s' = (stderr s ++ [cant_create_socket L EACCES])%list
           /\ fs s' = fs s /\ socket_path s' = socket_path s))
  /\ (st_uid sb = getuid L -> Z.land (st_mode sb) S_IRWXO = 0 ->
      exists p s', make_label H L label s = Ret (Some p) s'
                   /\ fs s' = fs s).
Proof.
  intros Hfs Hdir. pose proof (make_label_existing label s sb Hfs) as Hml.
  cbv zeta in Hml. rewrite Hdir in Hml. cbn [negb] in Hml.
  split.
  - intros Hbad.
    assert (Hc : negb (st_uid sb =? getuid L)
                 || negb (Z.land (st_mode sb) S_IRWXO =? 0) = true).
    { destruct Hbad as [Hu | Hm].
      - apply Z.eqb_neq in Hu. now rewrite Hu.
      - apply Z.eqb_neq in Hm. rewrite Hm. apply orb_true_r. }
    rewrite Hc in Hml. split.
    + eexists. split; [exact Hml |]. now state_simpl.
    + intros argv0 opts args s0 l Hs Hp Hl Hor. subst label.
      eexists. split.
      * unfold main. run. rewrite Hs, Hp.
        rewrite main_socket_label by exact Hor. rewrite Hml. reflexivity.
      * now state_simpl.
  - intros Hu Hm.
    assert (Hc : negb (st_uid sb =? getuid L)
                 || negb (Z.land (st_mode sb) S_IRWXO =? 0) = false).
    { rewrite Hu, Hm, Z.eqb_refl. reflexivity. }
    rewrite Hc in Hml.
    destruct label; eexists; eexists; (split; [exact Hml | now state_simpl]).
Qed.

Lemma resolved_dir_canonical (f : gmap string stat) (dir : string) :
  (String.length dir < PATH_MAX H)%nat ->
  resolved_dir H L f dir = canonical L f dir.
Proof.
  intros Hlen. unfold resolved_dir, canonical.
  destruct (realpath L f dir); [reflexivity |].
  apply truncate_all. lia.
Qed.

Lemma runtime_dir_with_errno (e : Z) (s : state) :
  runtime_dir H L (with_errno e s) = runtime_dir H L s.
Proof. reflexivity. Qed.

Lemma runtime_dir_with_fs (f : gmap string stat) (s : state) :
  runtime_dir H L (with_fs f s) = runtime_dir H L s.
Proof. reflexivity. Qed.

(** What [mktemp] makes of the template that [make_label] builds when
    there is no label. *)
Lemma mktemp_label (r : string) (s : state) :
  let p := match mktemp_pick L (fs s) (r +:+ "/" +:+ "XXXXXX") with
           | Some six =>
               if (String.length six =? 6)%nat
               then (r +:+ "/") +:+ six
               else ""
           | None => ""
           end in
  mktemp L (r +:+ "/" +:+ "XXXXXX") s = Ret p s
  /\ (mktemp_pick L (fs s) (r +:+ "/" +:+ "XXXXXX") = None -> p = "")
  /\ (forall six,
        mktemp_pick L (fs s) (r +:+ "/" +:+ "XXXXXX") = Some six ->
        String.length six = 6%nat -> p = r +:+ "/" +:+ six)
  /\ p <> r +:+ "/" +:+ "default".
Proof.
  cbv zeta. split; [| split; [| split]].
  - unfold mktemp. run. now rewrite mktemp_template.
  - now intros ->.
  - intros six -> Hlen. apply Nat.eqb_eq in Hlen. rewrite Hlen.
    apply append_assoc.
  - intros Heq. apply (f_equal String.length) in Heq.
    rewrite length_append in Heq. cbn [String.length append] in Heq.
    destruct (mktemp_pick L (fs s) _) as [six|];
      [| cbn [String.length] in Heq; lia].
    destruct (String.length six =? 6)%nat eqn:Hlen;
      [| cbn [String.length] in Heq; lia].
    apply Nat.eqb_eq in Hlen. rewrite !length_append in Heq.
    cbn [String.length] in Heq. lia.
Qed.

(** A second call finds the directory that the first call accepted. *)
Lemma make_label_again (l : string) (s : state) (sb : stat) :
  fs s !! runtime_dir H L s = Some sb ->
  S_ISDIR (st_mode sb) = true ->
  negb (st_uid sb =? getuid L) || negb (Z.land (st_mode sb) S_IRWXO =? 0)
    = false ->
  make_label H L (Some l) s =
  Ret (Some (resolved_dir H L (fs s) (runtime_dir H L s) +:+ "/" +:+ l))
    (with_errno EEXIST s).
Proof.
  intros Hfs Hdir Hc. rewrite (make_label_existing (Some l) s sb Hfs).
  cbv zeta. now rewrite Hdir, Hc.
Qed.

(** C3, as the code has it. The runtime directory is [TMUX_TMPDIR], or
    [_PATH_TMP] when that is unset or empty, followed by "/tmate-" and
    the decimal user id. With a label from [-L], the path that
    [make_label] returns is the resolved directory, a slash and the
    label, and a second call in the state the first one left returns the
    same path. The resolved directory is what [realpath] answers, and the
    directory name itself when [realpath] fails (for a name shorter than
    [PATH_MAX]). Without a label the path is what [mktemp] makes of the
    resolved directory, a slash and the template "XXXXXX": the last
    component is the six characters that [mktemp] puts in place of
    "XXXXXX", the path is empty when [mktemp] finds none, and in neither
    case is it the resolved directory followed by "/default". An existing
    directory of the user without permission bits for others, and a
    directory that [mkdir] creates for the user, are both accepted. *)
Theorem make_label_path (label : option string) (s : state) :
  let dir := runtime_dir H L s in
  dir = (if null_or_empty (env s !! "TMUX_TMPDIR") then _PATH_TMP H
         else fmt_s (env s !! "TMUX_TMPDIR"))
        +:+ "/tmate-" +:+ fmt_u (getuid L)
  /\ (forall f, (String.length dir < PATH_MAX H)%nat ->
        resolved_dir H L f dir = canonical L f dir)
  /\ (forall p s', make_label H L label s = Ret (Some p) s' ->
        runtime_dir H L s' = dir
        /\ match label with
           | Some l =>
               p = resolved_dir H L (fs s') dir +:+ "/" +:+ l
               /\ exists s'', make_label H L label s' = Ret (Some p) s''
           | None =>
               mktemp L (resolved_dir H L (fs s') dir +:+ "/" +:+ "XXXXXX") s'
                 = Ret p s'
               /\ (mktemp_pick L (fs s')
                     (resolved_dir H L (fs s') dir +:+ "/" +:+ "XXXXXX")
                   = None -> p = "")
               /\ (forall six,
                     mktemp_pick L (fs s')
                       (resolved_dir H L (fs s') dir +:+ "/" +:+ "XXXXXX")
                     = Some six ->
                     String.length six = 6%nat ->
                     p = resolved_dir H L (fs s') dir +:+ "/" +:+ six)
               /\ p <> resolved_dir H L (fs s') dir +:+ "/" +:+ "default"
           end)
  /\ (forall sb l, fs s !! dir = Some sb -> S_ISDIR (st_mode sb) = true ->
        st_uid sb = getuid L -> Z.land (st_mode sb) S_IRWXO = 0 ->
        make_label H L (Some l) s =
        Ret (Some (resolved_dir H L (fs s) dir +:+ "/" +:+ l))
          (with_errno EEXIST s))
  /\ (forall l, fs s !! dir = None -> mkdir_refused L (fs s) dir = None ->
        fsuid L = getuid L ->
        make_label H L (Some l) s =
        Ret (Some (resolved_dir H L (<[dir := created_dir L]> (fs s)) dir
                   +:+ "/" +:+ l))
          (with_fs (<[dir := created_dir L]> (fs s)) s)).
Proof.
  intros dir. split; [| split; [| split; [| split]]].
  - unfold dir, runtime_dir, label_base.
    now destruct (null_or_empty (env s !! "TMUX_TMPDIR")).
  - intros f. apply resolved_dir_canonical.
  - intros p s' Hml.
    destruct (fs s !! runtime_dir H L s) as [sb|] eqn:Hfs.
    + rewrite (make_label_existing label s sb Hfs) in Hml. cbv zeta in Hml.
      destruct (S_ISDIR (st_mode sb)) eqn:Hdir; [| discriminate Hml].
      cbn [negb] in Hml.
      destruct (negb (st_uid sb =? getuid L)
                || negb (Z.land (st_mode sb) S_IRWXO =? 0)) eqn:Hc;
        [discriminate Hml |].
      destruct label as [lb|]; injection Hml as <- <-;
        (split; [reflexivity |]); state_simpl.
      * split; [reflexivity |]. eexists.
        apply (make_label_again lb (with_errno EEXIST s) sb); auto.
      * exact (mktemp_label (resolved_dir H L (fs s) dir)
                 (with_errno EEXIST s)).
    + destruct (mkdir_refused L (fs s) (runtime_dir H L s)) as [e|] eqn:Hre.
      * destruct (make_label_refused label s e Hfs Hre) as (s1 & E & _).
        rewrite E in Hml. discriminate Hml.
      * rewrite (make_label_created label s Hfs Hre) in Hml. cbv zeta in Hml.
        destruct (negb (fsuid L =? getuid L)) eqn:Hu; [discriminate Hml |].
        destruct label as [lb|]; injection Hml as <- <-;
          (split; [reflexivity |]); state_simpl.
        -- split; [reflexivity |]. eexists. fold dir.
           set (s1 := with_fs (<[dir := created_dir L]> (fs s)) s).
           apply (make_label_again lb s1 (created_dir L)).
           ++ unfold s1. rewrite runtime_dir_with_fs. state_simpl.
              apply lookup_insert_eq.
           ++ apply created_dir_mode.
           ++ unfold created_dir. cbn [st_uid st_mode]. rewrite Hu.
              destruct (created_dir_mode (Z.lnot (umask L))) as [_ ->].
              reflexivity.
        -- exact (mktemp_label
                    (resolved_dir H L (<[dir := created_dir L]> (fs s)) dir)
                    (with_fs (<[dir := created_dir L]> (fs s)) s)).
  - intros sb l Hfs Hdir Hu Hm. apply (make_label_again l s sb); auto.
    now rewrite Hu, Hm, Z.eqb_refl.
  - intros l Hfs Hre Hu. rewrite (make_label_created (Some l) s Hfs Hre).
    cbv zeta. now rewrite Hu, Z.eqb_refl.
Qed.

End Properties.

(** ** The theorems at work on the concrete platform *)

Lemma checkshell_rejects_and_accepts_witness :
  let s := initial_state ∅ ∅ in
  checkshell demo_libc (Some "/bin/bash") s = Ret true s
  /\ checkshell demo_libc (Some "/usr/local/bin/tmate") s = Ret false s
  /\ checkshell demo_libc (Some "bin/bash") s = Ret false s.
Proof.
  intros s.
  destruct (checkshell_rejects_and_accepts demo_libc s)
    as (_ & _ & Hrel & Hself & _ & _ & Hacc).
  split; [| split].
  - apply (Hacc "/bin/bash" "bash").
    + reflexivity.
    + split; [reflexivity |]. right. exists "/bin". reflexivity.
    + discriminate.
    + reflexivity.
  - apply (Hself "/usr/local/bin/tmate" "tmate").
    + split; [reflexivity |]. right. exists "/usr/local/bin". reflexivity.
    + reflexivity.
  - apply Hrel. reflexivity.
Defined.

Lemma getshell_precedence_witness :
  getshell linux_h demo_libc (initial_state vim_env ∅)
    = Ret (Some "/bin/zsh") (initial_state vim_env ∅)
  /\ getshell linux_h demo_libc (initial_state ∅ ∅)
    = Ret (Some "/bin/bash") (initial_state ∅ ∅).
Proof.
  split.
  - destruct (getshell_precedence linux_h demo_libc (initial_state vim_env ∅))
      as (Henv & _).
    apply Henv; vm_compute; reflexivity.
  - destruct (getshell_precedence linux_h demo_libc (initial_state ∅ ∅))
      as (_ & Hpw & _).
    apply (Hpw {| pw_shell := Some "/bin/bash"; pw_dir := Some "/home/u" |});
      vm_compute; reflexivity.
Defined.

Lemma tmate_load_cli_options_drains_witness :
  let s := with_session_name (Some "myname")
             (with_api_key (Some "secret") (initial_state ∅ ∅)) in
  main_getopt_loop linux_h demo_libc
    [getopt "k" "secret"; getopt "n" "myname"]
    {| v_path := None; v_label := None; v_shellcmd := None; v_flags := 0 |}
    (initial_state ∅ ∅)
  = Ret {| v_path := None; v_label := None; v_shellcmd := None;
           v_flags := 0 |} s
  /\ map hc_argv (headless (final_state (tmate_load_cli_options linux_h s)))
     = [["set-option"; "tmate-api-key"; "secret"];
        ["set-option"; "tmate-session-name"; "myname"]].
Proof.
  intros s. split; [reflexivity |].
  destruct (tmate_load_cli_options_drains linux_h demo_libc s)
    as (_ & s1 & E & Hh & _).
  rewrite E. cbn [final_state]. rewrite Hh. reflexivity.
Defined.

Lemma main_utf8_flag_witness :
  main_utf8 linux_h 0 (initial_state vim_env ∅)
    = Ret 0x10000 (initial_state vim_env ∅)
  /\ main_utf8 linux_h 0x20000 (initial_state (<["LANG" := "C"]> ∅) ∅)
    = Ret 0x20000 (initial_state (<["LANG" := "C"]> ∅) ∅)
  /\ main_utf8 linux_h 0 (initial_state inherited_env ∅)
    = Ret 0x10000 (initial_state inherited_env ∅).
Proof.
  split; [| split].
  - destruct (main_utf8_flag linux_h 0 (initial_state vim_env ∅))
      as (_ & Hloc & _).
    destruct (Hloc ltac:(vm_compute; reflexivity) "en_US.utf8"
                ltac:(vm_compute; reflexivity)) as (Hyes & _).
    apply Hyes. right. exists "en_US.", "utf8", "". split; reflexivity.
  - destruct (main_utf8_flag linux_h 0x20000
                (initial_state (<["LANG" := "C"]> ∅) ∅)) as (_ & Hloc & _).
    destruct (Hloc ltac:(vm_compute; reflexivity) "C"
                ltac:(vm_compute; reflexivity)) as (_ & Hno).
    apply Hno.
    intros [Hc | Hc]; apply strcasestr_spec in Hc; discriminate Hc.
  - destruct (main_utf8_flag linux_h 0 (initial_state inherited_env ∅))
      as (Htmux & _).
    apply (Htmux "/tmp/tmate-1000/work,4242,0"). vm_compute. reflexivity.
Defined.

Lemma socket_path_precedence_witness :
  socket_path
    (final_state
       (main linux_h demo_libc "tmate" [getopt "S" "/tmp/sock"] []
          (initial_state inherited_env ∅))) = Some "/tmp/sock"
  /\ socket_path
       (final_state
          (main linux_h demo_libc "tmate" [] []
             (initial_state inherited_env ∅))) = Some "/tmp/tmate-1000/work"
  /\ socket_path
       (final_state
          (main linux_h demo_libc "tmate" [getopt "L" "pair"] []
             (initial_state inherited_env ∅))) = Some "/tmp/tmate-1000/pair".
Proof.
  split; [| split].
  - set (st := main_startup linux_h demo_libc "tmate"
                 [getopt "S" "/tmp/sock"] [] (initial_state inherited_env ∅)).
    assert (Hs : st = Ret {| v_path := Some "/tmp/sock"; v_label := None;
                             v_shellcmd := None; v_flags := 0x30000 |}
                   (final_state st)) by (vm_compute; reflexivity).
    destruct (socket_path_precedence linux_h demo_libc _ _ _ _ _ _ Hs)
      as (HS & _).
    rewrite (HS "/tmp/sock" eq_refl). reflexivity.
  - set (st := main_startup linux_h demo_libc "tmate" [] []
                 (initial_state inherited_env ∅)).
    assert (Hs : st = Ret {| v_path := None; v_label := None;
                             v_shellcmd := None; v_flags := 0x30000 |}
                   (final_state st)) by (vm_compute; reflexivity).
    assert (Ht : env (final_state st) !! "TMUX"
                 = Some "/tmp/tmate-1000/work,4242,0")
      by (vm_compute; reflexivity).
    destruct (socket_path_precedence linux_h demo_libc _ _ _ _ _ _ Hs)
      as (_ & HT & _).
    destruct (HT eq_refl eq_refl _ Ht ltac:(discriminate) eq_refl)
      as (p & Hb & _ & Hm).
    rewrite <- (strcspn_before_first_comma _ _ Hb) in Hm.
    rewrite Hm. reflexivity.
  - set (st := main_startup linux_h demo_libc "tmate" [getopt "L" "pair"] []
                 (initial_state inherited_env ∅)).
    assert (Hs : st = Ret {| v_path := None; v_label := Some "pair";
                             v_shellcmd := None; v_flags := 0x30000 |}
                   (final_state st)) by (vm_compute; reflexivity).
    destruct (socket_path_precedence linux_h demo_libc _ _ _ _ _ _ Hs)
      as (_ & _ & HL & _).
    assert (Hl : last_optarg "L" [getopt "L" "pair"] <> None
                 \/ tmux_usable (final_state st) = false)
      by (left; discriminate).
    pose proof (HL eq_refl Hl) as Hm.
    apply (f_equal (fun o => socket_path (final_state o))) in Hm.
    eapply eq_trans; [exact Hm |]. vm_compute. reflexivity.
Defined.

Lemma usage_on_command_with_arguments_witness :
  main linux_h demo_libc "tmate" [getopt "c" "echo"] ["hi"; "ls"]
    (initial_state ∅ ∅)
  = Exit 1 (with_stderr [usage_text demo_libc] (initial_state ∅ ∅)).
Proof.
  destruct (usage_on_command_with_arguments linux_h demo_libc "tmate"
              [getopt "c" "echo"] ["hi"; "ls"]
              (initial_state ∅ ∅) (initial_state ∅ ∅)
              {| v_path := None; v_label := None;
                 v_shellcmd := Some "echo"; v_flags := 0x30000 |} "echo"
              eq_refl eq_refl eq_refl ltac:(discriminate)) as [Hm _].
  exact Hm.
Defined.

Lemma client_flags_256_utf8_witness :
  exists call s',
    main linux_h demo_libc "tmate" [getopt "C" ""] ["attach"]
      (initial_state (<["LANG" := "C"]> ∅) ∅) = Ret call s'
    /\ has_flag (cm_flags call) 0x20000 /\ has_flag (cm_flags call) 0x10000.
Proof.
  set (m := main linux_h demo_libc "tmate" [getopt "C" ""] ["attach"]
              (initial_state (<["LANG" := "C"]> ∅) ∅)).
  assert (Hm : m = Ret {| cm_argv := ["attach"]; cm_flags := 0x32000;
                          cm_shellcmd := None |} (final_state m))
    by (vm_compute; reflexivity).
  destruct (client_flags_256_utf8 linux_h demo_libc "tmate" [getopt "C" ""]
              ["attach"] (initial_state (<["LANG" := "C"]> ∅) ∅))
    as (Hflags & _).
  destruct (Hflags _ _ Hm) as [H2 Hu].
  eexists. eexists. split; [exact Hm |]. split; [exact H2 | exact Hu].
Defined.

Lemma editor_selects_keys_witness :
  let s2 := final_state
              (main_startup linux_h demo_libc "tmate" [] []
                 (initial_state vim_env ∅)) in
  tree_lookup (global_s_options s2) "status-keys" = Some (OptNumber 1)
  /\ tree_lookup (global_w_options s2) "mode-keys" = Some (OptNumber 1).
Proof.
  intros s2.
  set (st := main_startup linux_h demo_libc "tmate" [] []
               (initial_state vim_env ∅)).
  assert (Hs : st = Ret {| v_path := None; v_label := None;
                           v_shellcmd := None; v_flags := 0x30000 |}
                 (final_state st)) by (vm_compute; reflexivity).
  destruct (editor_selects_keys linux_h demo_libc _ _ _ _ _ _ Hs)
    as (Hset & _).
  destruct (Hset "/usr/bin/vim" "vim" ltac:(vm_compute; reflexivity))
    as (Hvi & _).
  - split; [reflexivity |]. right. exists "/usr/bin". reflexivity.
  - apply Hvi. exists "", "m". reflexivity.
Defined.

Lemma runtime_dir_check_witness :
  (exists s',
     make_label linux_h demo_libc (Some "pair")
       (initial_state ∅ foreign_dir_fs) = Ret None s'
     /\ errno s' = EACCES /\ fs s' = foreign_dir_fs)
  /\ (exists p s',
        make_label linux_h demo_libc (Some "pair")
          (initial_state ∅ group_dir_fs) = Ret (Some p) s'
        /\ fs s' = group_dir_fs).
Proof.
  split.
  - pose (sb := {| st_mode := Z.lor S_IFDIR S_IRWXU; st_uid := 0 |}).
    pose (s := initial_state ∅ foreign_dir_fs).
    assert (Hfs : fs s !! runtime_dir linux_h demo_libc s = Some sb)
      by (vm_compute; reflexivity).
    assert (Hdir : S_ISDIR (st_mode sb) = true) by (vm_compute; reflexivity).
    assert (Hbad0 : st_uid sb <> getuid demo_libc
                    \/ Z.land (st_mode sb) S_IRWXO <> 0)
      by (left; vm_compute; discriminate).
    pose proof (runtime_dir_check linux_h demo_libc (Some "pair") s sb
                  Hfs Hdir) as [Hbad _].
    destruct (Hbad Hbad0) as [(s' & Hml & He & Hf & _) _].
    exists s'. split; [exact Hml |]. split; [exact He | exact Hf].
  - pose (sb := {| st_mode := Z.lor S_IFDIR 0x1f8; st_uid := 1000 |}).
    pose (s := initial_state ∅ group_dir_fs).
    assert (Hfs : fs s !! runtime_dir linux_h demo_libc s = Some sb)
      by (vm_compute; reflexivity).
    assert (Hdir : S_ISDIR (st_mode sb) = true) by (vm_compute; reflexivity).
    assert (Hu : st_uid sb = getuid demo_libc) by (vm_compute; reflexivity).
    assert (Hm : Z.land (st_mode sb) S_IRWXO = 0)
      by (vm_compute; reflexivity).
    pose proof (runtime_dir_check linux_h demo_libc (Some "pair") s sb
                  Hfs Hdir) as [_ Hok].
    exact (Hok Hu Hm).
Defined.

(** An existing runtime directory of the user that its group may read and
    write (mode 0770) is accepted: the check of the specification, which
    also forbids access by the group, is not the check of line 154. *)
Lemma runtime_dir_check_as_stated_fails : ~ runtime_dir_check_as_stated.
Proof.
  intros Hc.
  pose (sb := {| st_mode := Z.lor S_IFDIR 0x1f8; st_uid := 1000 |}).
  pose (s := initial_state ∅ group_dir_fs).
  assert (Hfs : fs s !! runtime_dir linux_h demo_libc s = Some sb)
    by (vm_compute; reflexivity).
  assert (Hdir : S_ISDIR (st_mode sb) = true) by (vm_compute; reflexivity).
  assert (Hgrp : st_uid sb <> getuid demo_libc
                 \/ Z.land (st_mode sb) group_other_rw <> 0)
    by (right; vm_compute; discriminate).
  destruct (Hc linux_h demo_libc (Some "pair") s sb Hfs Hdir Hgrp)
    as (s' & Hml & _).
  vm_compute in Hml. discriminate Hml.
Qed.

Lemma make_label_path_witness :
  (exists s',
     make_label linux_h demo_libc (Some "pair") (initial_state ∅ ∅)
       = Ret (Some "/tmp/tmate-1000/pair") s'
     /\ exists s'',
          make_label linux_h demo_libc (Some "pair") s'
            = Ret (Some "/tmp/tmate-1000/pair") s'')
  /\ let s1 := final_state
                 (make_label linux_h demo_libc None (initial_state ∅ ∅)) in
     mktemp demo_libc "/tmp/tmate-1000/XXXXXX" s1
       = Ret "/tmp/tmate-1000/a1B2c3" s1
     /\ "/tmp/tmate-1000/a1B2c3" <> "/tmp/tmate-1000/default".
Proof.
  split.
  - destruct (make_label_path linux_h demo_libc (Some "pair")
                (initial_state ∅ ∅)) as (_ & _ & Hret & _ & Hnew).
    pose proof (Hnew "pair" ltac:(vm_compute; reflexivity) eq_refl eq_refl)
      as Hml.
    eexists. split; [exact Hml |].
    destruct (Hret _ _ Hml) as (_ & _ & s'' & Hagain).
    exists s''. exact Hagain.
  - intros s1.
    assert (Hm : make_label linux_h demo_libc None (initial_state ∅ ∅)
                 = Ret (Some "/tmp/tmate-1000/a1B2c3") s1)
      by (vm_compute; reflexivity).
    destruct (make_label_path linux_h demo_libc None (initial_state ∅ ∅))
      as (_ & _ & Hret & _).
    destruct (Hret _ _ Hm) as (_ & Hmk & _ & _ & Hnd).
    split; [exact Hmk | exact Hnd].
Defined.

(** Without [-L] the path does not end in "default": on this platform
    [mktemp] turns the template into "/tmp/tmate-1000/a1B2c3". *)
Lemma label_path_as_stated_fails : ~ label_path_as_stated.
Proof.
  intros Hc.
  set (m := make_label linux_h demo_libc None (initial_state ∅ ∅)).
  assert (Hm : m = Ret (Some "/tmp/tmate-1000/a1B2c3") (final_state m))
    by (vm_compute; reflexivity).
  apply Hc in Hm. vm_compute in Hm. discriminate Hm.
Qed.

(** ** Further properties of tmux.c *)

(** *** setblocking *)

Lemma nonblock_cleared (m : Z) :
  Z.land (Z.land m (Z.lnot O_NONBLOCK)) O_NONBLOCK = 0.
Proof.
  rewrite <- Z.land_assoc, (Z.land_comm (Z.lnot O_NONBLOCK)).
  rewrite Z.land_lnot_diag. apply Z.land_0_r.
Qed.

Lemma nonblock_others_set (m : Z) :
  Z.land (Z.lor m O_NONBLOCK) (Z.lnot O_NONBLOCK)
  = Z.land m (Z.lnot O_NONBLOCK).
Proof.
  rewrite Z.land_lor_distr_l, Z.land_lnot_diag. apply Z.lor_0_r.
Qed.

Lemma nonblock_others_cleared (m : Z) :
  Z.land (Z.land m (Z.lnot O_NONBLOCK)) (Z.lnot O_NONBLOCK)
  = Z.land m (Z.lnot O_NONBLOCK).
Proof. rewrite <- Z.land_assoc. now rewrite Z.land_diag. Qed.

Lemma nonneg_not_minus_one (m : Z) : 0 <= m -> (m =? -1) = false.
Proof. intros Hm. apply Z.eqb_neq. lia. Qed.

Lemma with_status_flags_twice (m1 m2 : gmap Z Z) (f : files) :
  with_status_flags m2 (with_status_flags m1 f) = with_status_flags m2 f.
Proof. reflexivity. Qed.

Lemma with_status_flags_same (f : files) :
  with_status_flags (status_flags f) f = f.
Proof. now destruct f. Qed.

Lemma setblocking_open (fd st : Z) (f : files) (d m : Z) :
  descriptors f !! fd = Some d -> status_flags f !! d = Some m -> 0 <= m ->
  setblocking fd st f =
  if bool_decide (d ∈ setfl_refused f) then f
  else with_status_flags
         (<[d := if st =? 0 then Z.lor m O_NONBLOCK
                 else Z.land m (Z.lnot O_NONBLOCK)]> (status_flags f)) f.
Proof.
  intros Hfd Hd Hm. unfold setblocking, fcntl_getfl, fcntl_setfl.
  rewrite Hfd, Hd, (nonneg_not_minus_one m Hm). cbn [negb].
  now destruct (bool_decide (d ∈ setfl_refused f)).
Qed.

Lemma setblocking_mode_nonneg (st m : Z) :
  0 <= m ->
  0 <= (if st =? 0 then Z.lor m O_NONBLOCK
        else Z.land m (Z.lnot O_NONBLOCK)).
Proof.
  intros Hm. destruct (st =? 0).
  - apply Z.lor_nonneg. split; [exact Hm | discriminate].
  - apply Z.land_nonneg. now left.
Qed.

Lemma setblocking_descriptors (fd st : Z) (f : files) :
  descriptors (setblocking fd st f) = descriptors f
  /\ setfl_refused (setblocking fd st f) = setfl_refused f.
Proof.
  unfold setblocking, fcntl_setfl.
  destruct (negb (fcntl_getfl f fd =? -1)); [| now split].
  destruct (descriptors f !! fd) as [d|]; [| now split].
  now destruct (bool_decide (d ∈ setfl_refused f)).
Qed.

(** [setblocking(fd, state)] on an open descriptor on which [F_SETFL]
    succeeds sets [O_NONBLOCK] in the status flags when [state] is 0 and
    clears it otherwise, and leaves every other status bit as it was.
    Where [F_SETFL] fails, the failure is not looked at: the open files
    stay as they were, the flag is not changed, and the caller is not
    told. *)
Theorem setblocking_sets_flag (fd st : Z) (f : files) (d m : Z) :
  descriptors f !! fd = Some d -> status_flags f !! d = Some m -> 0 <= m ->
  (d ∈ setfl_refused f ->
     setblocking fd st f = f /\ fcntl_getfl (setblocking fd st f) fd = m)
  /\ (d ∉ setfl_refused f ->
      exists m',
        fcntl_getfl (setblocking fd st f) fd = m'
        /\ 0 <= m'
        /\ (st = 0 -> has_flag m' O_NONBLOCK)
        /\ (st <> 0 -> Z.land m' O_NONBLOCK = 0)
        /\ Z.land m' (Z.lnot O_NONBLOCK) = Z.land m (Z.lnot O_NONBLOCK)).
Proof.
  intros Hfd Hd Hm. rewrite (setblocking_open fd st f d m Hfd Hd Hm).
  split; intros Hr.
  - rewrite (bool_decide_eq_true_2 _ Hr). split; [reflexivity |].
    unfold fcntl_getfl. now rewrite Hfd, Hd.
  - rewrite (bool_decide_eq_false_2 _ Hr). eexists. split.
    { unfold fcntl_getfl. cbn [descriptors status_flags with_status_flags].
      rewrite Hfd, lookup_insert_eq. reflexivity. }
    split; [now apply setblocking_mode_nonneg |].
    destruct (st =? 0) eqn:Hst.
    + apply Z.eqb_eq in Hst. repeat split.
      * intros _. apply has_flag_lor_r.
      * intros Hn. contradiction.
      * apply nonblock_others_set.
    + apply Z.eqb_neq in Hst. repeat split.
      * intros Hz. contradiction.
      * intros _. apply nonblock_cleared.
      * apply nonblock_others_cleared.
Qed.

(** Of two calls of [setblocking] on the same open descriptor only the
    second counts; and making a blocking descriptor non-blocking and
    blocking again gives back the open files it started from. Both hold
    whether [F_SETFL] succeeds on the descriptor or not, and whether or
    not other descriptors share its open file description. *)
Theorem setblocking_last_call_wins (fd a b : Z) (f : files) (d m : Z) :
  descriptors f !! fd = Some d -> status_flags f !! d = Some m -> 0 <= m ->
  setblocking fd b (setblocking fd a f) = setblocking fd b f
  /\ (Z.land m O_NONBLOCK = 0 -> b <> 0 ->
      setblocking fd b (setblocking fd 0 f) = f).
Proof.
  intros Hfd Hd Hm.
  assert (Hlast : forall a, setblocking fd b (setblocking fd a f)
                            = setblocking fd b f).
  { intros a'. rewrite (setblocking_open fd a' f d m Hfd Hd Hm).
    destruct (bool_decide (d ∈ setfl_refused f)) eqn:Hr; [reflexivity |].
    set (ma := if a' =? 0 then Z.lor m O_NONBLOCK
               else Z.land m (Z.lnot O_NONBLOCK)).
    set (f1 := with_status_flags (<[d := ma]> (status_flags f)) f).
    assert (Hfd1 : descriptors f1 !! fd = Some d) by exact Hfd.
    assert (Hd1 : status_flags f1 !! d = Some ma) by apply lookup_insert_eq.
    rewrite (setblocking_open fd b f1 d ma Hfd1 Hd1
               (setblocking_mode_nonneg a' m Hm)).
    subst f1 ma.
    rewrite (setblocking_open fd b f d m Hfd Hd Hm).
    cbn [setfl_refused status_flags with_status_flags]. rewrite Hr.
    rewrite insert_insert_eq, with_status_flags_twice. do 2 f_equal.
    destruct (b =? 0), (a' =? 0).
    - rewrite <- Z.lor_assoc. now rewrite Z.lor_diag.
    - apply Z.bits_inj'. intros n Hn.
      rewrite !Z.lor_spec, Z.land_spec, Z.lnot_spec by exact Hn.
      destruct (Z.testbit m n), (Z.testbit O_NONBLOCK n); reflexivity.
    - apply nonblock_others_set.
    - apply nonblock_others_cleared. }
  split; [apply Hlast |].
  intros Hclear Hb.
  rewrite Hlast, (setblocking_open fd b f d m Hfd Hd Hm).
  destruct (bool_decide (d ∈ setfl_refused f)); [reflexivity |].
  apply Z.eqb_neq in Hb. rewrite Hb.
  rewrite <- (with_status_flags_same f) at 3. f_equal.
  apply insert_id. rewrite Hd. f_equal.
  apply Z.bits_inj'. intros n Hn.
  rewrite Z.land_spec, Z.lnot_spec by exact Hn.
  assert (Hbit : Z.testbit (Z.land m O_NONBLOCK) n = false)
    by (rewrite Hclear; apply Z.bits_0).
  rewrite Z.land_spec in Hbit.
  destruct (Z.testbit m n), (Z.testbit O_NONBLOCK n);
    try reflexivity; discriminate Hbit.
Qed.

(** [setblocking] changes nothing when the descriptor is not open
    ([fcntl] fails) and neither opens nor closes a descriptor. The
    descriptors of every other open file description keep their status
    flags; a descriptor that shares the open file description of [fd]
    (after [dup], or descriptors 0 to 2 of one terminal) has the status
    flags of [fd] after the call, so it changes along. *)
Theorem setblocking_elsewhere (fd st : Z) (f : files) :
  (descriptors f !! fd = None -> setblocking fd st f = f)
  /\ descriptors (setblocking fd st f) = descriptors f
  /\ dom (status_flags (setblocking fd st f)) = dom (status_flags f)
  /\ (forall fd', descriptors f !! fd' <> descriptors f !! fd ->
        fcntl_getfl (setblocking fd st f) fd' = fcntl_getfl f fd')
  /\ (forall fd', descriptors f !! fd' = descriptors f !! fd ->
        fcntl_getfl (setblocking fd st f) fd'
        = fcntl_getfl (setblocking fd st f) fd).
Proof.
  split; [| split; [| split; [| split]]].
  - intros Hfd. unfold setblocking, fcntl_getfl. now rewrite Hfd.
  - apply setblocking_descriptors.
  - unfold setblocking, fcntl_getfl, fcntl_setfl.
    destruct (descriptors f !! fd) as [d|]; [| reflexivity].
    destruct (status_flags f !! d) as [m|] eqn:Hd; [| reflexivity].
    destruct (negb (m =? -1)); [| reflexivity].
    destruct (bool_decide (d ∈ setfl_refused f)); [reflexivity |].
    cbn [snd status_flags with_status_flags]. rewrite dom_insert_L.
    apply (elem_of_dom_2 (D := gset Z)) in Hd.
    apply subseteq_union_1_L. now apply singleton_subseteq_l.
  - intros fd'. unfold setblocking, fcntl_setfl.
    destruct (negb (fcntl_getfl f fd =? -1)); [| reflexivity].
    destruct (descriptors f !! fd) as [d|]; [| reflexivity].
    destruct (bool_decide (d ∈ setfl_refused f)); [reflexivity |].
    unfold fcntl_getfl. cbn [snd descriptors status_flags with_status_flags].
    destruct (descriptors f !! fd') as [d'|]; [| reflexivity].
    intros Hne. rewrite lookup_insert_ne; [reflexivity | congruence].
  - intros fd' Heq. unfold fcntl_getfl.
    rewrite (proj1 (setblocking_descriptors fd st f)). now rewrite Heq.
Qed.

Section Further.

Variable H : tmux_h.
Variable L : libc.

Import CString.

(** *** One turn of the option loop *)

Lemma main_switch_V (o : getopt_result) (l : locals) (s : state) :
  opt o = "V"%char ->
  exists s',
    main_switch H L o l s = Exit 0 s'
    /\ stdout s' = (stdout s ++ version_lines H L)%list
    /\ stderr s' = stderr s /\ fs s' = fs s /\ env s' = env s
    /\ errno s' = errno s /\ socket_path s' = socket_path s
    /\ global_environ s' = global_environ s
    /\ global_options s' = global_options s
    /\ global_s_options s' = global_s_options s
    /\ global_w_options s' = global_w_options s.
Proof.
  destruct o as [c a d]. cbn [opt]. intros ->.
  unfold main_switch, printf. cbn [opt]. run.
  eexists. split; [reflexivity |]. state_simpl.
  unfold version_lines. rewrite <- List.app_assoc. repeat split.
Qed.

Lemma main_switch_classes (o : getopt_result) (l : locals) (s : state) :
  (mem (opt o) continuing_options = true /\
   exists l' s', main_switch H L o l s = Ret l' s')
  \/ opt o = "V"%char
  \/ (mem (opt o) continuing_options = false /\ opt o <> "V"%char /\
      main_switch H L o l s
      = Exit 1 (with_stderr (stderr s ++ [usage_text L])%list s)).
Proof.
  destruct o as [c a d]. cbn [opt].
  destruct c as [[] [] [] [] [] [] [] []];
    try (right; left; reflexivity);
    try (right; right; split; [reflexivity |];
         split; [discriminate | reflexivity]);
    left; (split; [reflexivity |]);
    unfold main_switch, set_cfg_file, log_add_level, unsetenv;
    cbn [opt optarg]; run;
    try (destruct (test_mask (v_flags l) (CLIENT_CONTROL H)));
    eexists; eexists; reflexivity.
Qed.

(** The option loop goes on exactly for the letters
    2 c C f l L q S u v F k n r a. [-V] prints the two version lines and
    exits with status 0. Every other result of [getopt], among them
    [-h], the letters [d] and [U] that the option string accepts, and
    the question mark of an unknown option, ends in the usage text on
    standard error and exit status 1. *)
Theorem main_switch_outcomes (o : getopt_result) (l : locals) (s : state) :
  (mem (opt o) continuing_options = true <->
   exists l' s', main_switch H L o l s = Ret l' s')
  /\ (opt o = "V"%char <-> exists s', main_switch H L o l s = Exit 0 s')
  /\ (mem (opt o) continuing_options = false -> opt o <> "V"%char ->
      main_switch H L o l s
      = Exit 1 (with_stderr (stderr s ++ [usage_text L])%list s))
  /\ main_switch H L (getopt "h" "") l s
     = Exit 1 (with_stderr (stderr s ++ [usage_text L])%list s)
  /\ main_switch H L (getopt "d" "") l s
     = Exit 1 (with_stderr (stderr s ++ [usage_text L])%list s)
  /\ main_switch H L (getopt "U" "") l s
     = Exit 1 (with_stderr (stderr s ++ [usage_text L])%list s)
  /\ main_switch H L (getopt "?" "") l s
     = Exit 1 (with_stderr (stderr s ++ [usage_text L])%list s).
Proof.
  split; [| split; [| split; [| repeat split]]].
  - destruct (main_switch_classes o l s)
      as [[Hm Hr] | [Hv | (Hm & Hv & He)]].
    + tauto.
    + destruct (main_switch_V o l s Hv) as (s' & E & _). rewrite E, Hv.
      split; [discriminate | intros (l' & s1 & Hr); discriminate Hr].
    + rewrite He, Hm.
      split; [discriminate | intros (l' & s1 & Hr); discriminate Hr].
  - destruct (main_switch_classes o l s)
      as [[Hm (l' & s1 & Hr)] | [Hv | (Hm & Hv & He)]].
    + rewrite Hr. split; [| intros (s' & E); discriminate E].
      intros Hv. rewrite Hv in Hm. discriminate Hm.
    + destruct (main_switch_V o l s Hv) as (s' & E & _).
      split; [intros _; now exists s' | intros _; exact Hv].
    + rewrite He. split; [contradiction | intros (s' & E); discriminate E].
  - intros Hm Hv.
    destruct (main_switch_classes o l s)
      as [[Hm' _] | [Hv' | (_ & _ & He)]]; [congruence | contradiction |].
    exact He.
Qed.

(** What one turn that goes on does to the globals and to the flags. *)
Lemma main_switch_more (o : getopt_result) (l l' : locals) (s s' : state) :
  main_switch H L o l s = Ret l' s' ->
  stdout s' = stdout s
  /\ log_level s' =
       ((if Ascii.eqb (opt o) "v" then 1 else 0)
        + (if Ascii.eqb (opt o) "F" then 1 else 0) + log_level s)%nat
  /\ tmate_foreground s' =
       (if Ascii.eqb (opt o) "F" then 1 else tmate_foreground s)
  /\ cfg_file s' =
       (if Ascii.eqb (opt o) "f" then Some (optarg o) else cfg_file s)
  /\ api_key s' =
       (if Ascii.eqb (opt o) "k" then Some (optarg o) else api_key s)
  /\ session_name s' =
       (if Ascii.eqb (opt o) "n" then Some (optarg o) else session_name s)
  /\ session_name_ro s' =
       (if Ascii.eqb (opt o) "r" then Some (optarg o)
        else session_name_ro s)
  /\ authorized_keys s' =
       (if Ascii.eqb (opt o) "a" then Some (optarg o)
        else authorized_keys s)
  /\ env s' =
       (if Ascii.eqb (opt o) "F" then delete "TMUX" (env s) else env s)
  /\ v_flags l' =
       (if Ascii.eqb (opt o) "2"
        then Z.lor (v_flags l) (CLIENT_256COLOURS H)
        else if Ascii.eqb (opt o) "u"
        then Z.lor (v_flags l) (CLIENT_UTF8 H)
        else if Ascii.eqb (opt o) "l"
        then Z.lor (v_flags l) (CLIENT_LOGIN H)
        else if Ascii.eqb (opt o) "C"
        then (if test_mask (v_flags l) (CLIENT_CONTROL H)
              then Z.lor (v_flags l) (CLIENT_CONTROLCONTROL H)
              else Z.lor (v_flags l) (CLIENT_CONTROL H))
        else v_flags l).
Proof.
  unfold main_switch, usage, fprintf_stderr, printf, set_cfg_file,
    log_add_level, unsetenv.
  destruct o as [c a d]. cbn [opt optarg].
  destruct c as [[] [] [] [] [] [] [] []]; run;
    try discriminate;
    try (destruct (test_mask (v_flags l) (CLIENT_CONTROL H)));
    intros [= <- <-]; repeat split.
Qed.

(** *** The option loop as a whole *)

Lemma main_getopt_loop_app (pre post : list getopt_result) (l : locals)
    (s : state) :
  main_getopt_loop H L (pre ++ post) l s =
  match main_getopt_loop H L pre l s with
  | Ret l1 s1 => main_getopt_loop H L post l1 s1
  | Exit code s1 => Exit code s1
  end.
Proof.
  revert l s. induction pre as [|o pre IH]; intros l s; [reflexivity |].
  cbn [app]. destruct (Ascii.eqb (opt o) "?") eqn:Eq.
  { apply Ascii.eqb_eq in Eq.
    now rewrite !main_getopt_loop_rejected by exact Eq. }
  apply Ascii.eqb_neq in Eq. rewrite !main_getopt_loop_cons by exact Eq.
  destruct (main_switch H L o l s) as [l1 s1|]; [apply IH | reflexivity].
Qed.

Lemma main_getopt_loop_total (opts : list getopt_result) (l : locals)
    (s : state) :
  (forall o, In o opts -> mem (opt o) continuing_options = true) ->
  exists l' s', main_getopt_loop H L opts l s = Ret l' s'.
Proof.
  revert l s. induction opts as [|o opts IH]; intros l s Hall.
  - now exists l, s.
  - assert (Ho : opt o <> "?"%char).
    { intros He. specialize (Hall o (or_introl eq_refl)).
      rewrite He in Hall. discriminate Hall. }
    rewrite main_getopt_loop_cons by exact Ho.
    destruct (main_switch_classes o l s)
      as [[_ (l1 & s1 & Hr)] | [Hv | (Hm & _)]].
    + rewrite Hr. apply IH. intros o' Ho'. apply Hall. now right.
    + specialize (Hall o (or_introl eq_refl)). rewrite Hv in Hall.
      discriminate Hall.
    + specialize (Hall o (or_introl eq_refl)). congruence.
Qed.

Lemma main_getopt_loop_exit (opts : list getopt_result) (l : locals)
    (s s' : state) (code : Z) :
  main_getopt_loop H L opts l s = Exit code s' ->
  exists pre o post l1 s1,
    opts = (pre ++ o :: post)%list
    /\ main_getopt_loop H L pre l s = Ret l1 s1
    /\ ((opt o <> "?"%char /\ main_switch H L o l1 s1 = Exit code s')
        \/ (opt o = "?"%char /\ code = 1
            /\ s' = with_stderr
                      (stderr s1 ++ [diagnostic o; usage_text L])%list s1)).
Proof.
  revert l s. induction opts as [|o opts IH]; intros l s; [discriminate |].
  destruct (Ascii.eqb (opt o) "?") eqn:Eq.
  { apply Ascii.eqb_eq in Eq. rewrite main_getopt_loop_rejected by exact Eq.
    intros [= <- <-]. exists [], o, opts, l, s. repeat split. right. auto. }
  apply Ascii.eqb_neq in Eq. rewrite main_getopt_loop_cons by exact Eq.
  destruct (main_switch H L o l s) as [l1 s1|c1 s1] eqn:E.
  - intros Hx. destruct (IH _ _ Hx) as (pre & o' & post & l2 & s2 & -> & Hp & Ho).
    exists (o :: pre), o', post, l2, s2. split; [reflexivity |].
    split; [| exact Ho]. cbn [app].
    rewrite main_getopt_loop_cons by exact Eq. rewrite E. exact Hp.
  - intros [= <- <-]. exists [], o, opts, l, s. repeat split. left. auto.
Qed.

Lemma main_getopt_loop_more (opts : list getopt_result) (l l' : locals)
    (s s' : state) :
  main_getopt_loop H L opts l s = Ret l' s' ->
  stdout s' = stdout s
  /\ log_level s' =
       (count_opt "v" opts + count_opt "F" opts + log_level s)%nat
  /\ tmate_foreground s' =
       (if (0 <? count_opt "F" opts)%nat then 1 else tmate_foreground s)
  /\ cfg_file s' = match last_optarg "f" opts with
                   | Some a => Some a
                   | None => cfg_file s
                   end
  /\ api_key s' = match last_optarg "k" opts with
                  | Some a => Some a
                  | None => api_key s
                  end
  /\ session_name s' = match last_optarg "n" opts with
                       | Some a => Some a
                       | None => session_name s
                       end
  /\ session_name_ro s' = match last_optarg "r" opts with
                          | Some a => Some a
                          | None => session_name_ro s
                          end
  /\ authorized_keys s' = match last_optarg "a" opts with
                          | Some a => Some a
                          | None => authorized_keys s
                          end
  /\ env s' = env_after opts (env s)
  /\ (forall o, In o opts -> mem (opt o) continuing_options = true).
Proof.
  revert l s. induction opts as [|o opts IH]; intros l s.
  - intros [= <- <-]. repeat split. intros o [].
  - intros Hl0.
    apply main_getopt_loop_cons_ret in Hl0 as (_ & l1 & s1 & E & Hl0).
    revert Hl0.
    intros Hl.
    assert (Hcont : mem (opt o) continuing_options = true).
    { destruct (main_switch_classes o l s)
        as [[Hm _] | [Hv | (_ & _ & He)]]; [exact Hm | |].
      - destruct (main_switch_V o l s Hv) as (sx & Ex & _). congruence.
      - congruence. }
    apply main_switch_more in E
      as (So & Lv & Fg & Cf & Ak & Sn & Sr & Au & En & _).
    apply IH in Hl
      as (So2 & Lv2 & Fg2 & Cf2 & Ak2 & Sn2 & Sr2 & Au2 & En2 & All2).
    rewrite So2, Lv2, Fg2, Cf2, Ak2, Sn2, Sr2, Au2, En2.
    rewrite So, Lv, Fg, Cf, Ak, Sn, Sr, Au, En.
    unfold env_after. cbn [count_opt last_optarg].
    repeat split.
    + destruct (Ascii.eqb (opt o) "v"), (Ascii.eqb (opt o) "F"); lia.
    + destruct (Ascii.eqb (opt o) "F"); [| reflexivity].
      now destruct (0 <? count_opt "F" opts)%nat.
    + destruct (last_optarg "f" opts); [reflexivity |].
      now destruct (Ascii.eqb (opt o) "f").
    + destruct (last_optarg "k" opts); [reflexivity |].
      now destruct (Ascii.eqb (opt o) "k").
    + destruct (last_optarg "n" opts); [reflexivity |].
      now destruct (Ascii.eqb (opt o) "n").
    + destruct (last_optarg "r" opts); [reflexivity |].
      now destruct (Ascii.eqb (opt o) "r").
    + destruct (last_optarg "a" opts); [reflexivity |].
      now destruct (Ascii.eqb (opt o) "a").
    + destruct (Ascii.eqb (opt o) "F"); [| reflexivity].
      change (0 <? 1 + count_opt "F" opts)%nat with true.
      destruct (0 <? count_opt "F" opts)%nat; [| reflexivity].
      apply delete_delete_eq.
    + intros o' [<- | Ho']; [exact Hcont | now apply All2].
Qed.

(** *** The steps after the loop, in full *)

Lemma main_options_effect (s : state) :
  exists s',
    main_options H L s = Ret tt s'
    /\ same_but_trees s s'
    /\ global_environ s' = Some (environ_copy L (env s))
    /\ global_options s' = Some (OPTIONS_TABLE_SERVER H)
    /\ global_s_options s' =
         Some (<["default-shell" :=
                   OptString (fmt_s (getshell_value H L (env s) (fs s)))]>
                 (OPTIONS_TABLE_SESSION H))
    /\ global_w_options s' = Some (OPTIONS_TABLE_WINDOW H).
Proof.
  unfold main_options, environ_copy, same_but_trees. run.
  destruct (getcwd L); rewrite getshell_run; state_simpl;
    eexists; (split; [reflexivity |]); state_simpl; repeat split.
Qed.

Lemma main_keys_effect (s s' : state) :
  main_keys H s = Ret tt s' ->
  same_but_trees s s'
  /\ global_environ s' = global_environ s
  /\ global_options s' = global_options s
  /\ tree_lookup (global_s_options s') "default-shell"
     = tree_lookup (global_s_options s) "default-shell".
Proof.
  rewrite main_keys_run. intros [= <-]. unfold same_but_trees.
  destruct (inspected_editor (env s)); cbv zeta; state_simpl;
    repeat split.
  destruct (global_s_options s); [| reflexivity].
  cbn [tree_lookup fmap option_fmap option_map].
  now rewrite lookup_insert_ne.
Qed.

Lemma make_label_refused_eq (label : option string) (s : state) (e : Z) :
  fs s !! runtime_dir H L s = None ->
  mkdir_refused L (fs s) (runtime_dir H L s) = Some e ->
  make_label H L label s =
  Ret None (if e =? EEXIST then with_errno ENOENT (with_errno e s)
            else with_errno e s).
Proof.
  unfold runtime_dir. intros Hfs Hre.
  unfold make_label, getenv, mkdir, lstat. run.
  rewrite Hfs, Hre. state_simpl.
  destruct (e =? EEXIST); simpl; [| reflexivity].
  state_simpl. now rewrite Hfs.
Qed.

(** [make_label] always returns; apart from [errno] it changes at most
    the file system, and there only by creating the runtime directory. *)
Lemma make_label_effect (label : option string) (s : state) :
  exists r s',
    make_label H L label s = Ret r s'
    /\ same_but_fs_errno s s'
    /\ (fs s' = fs s
        \/ (fs s !! runtime_dir H L s = None
            /\ mkdir_refused L (fs s) (runtime_dir H L s) = None
            /\ fs s' = <[runtime_dir H L s := created_dir L]> (fs s))).
Proof.
  unfold same_but_fs_errno.
  destruct (fs s !! runtime_dir H L s) as [sb|] eqn:Hfs.
  - rewrite (make_label_existing H L label s sb Hfs). cbv zeta.
    destruct (negb (S_ISDIR (st_mode sb)));
      [eexists; eexists; split; [reflexivity |]; state_simpl;
       split; [repeat split | now left] |].
    destruct (negb (st_uid sb =? getuid L)
              || negb (Z.land (st_mode sb) S_IRWXO =? 0));
      [eexists; eexists; split; [reflexivity |]; state_simpl;
       split; [repeat split | now left] |].
    destruct label; eexists; eexists; (split; [reflexivity |]);
      state_simpl; (split; [repeat split | now left]).
  - destruct (mkdir_refused L (fs s) (runtime_dir H L s)) as [e|] eqn:Hre.
    + rewrite (make_label_refused_eq label s e Hfs Hre).
      destruct (e =? EEXIST); eexists; eexists; (split; [reflexivity |]);
        state_simpl; (split; [repeat split | now left]).
    + rewrite (make_label_created H L label s Hfs Hre). cbv zeta.
      destruct (negb (fsuid L =? getuid L));
        [eexists; eexists; split; [reflexivity |]; state_simpl;
         split; [repeat split | right; repeat split] |].
      destruct label; eexists; eexists; (split; [reflexivity |]);
        state_simpl; (split; [repeat split | right; repeat split]).
Qed.

Lemma main_socket_effect (path label : option string) (s : state) :
  (exists p s', main_socket H L path label s = Ret p s'
                /\ same_but_fs_errno s s')
  \/ (exists s', main_socket H L path label s = Exit 1 s'
                 /\ stdout s' = stdout s /\ socket_path s' = socket_path s
                 /\ exists e, stderr s'
                              = (stderr s ++ [cant_create_socket L e])%list).
Proof.
  assert (Hrefl : same_but_fs_errno s s) by (unfold same_but_fs_errno; repeat split).
  destruct path as [p|].
  - left. exists p, s. split; [reflexivity | exact Hrefl].
  - destruct (not_null label || negb (tmux_usable s)) eqn:Hroute.
    + assert (Hor : label <> None \/ tmux_usable s = false).
      { destruct label; [left; discriminate |]. right.
        cbn [not_null orb] in Hroute. now destruct (tmux_usable s). }
      rewrite (main_socket_label H L label s Hor).
      destruct (make_label_effect label s) as (r & s' & E & F & _).
      rewrite E. destruct r as [p|].
      * left. exists p, s'. split; [reflexivity | exact F].
      * right. eexists. split; [reflexivity |]. state_simpl.
        destruct F as (_ & So & Se & _ & _ & _ & _ & _ & _ & _ & _ & _ & _
                       & _ & _ & Sp).
        rewrite Se. repeat split; auto. now exists (errno s').
    + destruct label; [discriminate Hroute |]. cbn [not_null orb] in Hroute.
      unfold tmux_usable in Hroute.
      destruct (env s !! "TMUX") as [v|] eqn:Ht; [| discriminate Hroute].
      apply negb_false_iff, andb_true_iff in Hroute as [He Hc].
      apply negb_true_iff in He, Hc.
      left. eexists. exists s. split; [| exact Hrefl].
      apply (main_socket_tmux H L v s Ht He Hc).
Qed.

#[local] Arguments main_locale : simpl never.
#[local] Arguments main_getopt_loop : simpl never.
#[local] Arguments main_utf8 : simpl never.
#[local] Arguments main_options : simpl never.
#[local] Arguments main_keys : simpl never.
#[local] Arguments main_socket : simpl never.
#[local] Arguments main_startup : simpl never.
#[local] Arguments make_label : simpl never.
#[local] Arguments usage : simpl never.
#[local] Arguments usage_text : simpl never.

(** *** main from end to end *)

(** Every hand-over to [client_main] has gone through all the steps. *)
Lemma main_ret_inv (argv0 : string) (opts : list getopt_result)
    (args : list string) (s s' : state) (call : client_main_call) :
  main H L argv0 opts args s = Ret call s' ->
  exists l1 s1 s2 s3 s4 flags p,
    main_locale L s = Ret tt s
    /\ main_getopt_loop H L opts (initial_locals H argv0) s = Ret l1 s1
    /\ not_null (v_shellcmd l1) && negb (length args =? 0)%nat = false
    /\ main_utf8 H (v_flags l1) s1 = Ret flags s1
    /\ main_options H L s1 = Ret tt s2
    /\ main_keys H s2 = Ret tt s3
    /\ main_socket H L (v_path l1) (v_label l1) s3 = Ret p s4
    /\ s' = with_socket_path (Some p) s4
    /\ call = {| cm_argv := args; cm_flags := flags;
                 cm_shellcmd := v_shellcmd l1 |}.
Proof.
  unfold main. run.
  destruct (main_startup H L argv0 opts args s) as [l s3|] eqn:Hs;
    [| discriminate].
  destruct (main_socket H L (v_path l) (v_label l) s3) as [p s4|] eqn:Hk;
    [| discriminate].
  intros [= <- <-].
  apply main_startup_inv in Hs
    as (l1 & s1 & s2 & Hloc & Hloop & Hc & Hu & Hl & Ho & Hkeys).
  exists l1, s1, s2, s3, s4, (v_flags l), p.
  rewrite Hl in Hk. cbn [v_path v_label set_v_flags] in Hk.
  repeat split; auto. rewrite Hl at 2. reflexivity.
Qed.

(** Every exit of [main] is one of four: the locale, an option, the
    usage error of line 336, the socket directory. *)
Lemma main_exit_inv (argv0 : string) (opts : list getopt_result)
    (args : list string) (s s' : state) (code : Z) :
  main H L argv0 opts args s = Exit code s' ->
  main_locale L s = Exit code s'
  \/ (main_locale L s = Ret tt s
      /\ main_getopt_loop H L opts (initial_locals H argv0) s
         = Exit code s')
  \/ (exists l1 s1,
        main_locale L s = Ret tt s
        /\ main_getopt_loop H L opts (initial_locals H argv0) s = Ret l1 s1
        /\ not_null (v_shellcmd l1) && negb (length args =? 0)%nat = true
        /\ code = 1
        /\ s' = with_stderr (stderr s1 ++ [usage_text L])%list s1)
  \/ (exists l1 s1 s2 s3,
        main_locale L s = Ret tt s
        /\ main_getopt_loop H L opts (initial_locals H argv0) s = Ret l1 s1
        /\ main_options H L s1 = Ret tt s2
        /\ main_keys H s2 = Ret tt s3
        /\ main_socket H L (v_path l1) (v_label l1) s3 = Exit code s').
Proof.
  unfold main, main_startup, initial_locals. run.
  destruct (main_locale_cases L s) as [E | [sx E]]; rewrite E.
  2:{ intros [= <- <-]. now left. }
  destruct (main_getopt_loop H L opts _ s) as [l1 s1|c1 sx] eqn:Hloop.
  2:{ intros [= <- <-]. right. left. now split. }
  destruct (not_null (v_shellcmd l1) && negb (length args =? 0)%nat) eqn:Hc.
  { rewrite usage_run. intros [= <- <-]. right. right. left.
    exists l1, s1. repeat split; auto. }
  destruct (main_utf8_ret H (v_flags l1) s1) as (flags & Eu & _). rewrite Eu.
  destruct (main_options_effect s1) as (s2 & Eo & _). rewrite Eo.
  rewrite main_keys_run. cbn [v_path v_label set_v_flags].
  match goal with
  | |- context [main_socket H L _ _ ?st] => set (s3 := st)
  end.
  destruct (main_socket H L (v_path l1) (v_label l1) s3) as [p s4|c4 s4]
    eqn:Hk; [discriminate |].
  intros [= <- <-]. right. right. right.
  exists l1, s1, s2, s3. repeat split; auto.
  apply main_keys_run.
Qed.

Lemma main_locale_run (s : state) :
  main_locale L s =
  if locale_ok L (env s) then Ret tt s
  else
    Exit 1
      (with_stderr
         (stderr s ++
          [__progname L +:+ ": "
           +:+ (if negb (setlocale_ctype L (env s) "")
                then "invalid LC_ALL, LC_CTYPE or LANG"
                else "need UTF-8 locale (LC_CTYPE) but have "
                     +:+ nl_langinfo_codeset L (env s))
           +:+ nl])%list s).
Proof.
  unfold main_locale, locale_ok, errx, fprintf_stderr. run.
  destruct (setlocale_ctype L (env s) "en_US.UTF-8"); [reflexivity |].
  destruct (setlocale_ctype L (env s) "C.UTF-8"); [reflexivity |].
  destruct (setlocale_ctype L (env s) ""); [| reflexivity].
  destruct (strcaseeq (nl_langinfo_codeset L (env s)) "UTF-8");
    [reflexivity |].
  destruct (strcaseeq (nl_langinfo_codeset L (env s)) "UTF8"); reflexivity.
Qed.

(** [main] goes past lines 245-252 exactly when [en_US.UTF-8] or
    [C.UTF-8] can be selected, or the locale of the environment can and
    its codeset is UTF-8 or UTF8 in any letter case. Otherwise it writes
    one line, the program name and the reason, to standard error and
    exits with status 1 whatever the options are: not even [-V] prints
    then. *)
Theorem locale_failure_is_fatal (argv0 : string) (opts : list getopt_result)
    (args : list string) (s : state) :
  (locale_ok L (env s) = true <-> main_locale L s = Ret tt s)
  /\ (locale_ok L (env s) = false ->
      exists reason,
        main H L argv0 opts args s =
        Exit 1 (with_stderr
                  (stderr s ++ [__progname L +:+ ": " +:+ reason +:+ nl])%list
                  s)
        /\ (reason = "invalid LC_ALL, LC_CTYPE or LANG"
            \/ reason = "need UTF-8 locale (LC_CTYPE) but have "
                        +:+ nl_langinfo_codeset L (env s))).
Proof.
  split.
  - rewrite main_locale_run. destruct (locale_ok L (env s)).
    + tauto.
    + split; discriminate.
  - intros Hbad. eexists. split.
    + unfold main, main_startup. run. rewrite main_locale_run, Hbad.
      reflexivity.
    + destruct (negb (setlocale_ctype L (env s) "")); [now left | now right].
Qed.


(** Facts about the state in which the option loop ends. *)
Lemma main_getopt_loop_streams (opts : list getopt_result) (l l1 : locals)
    (s s1 : state) :
  main_getopt_loop H L opts l s = Ret l1 s1 ->
  stdout s1 = stdout s /\ stderr s1 = stderr s /\ fs s1 = fs s
  /\ errno s1 = errno s /\ socket_path s1 = socket_path s
  /\ headless s1 = headless s
  /\ global_environ s1 = global_environ s
  /\ global_options s1 = global_options s
  /\ global_s_options s1 = global_s_options s
  /\ global_w_options s1 = global_w_options s.
Proof.
  intros Hl. pose proof (main_getopt_loop_more _ _ _ _ _ Hl) as (So & _).
  apply main_getopt_loop_ret in Hl as (F & _).
  destruct F as (F1 & F2 & F3 & F4 & F5 & F6 & F7 & F8 & F9 & _).
  repeat split; assumption.
Qed.

(** [-V], when the options before it let the loop go on, prints the
    program name with the version and the libssh version on standard
    output and exits with status 0: the options and arguments after it
    are not looked at, nothing is written to standard error, and no
    option tree, environment copy, socket path or directory is made. *)
Theorem version_option (argv0 : string) (pre post : list getopt_result)
    (a : string) (args : list string) (s : state) :
  main_locale L s = Ret tt s ->
  (forall o, In o pre -> mem (opt o) continuing_options = true) ->
  exists s',
    main H L argv0 (pre ++ getopt "V" a :: post) args s = Exit 0 s'
    /\ stdout s' = (stdout s ++ version_lines H L)%list
    /\ stderr s' = stderr s /\ fs s' = fs s
    /\ socket_path s' = socket_path s
    /\ global_environ s' = global_environ s
    /\ global_options s' = global_options s
    /\ global_s_options s' = global_s_options s
    /\ global_w_options s' = global_w_options s.
Proof.
  intros Hloc Hpre.
  destruct (main_getopt_loop_total pre (initial_locals H argv0) s Hpre)
    as (l1 & s1 & Hl).
  destruct (main_getopt_loop_streams _ _ _ _ _ Hl)
    as (So & Se & Sf & _ & Sp & _ & Ge & Go & Gs & Gw).
  destruct (main_switch_V (getopt "V" a) l1 s1 eq_refl)
    as (s' & Ev & Vo & Ve & Vf & _ & _ & Vp & Vge & Vgo & Vgs & Vgw).
  exists s'. split.
  - unfold main, main_startup. run. rewrite Hloc.
    change {| v_path := None; v_label := None; v_shellcmd := None;
              v_flags := main_initial_flags H argv0 |}
      with (initial_locals H argv0).
    rewrite main_getopt_loop_app, Hl.
    rewrite main_getopt_loop_cons by (cbn; discriminate). now rewrite Ev.
  - rewrite Vo, Ve, Vf, Vp, Vge, Vgo, Vgs, Vgw.
    rewrite So, Se, Sf, Sp, Ge, Go, Gs, Gw. repeat split.
Qed.

(** The state at the hand-over, relative to the state after the loop. *)
Lemma main_ret_state (argv0 : string) (opts : list getopt_result)
    (args : list string) (s s' : state) (call : client_main_call) :
  main H L argv0 opts args s = Ret call s' ->
  exists l1 s1 p,
    main_getopt_loop H L opts (initial_locals H argv0) s = Ret l1 s1
    /\ env s' = env s1 /\ stdout s' = stdout s1 /\ stderr s' = stderr s1
    /\ tmate_foreground s' = tmate_foreground s1
    /\ log_level s' = log_level s1 /\ cfg_file s' = cfg_file s1
    /\ api_key s' = api_key s1 /\ session_name s' = session_name s1
    /\ session_name_ro s' = session_name_ro s1
    /\ authorized_keys s' = authorized_keys s1
    /\ headless s' = headless s1
    /\ socket_path s' = Some p
    /\ global_environ s' = Some (environ_copy L (env s1))
    /\ global_options s' = Some (OPTIONS_TABLE_SERVER H)
    /\ tree_lookup (global_s_options s') "default-shell"
       = Some (OptString (fmt_s (getshell_value H L (env s1) (fs s1))))
    /\ cm_argv call = args /\ cm_shellcmd call = v_shellcmd l1
    /\ (forall f, has_flag (v_flags l1) f -> has_flag (cm_flags call) f).
Proof.
  intros Hm. apply main_ret_inv in Hm
    as (l1 & s1 & s2 & s3 & s4 & flags & p
        & Hloc & Hloop & Hc & Hu & Ho & Hk & Hsock & -> & ->).
  destruct (main_options_effect s1) as (s2' & Eo & Fo & Oe & Og & Os & Ow).
  rewrite Ho in Eo. injection Eo as <-.
  apply main_keys_effect in Hk as (Fk & Ke & Kg & Ks).
  destruct (main_socket_effect (v_path l1) (v_label l1) s3)
    as [(p' & s4' & Es & Fs) | (sx & Es & _)]; rewrite Hsock in Es;
    [| discriminate Es].
  injection Es as <- <-.
  destruct (main_utf8_ret H (v_flags l1) s1) as (flags' & Eu & Hmono & _).
  rewrite Hu in Eu. injection Eu as <-.
  destruct Fo as (A1 & A2 & A3 & A4 & A5 & A6 & A7 & A8 & A9 & A10 & A11
                  & A12 & A13 & A14).
  destruct Fk as (B1 & B2 & B3 & B4 & B5 & B6 & B7 & B8 & B9 & B10 & B11
                  & B12 & B13 & B14).
  destruct Fs as (C1 & C2 & C3 & C4 & C5 & C6 & C7 & C8 & C9 & C10 & C11
                  & C12 & C13 & C14 & C15 & C16).
  exists l1, s1, p. state_simpl. cbn [cm_argv cm_shellcmd cm_flags].
  split; [exact Hloop |].
  rewrite C1, C2, C3, C4, C5, C6, C7, C8, C9, C10, C11, C12, C13, C14.
  rewrite B1, B4, B5, B6, B7, B8, B9, B10, B11, B12, B13, Ke, Kg, Ks.
  rewrite A1, A4, A5, A6, A7, A8, A9, A10, A11, A12, A13, Oe, Og, Os.
  cbn [tree_lookup]. rewrite lookup_insert_eq.
  repeat split; auto.
Qed.

Lemma main_locale_exit (s s' : state) (code : Z) :
  main_locale L s = Exit code s' ->
  code = 1 /\ stdout s' = stdout s /\ fs s' = fs s
  /\ exists line, stderr s' = (stderr s ++ [line])%list.
Proof.
  rewrite main_locale_run. destruct (locale_ok L (env s)); [discriminate |].
  intros [= <- <-]. state_simpl. repeat split. eexists. reflexivity.
Qed.

Lemma main_switch_exit (o : getopt_result) (l : locals) (s s' : state)
    (code : Z) :
  main_switch H L o l s = Exit code s' ->
  fs s' = fs s
  /\ ((code = 0 /\ opt o = "V"%char
       /\ stdout s' = (stdout s ++ version_lines H L)%list
       /\ stderr s' = stderr s)
      \/ (code = 1 /\ stdout s' = stdout s
          /\ stderr s' = (stderr s ++ [usage_text L])%list)).
Proof.
  destruct (main_switch_classes o l s)
    as [[_ (l1 & s1 & Hr)] | [Hv | (_ & _ & He)]].
  - rewrite Hr. discriminate.
  - destruct (main_switch_V o l s Hv) as (sx & E & So & Se & Sf & _).
    rewrite E. intros [= <- <-]. split; [exact Sf |]. left. auto.
  - rewrite He. intros [= <- <-]. state_simpl. split; [reflexivity |].
    right. auto.
Qed.


(** *** What reaches the client *)

Lemma tmate_load_cli_options_headless (s : state) :
  headless (final_state (tmate_load_cli_options H s)) =
  (headless s ++
   deferred_commands H (api_key s) (session_name s) (session_name_ro s)
     (authorized_keys s))%list.
Proof.
  destruct (SET_OPT_api_key H s)
    as (s1 & E1 & Hh1 & Hk1 & Hn1 & Hr1 & Ha1 & _).
  destruct (SET_OPT_session_name H s1)
    as (s2 & E2 & Hh2 & Hk2 & Hn2 & Hr2 & Ha2 & _).
  destruct (SET_OPT_session_name_ro H s2)
    as (s3 & E3 & Hh3 & Hk3 & Hn3 & Hr3 & Ha3 & _).
  destruct (SET_OPT_authorized_keys H s3)
    as (s4 & E4 & Hh4 & _).
  unfold tmate_load_cli_options. run. rewrite E1, E2, E3, E4.
  cbn [final_state].
  rewrite Hh4, Hh3, Hh2, Hh1, Ha3, Ha2, Ha1, Hr2, Hr1, Hn1.
  unfold deferred_commands. now rewrite <- !List.app_assoc.
Qed.

(** When [-k], [-n], [-r], [-a] or [-f] is given more than once, the
    last argument is the one that counts at the hand-over; [main] itself
    issues no command, and [tmate_load_cli_options] called then issues
    the [set-option] commands for exactly these last values. *)
Theorem repeated_option_last_wins (argv0 : string)
    (opts : list getopt_result) (args : list string) (s s' : state)
    (call : client_main_call) :
  main H L argv0 opts args s = Ret call s' ->
  api_key s' = match last_optarg "k" opts with
               | Some a => Some a
               | None => api_key s
               end
  /\ session_name s' = match last_optarg "n" opts with
                       | Some a => Some a
                       | None => session_name s
                       end
  /\ session_name_ro s' = match last_optarg "r" opts with
                          | Some a => Some a
                          | None => session_name_ro s
                          end
  /\ authorized_keys s' = match last_optarg "a" opts with
                          | Some a => Some a
                          | None => authorized_keys s
                          end
  /\ cfg_file s' = match last_optarg "f" opts with
                   | Some a => Some a
                   | None => cfg_file s
                   end
  /\ headless s' = headless s
  /\ headless (final_state (tmate_load_cli_options H s')) =
     (headless s ++
      deferred_commands H (api_key s') (session_name s')
        (session_name_ro s') (authorized_keys s'))%list.
Proof.
  intros Hm.
  destruct (main_ret_state _ _ _ _ _ _ Hm)
    as (l1 & s1 & p & Hloop & _ & _ & _ & _ & _ & Cf & Ak & Sn & Sr & Au
        & Hh & _).
  destruct (main_getopt_loop_more _ _ _ _ _ Hloop)
    as (_ & _ & _ & Cf1 & Ak1 & Sn1 & Sr1 & Au1 & _).
  destruct (main_getopt_loop_streams _ _ _ _ _ Hloop)
    as (_ & _ & _ & _ & _ & Hh1 & _).
  rewrite tmate_load_cli_options_headless.
  rewrite Cf, Ak, Sn, Sr, Au, Hh, Cf1, Ak1, Sn1, Sr1, Au1, Hh1.
  repeat split.
Qed.

(** The verbosity with which the client starts is the number of [-v]
    plus the number of [-F] on the command line. *)
Theorem verbosity_counts_v_and_F (argv0 : string) (opts : list getopt_result)
    (args : list string) (s s' : state) (call : client_main_call) :
  main H L argv0 opts args s = Ret call s' ->
  log_level s' = (count_opt "v" opts + count_opt "F" opts + log_level s)%nat.
Proof.
  intros Hm.
  destruct (main_ret_state _ _ _ _ _ _ Hm)
    as (l1 & s1 & p & Hloop & _ & _ & _ & _ & Lv & _).
  destruct (main_getopt_loop_more _ _ _ _ _ Hloop) as (_ & Lv1 & _).
  now rewrite Lv, Lv1.
Qed.

(** [-F] sets the foreground mode and takes [TMUX] out of the
    environment, so that without [-S] the socket path is the one that
    [make_label] derives even inside a running session. Without [-F]
    [main] leaves the foreground mode and the whole environment as they
    were. *)
Theorem foreground_option (argv0 : string) (opts : list getopt_result)
    (args : list string) (s s' : state) (call : client_main_call) :
  main H L argv0 opts args s = Ret call s' ->
  ((0 < count_opt "F" opts)%nat ->
   tmate_foreground s' = 1
   /\ env s' = delete "TMUX" (env s)
   /\ (last_optarg "S" opts = None ->
       exists s3 s4 p,
         env s3 = delete "TMUX" (env s) /\ fs s3 = fs s
         /\ make_label H L (last_optarg "L" opts) s3 = Ret (Some p) s4
         /\ socket_path s' = Some p))
  /\ (count_opt "F" opts = O ->
      tmate_foreground s' = tmate_foreground s /\ env s' = env s).
Proof.
  intros Hm.
  destruct (main_ret_state _ _ _ _ _ _ Hm)
    as (l1 & s1 & p & Hloop & En & _ & _ & Fg & _).
  destruct (main_getopt_loop_more _ _ _ _ _ Hloop)
    as (_ & _ & Fg1 & _ & _ & _ & _ & _ & En1 & _).
  rewrite Fg, En, Fg1, En1. unfold env_after. split.
  - intros HF. apply Nat.ltb_lt in HF. rewrite HF.
    split; [reflexivity |]. split; [reflexivity |].
    intros HS. clear Fg En.
    apply main_ret_inv in Hm
      as (l1' & s1' & s2 & s3 & s4 & flags & p'
          & Hloc & Hloop' & Hc & Hu & Ho & Hk & Hsock & -> & ->).
    rewrite Hloop in Hloop'. injection Hloop' as <- <-.
    destruct (main_getopt_loop_streams _ _ _ _ _ Hloop) as (_ & _ & Sf & _).
    pose proof (main_getopt_loop_ret _ _ _ _ _ _ _ Hloop)
      as (_ & P & Lb & _).
    cbn [initial_locals v_path v_label] in P, Lb. rewrite HS in P.
    destruct (main_options_effect s1) as (s2' & Eo & Fo & _).
    rewrite Ho in Eo. injection Eo as <-.
    apply main_keys_effect in Hk as (Fk & _).
    destruct Fo as (A1 & A2 & _). destruct Fk as (B1 & B2 & _).
    assert (He3 : env s3 = delete "TMUX" (env s)).
    { rewrite B1, A1, En1. unfold env_after. now rewrite HF. }
    assert (Hunusable : tmux_usable s3 = false).
    { unfold tmux_usable. rewrite He3. now rewrite lookup_delete_eq. }
    rewrite P in Hsock.
    rewrite (main_socket_label H L _ s3 (or_intror Hunusable)) in Hsock.
    assert (Hlab : v_label l1 = last_optarg "L" opts)
      by (rewrite Lb; now destruct (last_optarg "L" opts)).
    rewrite Hlab in Hsock.
    destruct (make_label H L (last_optarg "L" opts) s3) as [[q|] sq|] eqn:Eq;
      try discriminate Hsock.
    injection Hsock as Hq Hsq. subst q sq.
    exists s3, s4, p'. repeat split; auto. now rewrite B2, A2.
  - intros HF. rewrite HF. now split.
Qed.

(** The environment copy given to the client holds the environment as
    the option loop left it, with [PWD] replaced by the current directory
    when [getcwd] succeeds. *)
Theorem environment_copy (argv0 : string) (opts : list getopt_result)
    (args : list string) (s s' : state) (call : client_main_call) :
  main H L argv0 opts args s = Ret call s' ->
  exists copy,
    global_environ s' = Some copy
    /\ (forall k, k <> "PWD" -> copy !! k = env s' !! k)
    /\ (forall d, getcwd L = Some d -> copy !! "PWD" = Some d)
    /\ (getcwd L = None -> copy = env s')
    /\ ((0 < count_opt "F" opts)%nat -> copy !! "TMUX" = None).
Proof.
  intros Hm.
  destruct (main_ret_state _ _ _ _ _ _ Hm)
    as (l1 & s1 & p & Hloop & En & _ & _ & _ & _ & _ & _ & _ & _ & _ & _
        & _ & Ge & _).
  destruct (main_getopt_loop_more _ _ _ _ _ Hloop)
    as (_ & _ & _ & _ & _ & _ & _ & _ & En1 & _).
  exists (environ_copy L (env s1)). rewrite En. unfold environ_copy.
  split; [exact Ge |]. repeat split.
  - intros k Hk. destruct (getcwd L); [| reflexivity].
    now rewrite lookup_insert_ne.
  - intros d ->. apply lookup_insert_eq.
  - now intros ->.
  - intros HF. apply Nat.ltb_lt in HF.
    assert (Ht : env s1 !! "TMUX" = None).
    { rewrite En1. unfold env_after. rewrite HF. apply lookup_delete_eq. }
    destruct (getcwd L); [| exact Ht].
    now rewrite lookup_insert_ne.
Qed.

Lemma getshell_value_safe (e : gmap string string) (f : gmap string stat) :
  exists sh,
    getshell_value H L e f = Some sh
    /\ (sh = _PATH_BSHELL H
        \/ (starts_with "/" sh = true /\ areshell L sh = false
            /\ access_x_ok L f sh = true
            /\ (e !! "SHELL" = Some sh
                \/ exists pw, getpwuid L (getuid L) = Some pw
                              /\ pw_shell pw = Some sh))).
Proof.
  assert (Hok : forall p sh, checkshell_value L f p = true -> p = Some sh ->
            starts_with "/" sh = true /\ areshell L sh = false
            /\ access_x_ok L f sh = true).
  { intros p sh Hc ->. unfold checkshell_value in Hc.
    apply andb_true_iff in Hc as [Hc Ha].
    apply andb_true_iff in Hc as [Hc Hs].
    apply negb_true_iff, orb_false_iff in Hc as [_ Hc].
    apply negb_false_iff in Hc. apply negb_true_iff in Hs. auto. }
  unfold getshell_value.
  destruct (checkshell_value L f (e !! "SHELL")) eqn:Hc.
  - destruct (e !! "SHELL") as [sh|] eqn:He; [| discriminate Hc].
    exists sh. split; [reflexivity |]. right.
    destruct (Hok _ sh Hc eq_refl) as (A & B & C). auto.
  - destruct (getpwuid L (getuid L)) as [pw|] eqn:Hpw; [| eauto].
    destruct (checkshell_value L f (pw_shell pw)) eqn:Hc'; [| eauto].
    destruct (pw_shell pw) as [sh|] eqn:Hsh; [| discriminate Hc'].
    exists sh. split; [reflexivity |]. right.
    destruct (Hok _ sh Hc' eq_refl) as (A & B & C).
    repeat split; auto. right. now exists pw.
Qed.

(** The [default-shell] option that the client starts with is never
    [NULL]: it is [_PATH_BSHELL], or a path taken from [SHELL] or from
    the user database that begins with a slash, is executable and whose
    last component is not the program's own name. The [VISUAL] and
    [EDITOR] override does not touch it. *)
Theorem default_shell_option (argv0 : string) (opts : list getopt_result)
    (args : list string) (s s' : state) (call : client_main_call) :
  main H L argv0 opts args s = Ret call s' ->
  exists sh,
    tree_lookup (global_s_options s') "default-shell" = Some (OptString sh)
    /\ (sh = _PATH_BSHELL H
        \/ (starts_with "/" sh = true /\ areshell L sh = false
            /\ access_x_ok L (fs s) sh = true
            /\ (env s' !! "SHELL" = Some sh
                \/ exists pw, getpwuid L (getuid L) = Some pw
                              /\ pw_shell pw = Some sh))).
Proof.
  intros Hm.
  destruct (main_ret_state _ _ _ _ _ _ Hm)
    as (l1 & s1 & p & Hloop & En & _ & _ & _ & _ & _ & _ & _ & _ & _ & _
        & _ & _ & _ & Ds & _).
  destruct (main_getopt_loop_streams _ _ _ _ _ Hloop) as (_ & _ & Sf & _).
  destruct (getshell_value_safe (env s1) (fs s1)) as (sh & Hsh & Hsafe).
  exists sh. rewrite Ds, Hsh, En. rewrite Sf in Hsafe.
  split; [reflexivity | exact Hsafe].
Qed.

(** *** Login and control mode *)

Lemma main_getopt_loop_login (opts : list getopt_result) (l l' : locals)
    (s s' : state) :
  main_getopt_loop H L opts l s = Ret l' s' ->
  (0 < count_opt "l" opts)%nat ->
  has_flag (v_flags l') (CLIENT_LOGIN H).
Proof.
  revert l s. induction opts as [|o opts IH]; intros l s;
    [cbn [count_opt]; lia |].
  intros Hl0.
  apply main_getopt_loop_cons_ret in Hl0 as (_ & l1 & s1 & E & Hl0).
  revert Hl0.
  intros Hl Hc. cbn [count_opt] in Hc.
  destruct (Ascii.eqb (opt o) "l") eqn:Ho.
  - apply main_switch_more in E as (_ & _ & _ & _ & _ & _ & _ & _ & _ & Fl).
    assert (Hf1 : has_flag (v_flags l1) (CLIENT_LOGIN H)).
    { apply Ascii.eqb_eq in Ho. rewrite Ho in Fl.
      change (Ascii.eqb "l" "2") with false in Fl.
      change (Ascii.eqb "l" "u") with false in Fl.
      change (Ascii.eqb "l" "l") with true in Fl.
      rewrite Fl. apply has_flag_lor_r. }
    apply main_getopt_loop_ret in Hl as (_ & _ & _ & _ & G). now apply G.
  - apply (IH l1 s1 Hl). lia.
Qed.

(** The login flag reaches the client when the name the program was
    started under begins with a dash, and when [-l] is given. *)
Theorem login_flag (argv0 : string) (opts : list getopt_result)
    (args : list string) (s s' : state) (call : client_main_call) :
  main H L argv0 opts args s = Ret call s' ->
  starts_with "-" argv0 = true \/ (0 < count_opt "l" opts)%nat ->
  has_flag (cm_flags call) (CLIENT_LOGIN H).
Proof.
  intros Hm Hor.
  destruct (main_ret_state _ _ _ _ _ _ Hm)
    as (l1 & s1 & p & Hloop & _ & _ & _ & _ & _ & _ & _ & _ & _ & _ & _
        & _ & _ & _ & _ & _ & _ & Hmono).
  apply Hmono. destruct Hor as [Hdash | Hl].
  - apply main_getopt_loop_ret in Hloop as (_ & _ & _ & _ & G). apply G.
    cbn [initial_locals v_flags]. unfold main_initial_flags. rewrite Hdash.
    rewrite Z.lor_comm. apply has_flag_lor_r.
  - now apply (main_getopt_loop_login _ _ _ _ _ Hloop).
Qed.

Lemma test_mask_one_bit (f n : Z) :
  0 <= n -> test_mask f (2 ^ n) = true <-> has_flag f (2 ^ n).
Proof.
  intros Hn. unfold test_mask, has_flag. rewrite negb_true_iff, Z.eqb_neq.
  assert (Hbits : forall k, Z.testbit (Z.land f (2 ^ n)) k
                            = Z.testbit f n && Z.eqb n k).
  { intros k. rewrite Z.land_spec, Z.pow2_bits_eqb by exact Hn.
    destruct (Z.eqb n k) eqn:E.
    - apply Z.eqb_eq in E as ->. reflexivity.
    - now rewrite !andb_false_r. }
  split.
  - intros Hne. apply Z.bits_inj. intros k.
    rewrite Hbits, Z.pow2_bits_eqb by exact Hn.
    destruct (Z.testbit f n) eqn:Hf; [reflexivity |].
    exfalso. apply Hne. apply Z.bits_inj. intros j.
    rewrite Hbits. now rewrite Z.bits_0.
  - intros Heq Hz. rewrite Hz in Heq.
    assert (0 < 2 ^ n) by (apply Z.pow_pos_nonneg; lia). lia.
Qed.

Lemma main_getopt_loop_control (n : Z) (opts : list getopt_result)
    (l l' : locals) (s s' : state) :
  0 <= n -> CLIENT_CONTROL H = 2 ^ n ->
  main_getopt_loop H L opts l s = Ret l' s' ->
  (has_flag (v_flags l) (CLIENT_CONTROL H) \/ (1 <= count_opt "C" opts)%nat ->
   has_flag (v_flags l') (CLIENT_CONTROL H))
  /\ ((has_flag (v_flags l) (CLIENT_CONTROL H)
       /\ (1 <= count_opt "C" opts)%nat)
      \/ (2 <= count_opt "C" opts)%nat ->
      has_flag (v_flags l') (CLIENT_CONTROLCONTROL H)).
Proof.
  intros Hn Hc. revert l s. induction opts as [|o opts IH]; intros l s.
  - intros [= <- <-]. cbn [count_opt]. split.
    + intros [Hf | Hx]; [exact Hf | lia].
    + intros [[_ Hx] | Hx]; lia.
  - intros Hl0.
    apply main_getopt_loop_cons_ret in Hl0 as (_ & l1 & s1 & E & Hl0).
    revert Hl0.
    intros Hl. destruct (IH l1 s1 Hl) as [IHa IHb].
    pose proof (main_switch_ret H L _ _ _ _ _ E) as (_ & _ & _ & _ & G1).
    pose proof (main_getopt_loop_ret H L _ _ _ _ _ Hl) as (_ & _ & _ & _ & G).
    apply main_switch_more in E as (_ & _ & _ & _ & _ & _ & _ & _ & _ & Fl).
    cbn [count_opt].
    destruct (Ascii.eqb (opt o) "C") eqn:Ho.
    + apply Ascii.eqb_eq in Ho. rewrite Ho in Fl.
      change (Ascii.eqb "C" "2") with false in Fl.
      change (Ascii.eqb "C" "u") with false in Fl.
      change (Ascii.eqb "C" "l") with false in Fl.
      change (Ascii.eqb "C" "C") with true in Fl.
      cbv iota in Fl.
      assert (H1 : has_flag (v_flags l1) (CLIENT_CONTROL H)).
      { destruct (test_mask (v_flags l) (CLIENT_CONTROL H)) eqn:Ht.
        - rewrite Hc in Ht. apply test_mask_one_bit in Ht; [| exact Hn].
          rewrite <- Hc in Ht. now apply G1.
        - rewrite Fl. apply has_flag_lor_r. }
      split.
      * intros _. apply IHa. now left.
      * intros [[Hf _] | Hx].
        -- assert (Ht : test_mask (v_flags l) (CLIENT_CONTROL H) = true)
             by (rewrite Hc; apply test_mask_one_bit; [exact Hn |];
                 now rewrite <- Hc).
           rewrite Ht in Fl. apply G. rewrite Fl. apply has_flag_lor_r.
        -- apply IHb. left. split; [exact H1 | lia].
    + split.
      * intros [Hf | Hx]; apply IHa; [left; now apply G1 | right; lia].
      * intros [[Hf Hx] | Hx]; apply IHb.
        -- left. split; [now apply G1 | lia].
        -- right. lia.
Qed.

(** With [CLIENT_CONTROL] a single bit, one [-C] puts the client in
    control mode and a second [-C] adds the double control mode. *)
Theorem control_mode_flags (n : Z) (argv0 : string)
    (opts : list getopt_result) (args : list string) (s s' : state)
    (call : client_main_call) :
  0 <= n -> CLIENT_CONTROL H = 2 ^ n ->
  main H L argv0 opts args s = Ret call s' ->
  ((1 <= count_opt "C" opts)%nat ->
   has_flag (cm_flags call) (CLIENT_CONTROL H))
  /\ ((2 <= count_opt "C" opts)%nat ->
      has_flag (cm_flags call) (CLIENT_CONTROLCONTROL H)).
Proof.
  intros Hn Hc Hm.
  destruct (main_ret_state _ _ _ _ _ _ Hm)
    as (l1 & s1 & p & Hloop & _ & _ & _ & _ & _ & _ & _ & _ & _ & _ & _
        & _ & _ & _ & _ & _ & _ & Hmono).
  destruct (main_getopt_loop_control n _ _ _ _ _ Hn Hc Hloop) as [Ha Hb].
  split; intros Hx; apply Hmono; [apply Ha | apply Hb]; now right.
Qed.

(** *** The socket directory, failures and side effects *)

(** A path returned by [make_label] lies in a directory that exists when
    [make_label] returns, is a directory and not a link or a file,
    belongs to the user and gives no permission to others. *)
Theorem make_label_returns_private_directory (label : option string)
    (s s' : state) (p : string) :
  make_label H L label s = Ret (Some p) s' ->
  exists sb,
    fs s' !! runtime_dir H L s = Some sb
    /\ S_ISDIR (st_mode sb) = true
    /\ st_uid sb = getuid L
    /\ Z.land (st_mode sb) S_IRWXO = 0.
Proof.
  intros Hml.
  assert (Hsplit : forall u m,
            negb (u =? getuid L) || negb (Z.land m S_IRWXO =? 0) = false ->
            u = getuid L /\ Z.land m S_IRWXO = 0).
  { intros u m Hc. apply orb_false_iff in Hc as [Hu Hm].
    apply negb_false_iff in Hu, Hm.
    apply Z.eqb_eq in Hu, Hm. now split. }
  destruct (fs s !! runtime_dir H L s) as [sb|] eqn:Hfs.
  - rewrite (make_label_existing H L label s sb Hfs) in Hml. cbv zeta in Hml.
    destruct (S_ISDIR (st_mode sb)) eqn:Hdir; [| discriminate Hml].
    cbn [negb] in Hml.
    destruct (negb (st_uid sb =? getuid L)
              || negb (Z.land (st_mode sb) S_IRWXO =? 0)) eqn:Hc;
      [discriminate Hml |].
    exists sb. destruct (Hsplit _ _ Hc) as [Hu Hm].
    destruct label; injection Hml as <- <-; state_simpl; auto.
  - destruct (mkdir_refused L (fs s) (runtime_dir H L s)) as [e|] eqn:Hre.
    + rewrite (make_label_refused_eq label s e Hfs Hre) in Hml.
      discriminate Hml.
    + rewrite (make_label_created H L label s Hfs Hre) in Hml.
      cbv zeta in Hml.
      destruct (negb (fsuid L =? getuid L)) eqn:Hu; [discriminate Hml |].
      apply negb_false_iff, Z.eqb_eq in Hu.
      exists (created_dir L).
      destruct (created_dir_mode (Z.lnot (umask L))) as [Hd Hm].
      destruct label; injection Hml as <- <-; state_simpl;
        rewrite lookup_insert_eq; auto.
Qed.

(** How [make_label] fails besides the ownership check. Something that
    is not a directory at the place of the runtime directory gives
    [ENOTDIR]. A [mkdir] that the kernel refuses gives the kernel's error
    and leaves the file system alone, and [main] then prints
    "can't create socket: " with the text of that error and exits with
    status 1. A directory that [mkdir] created but that does not belong
    to the user gives [EACCES], and the new directory stays. *)
Theorem make_label_failures (label : option string) (s : state) :
  (forall sb, fs s !! runtime_dir H L s = Some sb ->
     S_ISDIR (st_mode sb) = false ->
     make_label H L label s
     = Ret None (with_errno ENOTDIR (with_errno EEXIST s)))
  /\ (forall e, fs s !! runtime_dir H L s = None ->
        mkdir_refused L (fs s) (runtime_dir H L s) = Some e ->
        e <> EEXIST ->
        make_label H L label s = Ret None (with_errno e s)
        /\ forall argv0 opts args s0 l,
             main_startup H L argv0 opts args s0 = Ret l s ->
             v_path l = None -> v_label l = label ->
             label <> None \/ tmux_usable s = false ->
             main H L argv0 opts args s0 =
             Exit 1 (with_stderr
                       (stderr s ++ [cant_create_socket L e])%list
                       (with_errno e s)))
  /\ (fs s !! runtime_dir H L s = None ->
      mkdir_refused L (fs s) (runtime_dir H L s) = None ->
      fsuid L <> getuid L ->
      make_label H L label s =
      Ret None
        (with_errno EACCES
           (with_fs (<[runtime_dir H L s := created_dir L]> (fs s)) s))).
Proof.
  split; [| split].
  - intros sb Hfs Hdir. rewrite (make_label_existing H L label s sb Hfs).
    cbv zeta. now rewrite Hdir.
  - intros e Hfs Hre Hne.
    assert (Hml : make_label H L label s = Ret None (with_errno e s)).
    { rewrite (make_label_refused_eq label s e Hfs Hre).
      apply Z.eqb_neq in Hne. now rewrite Hne. }
    split; [exact Hml |].
    intros argv0 opts args s0 l Hs Hp Hl Hor. subst label.
    unfold main. run. rewrite Hs, Hp.
    rewrite (main_socket_label H L _ s Hor), Hml. reflexivity.
  - intros Hfs Hre Hu. rewrite (make_label_created H L label s Hfs Hre).
    cbv zeta. apply Z.eqb_neq in Hu. now rewrite Hu.
Qed.

(** [make_label] always returns to its caller. Apart from [errno] it
    changes nothing but the file system, and of the file system nothing
    but the entry of the runtime directory, which it may create: what
    exists is never removed or altered. *)
Theorem make_label_touches_only_the_directory (label : option string)
    (s : state) :
  exists r s',
    make_label H L label s = Ret r s'
    /\ same_but_fs_errno s s'
    /\ (forall k, k <> runtime_dir H L s -> fs s' !! k = fs s !! k)
    /\ (forall k sb, fs s !! k = Some sb -> fs s' !! k = Some sb).
Proof.
  destruct (make_label_effect label s) as (r & s' & E & F & Hfs).
  exists r, s'. split; [exact E |]. split; [exact F |].
  destruct Hfs as [-> | (Hnone & _ & ->)].
  - split; auto.
  - split.
    + intros k Hk. now rewrite lookup_insert_ne.
    + intros k sb Hk. rewrite lookup_insert_ne; [exact Hk |].
      intros <-. congruence.
Qed.


Lemma main_socket_no_label_needed (path : option string) (s : state) :
  path <> None \/ tmux_usable s = true ->
  exists p, main_socket H L path None s = Ret p s.
Proof.
  intros [Hp | Ht].
  - destruct path as [p|]; [| congruence]. now exists p.
  - destruct path as [p|]; [now exists p |].
    unfold tmux_usable in Ht.
    destruct (env s !! "TMUX") as [v|] eqn:Hv; [| discriminate Ht].
    apply andb_true_iff in Ht as [He Hc]. apply negb_true_iff in He, Hc.
    eexists. apply (main_socket_tmux H L v s Hv He Hc).
Qed.

(** With [-S], and without [-S], [-L] and [-F] inside a session whose
    [TMUX] is usable, [main] does not touch the file system, whatever its
    outcome: the runtime directory is neither created nor looked at. *)
Theorem explicit_socket_keeps_file_system (argv0 : string)
    (opts : list getopt_result) (args : list string) (s : state) :
  last_optarg "S" opts <> None
  \/ (last_optarg "L" opts = None /\ count_opt "F" opts = O
      /\ tmux_usable s = true) ->
  fs (final_state (main H L argv0 opts args s)) = fs s.
Proof.
  intros Hroute.
  assert (Hsock : forall l1 s1 s2 s3,
            main_getopt_loop H L opts (initial_locals H argv0) s = Ret l1 s1 ->
            main_options H L s1 = Ret tt s2 -> main_keys H s2 = Ret tt s3 ->
            fs s3 = fs s /\
            exists p, main_socket H L (v_path l1) (v_label l1) s3 = Ret p s3).
  { intros l1 s1 s2 s3 Hloop Ho Hk.
    destruct (main_getopt_loop_streams _ _ _ _ _ Hloop) as (_ & _ & Sf & _).
    pose proof (main_getopt_loop_ret _ _ _ _ _ _ _ Hloop)
      as (_ & P & Lb & _).
    cbn [initial_locals v_path v_label] in P, Lb.
    destruct (main_getopt_loop_more _ _ _ _ _ Hloop)
      as (_ & _ & _ & _ & _ & _ & _ & _ & En1 & _).
    destruct (main_options_effect s1) as (s2' & Eo & Fo & _).
    rewrite Ho in Eo. injection Eo as <-.
    apply main_keys_effect in Hk as (Fk & _).
    destruct Fo as (A1 & A2 & _). destruct Fk as (B1 & B2 & _).
    split; [now rewrite B2, A2 |].
    destruct Hroute as [HS | (HL & HF & Ht)].
    - destruct (last_optarg "S" opts) as [p|]; [| congruence].
      rewrite P. now exists p.
    - rewrite HL in Lb. rewrite Lb.
      apply main_socket_no_label_needed. right.
      unfold tmux_usable in *. rewrite B1, A1, En1. unfold env_after.
      now rewrite HF. }
  destruct (main H L argv0 opts args s) as [call s'|code s'] eqn:Hm;
    cbn [final_state].
  - apply main_ret_inv in Hm
      as (l1 & s1 & s2 & s3 & s4 & flags & p
          & Hloc & Hloop & Hc & Hu & Ho & Hk & Hs & -> & ->).
    destruct (Hsock _ _ _ _ Hloop Ho Hk) as (Hf & q & Hq).
    rewrite Hq in Hs. injection Hs as <- <-. exact Hf.
  - apply main_exit_inv in Hm
      as [Hloc | [[Hloc Hloop] | [(l1 & s1 & Hloc & Hloop & Hc & -> & ->)
                                  | (l1 & s1 & s2 & s3 & Hloc & Hloop & Ho
                                     & Hk & Hs)]]].
    + now apply main_locale_exit in Hloc as (_ & _ & Hf & _).
    + apply main_getopt_loop_exit in Hloop
        as (pre & o & post & l1 & s1 & _ & Hpre
            & [(_ & Ho) | (_ & _ & ->)]).
      * destruct (main_getopt_loop_streams _ _ _ _ _ Hpre)
          as (_ & _ & Sf & _).
        apply main_switch_exit in Ho as (Hf & _). now rewrite Hf.
      * now destruct (main_getopt_loop_streams _ _ _ _ _ Hpre)
          as (_ & _ & Sf & _).
    + now destruct (main_getopt_loop_streams _ _ _ _ _ Hloop)
        as (_ & _ & Sf & _).
    + destruct (Hsock _ _ _ _ Hloop Ho Hk) as (_ & q & Hq).
      rewrite Hq in Hs. discriminate Hs.
Qed.

End Further.

(** ** The further theorems at work on the concrete platform *)

Lemma setblocking_sets_flag_witness :
  fcntl_getfl (setblocking 0 0 demo_fds) 0 = 0x802
  /\ fcntl_getfl (setblocking 5 1 demo_fds) 5 = 0x2
  /\ setblocking 6 0 demo_fds = demo_fds.
Proof.
  assert (Hterm : 100 ∉ setfl_refused demo_fds)
    by (unfold demo_fds; cbn [setfl_refused]; intros Hin;
        apply elem_of_singleton in Hin; discriminate Hin).
  assert (Hsock : 101 ∉ setfl_refused demo_fds)
    by (unfold demo_fds; cbn [setfl_refused]; intros Hin;
        apply elem_of_singleton in Hin; discriminate Hin).
  assert (Hpath : 102 ∈ setfl_refused demo_fds)
    by (unfold demo_fds; cbn [setfl_refused]; apply elem_of_singleton;
        reflexivity).
  split; [| split].
  - destruct (setblocking_sets_flag 0 0 demo_fds 100 0x2 eq_refl eq_refl
                ltac:(discriminate)) as (_ & Hok).
    destruct (Hok Hterm) as (m' & Hm & _).
    pose proof Hm as Hc. vm_compute in Hc. rewrite <- Hc in Hm. exact Hm.
  - destruct (setblocking_sets_flag 5 1 demo_fds 101 0x802 eq_refl eq_refl
                ltac:(discriminate)) as (_ & Hok).
    destruct (Hok Hsock) as (m' & Hm & _).
    pose proof Hm as Hc. vm_compute in Hc. rewrite <- Hc in Hm. exact Hm.
  - destruct (setblocking_sets_flag 6 0 demo_fds 102 0x200000 eq_refl
                eq_refl ltac:(discriminate)) as (Hfail & _).
    exact (proj1 (Hfail Hpath)).
Defined.

Lemma setblocking_last_call_wins_witness :
  setblocking 1 1 (setblocking 1 0 demo_fds) = demo_fds
  /\ setblocking 5 0 (setblocking 5 1 demo_fds) = setblocking 5 0 demo_fds.
Proof.
  split.
  - destruct (setblocking_last_call_wins 1 0 1 demo_fds 100 0x2 eq_refl
                eq_refl ltac:(discriminate)) as (_ & Hback).
    apply Hback; [reflexivity | discriminate].
  - destruct (setblocking_last_call_wins 5 1 0 demo_fds 101 0x802 eq_refl
                eq_refl ltac:(discriminate)) as (Hlast & _).
    exact Hlast.
Defined.

Lemma setblocking_elsewhere_witness :
  setblocking 7 0 demo_fds = demo_fds
  /\ fcntl_getfl (setblocking 0 0 demo_fds) 5 = 0x802
  /\ fcntl_getfl (setblocking 0 0 demo_fds) 2
     = fcntl_getfl (setblocking 0 0 demo_fds) 0.
Proof.
  split; [| split].
  - destruct (setblocking_elsewhere 7 0 demo_fds) as (Hclosed & _).
    apply Hclosed. reflexivity.
  - destruct (setblocking_elsewhere 0 0 demo_fds)
      as (_ & _ & _ & Hother & _).
    assert (Hne : descriptors demo_fds !! 5 <> descriptors demo_fds !! 0)
      by (vm_compute; discriminate).
    eapply eq_trans; [exact (Hother 5 Hne) | reflexivity].
  - destruct (setblocking_elsewhere 0 0 demo_fds)
      as (_ & _ & _ & _ & Hshared).
    apply Hshared. reflexivity.
Defined.

Lemma main_switch_outcomes_witness :
  main_switch linux_h demo_libc (getopt "x" "")
    (initial_locals linux_h "tmate") (initial_state ∅ ∅)
  = Exit 1 (with_stderr [usage_text demo_libc] (initial_state ∅ ∅)).
Proof.
  destruct (main_switch_outcomes linux_h demo_libc (getopt "x" "")
              (initial_locals linux_h "tmate") (initial_state ∅ ∅))
    as (_ & _ & Husage & _).
  exact (Husage eq_refl ltac:(discriminate)).
Defined.

Lemma locale_failure_is_fatal_witness :
  exists reason,
    main linux_h latin1_libc "tmate" [getopt "V" ""] []
      (initial_state (<["LANG" := "fr_FR.ISO-8859-1"]> ∅) ∅)
    = Exit 1
        (with_stderr ["tmate: " +:+ reason +:+ CString.nl]
           (initial_state (<["LANG" := "fr_FR.ISO-8859-1"]> ∅) ∅))
    /\ reason = "need UTF-8 locale (LC_CTYPE) but have ISO-8859-1".
Proof.
  destruct (locale_failure_is_fatal linux_h latin1_libc "tmate"
              [getopt "V" ""] []
              (initial_state (<["LANG" := "fr_FR.ISO-8859-1"]> ∅) ∅))
    as (_ & Hfatal).
  destruct (Hfatal eq_refl) as (reason & Hm & [Hr | Hr]).
  - exfalso. subst reason. vm_compute in Hm. discriminate Hm.
  - exists reason. split; [exact Hm | exact Hr].
Defined.

Lemma version_option_witness :
  exists s',
    main linux_h demo_libc "tmate"
      [getopt "v" ""; getopt "V" ""; getopt "x" ""] ["attach"]
      (initial_state ∅ ∅) = Exit 0 s'
    /\ stdout s' = ["tmate 2.4.0" +:+ CString.nl;
                    "libssh 0.9.0" +:+ CString.nl]
    /\ stderr s' = [].
Proof.
  destruct (version_option linux_h demo_libc "tmate" [getopt "v" ""]
              [getopt "x" ""] "" ["attach"] (initial_state ∅ ∅) eq_refl)
    as (s' & Hm & So & Se & _).
  - intros o [<- | []]. reflexivity.
  - exists s'. split; [exact Hm |]. split; [exact So | exact Se].
Defined.


Lemma repeated_option_last_wins_witness :
  let m := main linux_h demo_libc "tmate"
             [getopt "k" "old"; getopt "n" "pair"; getopt "k" "new"] []
             (initial_state ∅ ∅) in
  api_key (final_state m) = Some "new"
  /\ map hc_argv
       (headless (final_state (tmate_load_cli_options linux_h
                                 (final_state m))))
     = [["set-option"; "tmate-api-key"; "new"];
        ["set-option"; "tmate-session-name"; "pair"]].
Proof.
  intros m.
  assert (Hm : m = Ret {| cm_argv := []; cm_flags := 0x30000;
                          cm_shellcmd := None |} (final_state m))
    by (vm_compute; reflexivity).
  destruct (repeated_option_last_wins linux_h demo_libc _ _ _ _ _ _ Hm)
    as (Hk & Hn & Hr & Ha & _ & _ & Hh).
  split; [exact Hk |].
  apply (f_equal (map hc_argv)) in Hh.
  eapply eq_trans; [exact Hh |].
  rewrite Hk, Hn, Hr, Ha. reflexivity.
Defined.

Lemma verbosity_counts_v_and_F_witness :
  log_level
    (final_state
       (main linux_h demo_libc "tmate"
          [getopt "v" ""; getopt "F" ""; getopt "v" ""] []
          (initial_state ∅ ∅))) = 3%nat.
Proof.
  set (m := main linux_h demo_libc "tmate"
              [getopt "v" ""; getopt "F" ""; getopt "v" ""] []
              (initial_state ∅ ∅)).
  assert (Hm : m = Ret {| cm_argv := []; cm_flags := 0x30000;
                          cm_shellcmd := None |} (final_state m))
    by (vm_compute; reflexivity).
  exact (verbosity_counts_v_and_F linux_h demo_libc _ _ _ _ _ _ Hm).
Defined.

Lemma foreground_option_witness :
  let m := main linux_h demo_libc "tmate" [getopt "F" ""] []
             (initial_state inherited_env ∅) in
  tmate_foreground (final_state m) = 1
  /\ env (final_state m) !! "TMUX" = None
  /\ socket_path (final_state m) = Some "/tmp/tmate-1000/a1B2c3".
Proof.
  intros m.
  assert (Hm : m = Ret {| cm_argv := []; cm_flags := 0x30000;
                          cm_shellcmd := None |} (final_state m))
    by (vm_compute; reflexivity).
  destruct (foreground_option linux_h demo_libc _ _ _ _ _ _ Hm) as (HF & _).
  destruct (HF ltac:(vm_compute; lia)) as (Hfg & He & _).
  split; [exact Hfg |]. split.
  - rewrite He. apply lookup_delete_eq.
  - vm_compute. reflexivity.
Defined.

Lemma environment_copy_witness :
  exists copy,
    global_environ
      (final_state
         (main linux_h demo_libc "tmate" [] []
            (initial_state (<["PWD" := "/stale"]> vim_env) ∅))) = Some copy
    /\ copy !! "PWD" = Some "/home/u".
Proof.
  set (m := main linux_h demo_libc "tmate" [] []
              (initial_state (<["PWD" := "/stale"]> vim_env) ∅)).
  assert (Hm : m = Ret {| cm_argv := []; cm_flags := 0x30000;
                          cm_shellcmd := None |} (final_state m))
    by (vm_compute; reflexivity).
  destruct (environment_copy linux_h demo_libc _ _ _ _ _ _ Hm)
    as (copy & Hc & _ & Hpwd & _).
  exists copy. split; [exact Hc | exact (Hpwd "/home/u" eq_refl)].
Defined.

Lemma default_shell_option_witness :
  exists sh,
    tree_lookup
      (global_s_options
         (final_state
            (main linux_h readonly_libc "tmate" [getopt "S" "/tmp/s"] []
               (initial_state vim_env ∅)))) "default-shell"
    = Some (OptString sh)
    /\ sh = "/bin/sh".
Proof.
  set (m := main linux_h readonly_libc "tmate" [getopt "S" "/tmp/s"] []
              (initial_state vim_env ∅)).
  assert (Hm : m = Ret {| cm_argv := []; cm_flags := 0x30000;
                          cm_shellcmd := None |} (final_state m))
    by (vm_compute; reflexivity).
  destruct (default_shell_option linux_h readonly_libc _ _ _ _ _ _ Hm)
    as (sh & Hl & [Hb | (_ & _ & Hx & _)]).
  - exists sh. split; [exact Hl | exact Hb].
  - discriminate Hx.
Defined.

Lemma login_flag_witness :
  exists call s',
    main linux_h demo_libc "-tmate" [] [] (initial_state ∅ ∅) = Ret call s'
    /\ has_flag (cm_flags call) 0x2.
Proof.
  set (m := main linux_h demo_libc "-tmate" [] [] (initial_state ∅ ∅)).
  assert (Hm : m = Ret {| cm_argv := []; cm_flags := 0x30002;
                          cm_shellcmd := None |} (final_state m))
    by (vm_compute; reflexivity).
  eexists. eexists. split; [exact Hm |].
  exact (login_flag linux_h demo_libc _ _ _ _ _ _ Hm (or_introl eq_refl)).
Defined.

Lemma control_mode_flags_witness :
  exists call s',
    main linux_h demo_libc "tmate" [getopt "C" ""; getopt "C" ""] []
      (initial_state ∅ ∅) = Ret call s'
    /\ has_flag (cm_flags call) 0x2000 /\ has_flag (cm_flags call) 0x4000.
Proof.
  set (m := main linux_h demo_libc "tmate" [getopt "C" ""; getopt "C" ""] []
              (initial_state ∅ ∅)).
  assert (Hm : m = Ret {| cm_argv := []; cm_flags := 0x36000;
                          cm_shellcmd := None |} (final_state m))
    by (vm_compute; reflexivity).
  destruct (control_mode_flags linux_h demo_libc 13 _ _ _ _ _ _
              ltac:(discriminate) eq_refl Hm) as (H1 & H2).
  eexists. eexists. split; [exact Hm |].
  split; [apply H1 | apply H2]; vm_compute; lia.
Defined.

Lemma make_label_returns_private_directory_witness :
  exists sb,
    fs (final_state
          (make_label linux_h demo_libc (Some "pair") (initial_state ∅ ∅)))
      !! "/tmp/tmate-1000" = Some sb
    /\ st_uid sb = 1000 /\ Z.land (st_mode sb) S_IRWXO = 0.
Proof.
  set (m := make_label linux_h demo_libc (Some "pair") (initial_state ∅ ∅)).
  assert (Hm : m = Ret (Some "/tmp/tmate-1000/pair") (final_state m))
    by (vm_compute; reflexivity).
  destruct (make_label_returns_private_directory linux_h demo_libc
              (Some "pair") (initial_state ∅ ∅) (final_state m)
              "/tmp/tmate-1000/pair" Hm)
    as (sb & Hfs & _ & Hu & Hmode).
  exists sb. split; [exact Hfs |]. split; [exact Hu | exact Hmode].
Defined.

Lemma make_label_failures_witness :
  errno (final_state
           (make_label linux_h demo_libc (Some "pair")
              (initial_state ∅ file_in_the_way_fs))) = ENOTDIR
  /\ make_label linux_h readonly_libc (Some "pair") (initial_state ∅ ∅)
     = Ret None (with_errno 30 (initial_state ∅ ∅)).
Proof.
  split.
  - destruct (make_label_failures linux_h demo_libc (Some "pair")
                (initial_state ∅ file_in_the_way_fs)) as (Hnotdir & _).
    assert (Hfs : fs (initial_state ∅ file_in_the_way_fs)
                    !! runtime_dir linux_h demo_libc
                         (initial_state ∅ file_in_the_way_fs)
                  = Some {| st_mode := Z.lor 0x8000 0x1a4; st_uid := 1000 |})
      by (vm_compute; reflexivity).
    rewrite (Hnotdir _ Hfs eq_refl). reflexivity.
  - destruct (make_label_failures linux_h readonly_libc (Some "pair")
                (initial_state ∅ ∅)) as (_ & Hrefused & _).
    assert (Hfs : fs (initial_state ∅ ∅)
                    !! runtime_dir linux_h readonly_libc (initial_state ∅ ∅)
                  = None) by (vm_compute; reflexivity).
    destruct (Hrefused 30 Hfs eq_refl ltac:(discriminate)) as (Hml & _).
    exact Hml.
Defined.

Lemma make_label_touches_only_the_directory_witness :
  fs (final_state
        (make_label linux_h demo_libc (Some "pair")
           (initial_state ∅ (<["/tmp/other" := {| st_mode := 0x41ff;
                                                  st_uid := 0 |}]> ∅))))
    !! "/tmp/other" = Some {| st_mode := 0x41ff; st_uid := 0 |}.
Proof.
  set (s := initial_state ∅ (<["/tmp/other" := {| st_mode := 0x41ff;
                                                  st_uid := 0 |}]> ∅)).
  destruct (make_label_touches_only_the_directory linux_h demo_libc
              (Some "pair") s) as (r & s' & Hml & _ & _ & Hkeep).
  rewrite Hml. cbn [final_state]. apply Hkeep. vm_compute. reflexivity.
Defined.


Lemma explicit_socket_keeps_file_system_witness :
  fs (final_state
        (main linux_h demo_libc "tmate" [getopt "S" "/tmp/sock"] []
           (initial_state ∅ ∅))) = ∅
  /\ fs (final_state
           (main linux_h demo_libc "tmate" [] []
              (initial_state inherited_env ∅))) = ∅.
Proof.
  split.
  - apply (explicit_socket_keeps_file_system linux_h demo_libc "tmate"
             [getopt "S" "/tmp/sock"] [] (initial_state ∅ ∅)).
    left. discriminate.
  - apply (explicit_socket_keeps_file_system linux_h demo_libc "tmate"
             [] [] (initial_state inherited_env ∅)).
    right. split; [reflexivity |]. split; [reflexivity |].
    vm_compute. reflexivity.
Defined.
